(** * ptyd: a pseudoterminal bridge (src/pty/ptyd.c)

    A shallow embedding of the C program and the proofs of its
    specification.  The embedding follows the source function by
    function:

    - machine integers are [Z] with the wrap-around of their C type
      written out ([uint8_t], [uint16_t], [uint32_t], [size_t]);
    - [struct parser] is a record holding the whole allocation ([cap]
      bytes, stale bytes included) next to [len] and [cap];
    - system calls are answered by an oracle [OS] that sees the history
      of the calls made so far, and every call is logged in a trace;
    - loops that C does not bound ([write_all], the decoder loop, the
      session loop) take fuel and answer [Timeout] when it runs out. *)

From Stdlib Require Import ZArith List Lia Bool.
From Stdlib Require Import Strings.Byte.
Import ListNotations.
Local Open Scope Z_scope.

(* ================================================================== *)
(** ** Machine integers *)

Module Int.

Definition wrap (bits x : Z) : Z := x mod 2 ^ bits.

(** [uint16_t], [uint32_t] and [size_t] (LP64: 64 bits). *)
Definition u16 (x : Z) : Z := wrap 16 x.
Definition u32 (x : Z) : Z := wrap 32 x.
Definition SIZE_BITS : Z := 64.
Definition usize (x : Z) : Z := wrap SIZE_BITS x.

(** The value of a [uint8_t]. *)
Definition u8 (b : byte) : Z := Z.of_N (Byte.to_N b).

End Int.
Import Int.

(** [errno] value tested by the program (Linux). *)
Definition EINTR : Z := 4.

(** Signal numbers (Linux). *)
Definition SIGHUP : Z := 1.
Definition SIGWINCH : Z := 28.

Definition STDIN_FILENO : Z := 0.
Definition STDOUT_FILENO : Z := 1.

Definition OPCODE_DATA : Z := 1.
Definition OPCODE_RESIZE : Z := 2.
Definition OPCODE_CLOSE : Z := 3.

(* ================================================================== *)
(** ** The operating system: events, oracle, and the monad of the program *)

(** The result of a system call: [SysOk a] when it succeeded with [a]
    (a byte count or the bytes read), [SysErr errno] when it returned
    [-1] and set [errno]. *)
Inductive sysret (A : Type) : Type :=
| SysOk (a : A)
| SysErr (errno : Z).
Arguments SysOk {A} a.
Arguments SysErr {A} errno.

(** One entry per call made to the outside world, with its answer. *)
Inductive event : Type :=
| EMalloc (size : Z) (ok : bool)
| ERealloc (size : Z) (ok : bool)
| EFree
| EWrite (fd : Z) (data : list byte) (count : Z) (r : sysret Z)
| ERead (fd : Z) (count : Z) (r : sysret (list byte))
| EIoctlWinsz (fd : Z) (ws_col ws_row : Z) (r : Z)
| EGetpgid (pid : Z) (r : Z)
| EKillpg (pgrp sig : Z) (r : Z)
| EKill (pid sig : Z) (r : Z)
| EWaitpid (pid : Z) (nohang : bool) (r : Z) (status : option Z)
| ESelect (stdin_set : bool) (r : sysret (bool * bool))
| EClose (fd : Z).

(** Chronological: the most recent event is last. *)
Definition trace : Type := list event.

(** The answers of the system.  Each one may depend on everything that
    happened before.  An allocation answers [None] for [NULL] and
    otherwise gives the (arbitrary) contents of the fresh cells. *)
Record OS : Type := {
  os_malloc : trace -> Z -> option (nat -> byte);
  os_realloc : trace -> Z -> option (nat -> byte);
  os_write : trace -> Z -> list byte -> Z -> sysret Z;
  os_read : trace -> Z -> Z -> sysret (list byte);
  os_ioctl_winsz : trace -> Z -> Z -> Z -> Z;
  os_getpgid : trace -> Z -> Z;
  os_killpg : trace -> Z -> Z -> Z;
  os_kill : trace -> Z -> Z -> Z;
  os_waitpid : trace -> Z -> bool -> Z * option Z;
  os_select : trace -> bool -> sysret (bool * bool)
}.

Inductive res (A : Type) : Type :=
| Ret (a : A) (tr : trace)
| Timeout.
Arguments Ret {A} a tr.
Arguments Timeout {A}.

Definition M (A : Type) : Type := trace -> res A.

Definition ret {A} (a : A) : M A := fun tr => Ret a tr.

Definition bind {A B} (m : M A) (f : A -> M B) : M B :=
  fun tr => match m tr with
            | Ret a tr' => f a tr'
            | Timeout => Timeout
            end.

Definition timeout {A} : M A := fun _ => Timeout.

Notation "x <- m ;; k" := (bind m (fun x => k))
  (at level 61, m at next level, right associativity).
Notation "m ;;; k" := (bind m (fun _ => k))
  (at level 61, right associativity).

(** How one round of a loop ends: [continue] or [return r]. *)
Inductive iter (S : Type) : Type :=
| Next (s : S)
| Return (r : Z).
Arguments Next {S} s.
Arguments Return {S} r.

(** Memory as a list of cells. *)
Module Mem.

(** [n] cells starting [off] cells into [mem]; shorter when the
    range runs past the end of [mem]. *)
Definition read (mem : list byte) (off n : Z) : list byte :=
  firstn (Z.to_nat n) (skipn (Z.to_nat off) mem).

(** [memcpy (mem + off, data, |data|)]. *)
Definition write (mem : list byte) (off : Z) (data : list byte) : list byte :=
  firstn (Z.to_nat off) mem ++ data
    ++ skipn (Z.to_nat off + length data) mem.

(** [memmove (mem + dst, mem + src, n)]. *)
Definition move (mem : list byte) (dst src n : Z) : list byte :=
  write mem dst (read mem src n).

(** A block of [size] cells that keeps the cells of [old] and takes
    the others from [fill]. *)
Definition resize (old : list byte) (size : Z) (fill : nat -> byte) : list byte :=
  firstn (Z.to_nat size) old
    ++ map fill (seq (length old) (Z.to_nat size - length old)).

(** [mem[i]]. *)
Definition at_ (mem : list byte) (i : Z) : byte :=
  nth (Z.to_nat i) mem Byte.x00.

(** The pointer [mem + off]: the cells from [off] to the end of the
    allocation. *)
Definition offset (mem : list byte) (off : Z) : list byte :=
  skipn (Z.to_nat off) mem.

End Mem.

(* ================================================================== *)
(** ** The program *)

(** [struct parser]: [buf] is the allocation, [cap] cells long;
    the pending bytes are its first [len] cells. *)
Record parser : Type := {
  buf : list byte;
  len : Z;
  cap : Z
}.

(** The pending bytes of the Frame Buffer. *)
Definition contents (p : parser) : list byte := Mem.read (buf p) 0 (len p).

Section Program.

Variable os : OS.

(** *** System calls *)

Definition log (e : event) : M unit := fun tr => Ret tt (tr ++ [e]).

Definition malloc (size : Z) : M (option (list byte)) :=
  fun tr =>
    match os_malloc os tr size with
    | Some fill => Ret (Some (Mem.resize [] size fill)) (tr ++ [EMalloc size true])
    | None => Ret None (tr ++ [EMalloc size false])
    end.

Definition realloc (old : list byte) (size : Z) : M (option (list byte)) :=
  fun tr =>
    match os_realloc os tr size with
    | Some fill => Ret (Some (Mem.resize old size fill)) (tr ++ [ERealloc size true])
    | None => Ret None (tr ++ [ERealloc size false])
    end.

Definition free : M unit := log EFree.

Definition write (fd : Z) (data : list byte) (count : Z) : M (sysret Z) :=
  fun tr => let r := os_write os tr fd data count in
            Ret r (tr ++ [EWrite fd data count r]).

Definition read (fd : Z) (count : Z) : M (sysret (list byte)) :=
  fun tr => let r := os_read os tr fd count in
            Ret r (tr ++ [ERead fd count r]).

Definition ioctl_TIOCSWINSZ (fd ws_col ws_row : Z) : M Z :=
  fun tr => let r := os_ioctl_winsz os tr fd ws_col ws_row in
            Ret r (tr ++ [EIoctlWinsz fd ws_col ws_row r]).

Definition getpgid (pid : Z) : M Z :=
  fun tr => let r := os_getpgid os tr pid in
            Ret r (tr ++ [EGetpgid pid r]).

Definition killpg (pgrp sig : Z) : M Z :=
  fun tr => let r := os_killpg os tr pgrp sig in
            Ret r (tr ++ [EKillpg pgrp sig r]).

Definition kill (pid sig : Z) : M Z :=
  fun tr => let r := os_kill os tr pid sig in
            Ret r (tr ++ [EKill pid sig r]).

Definition waitpid (pid : Z) (nohang : bool) : M (Z * option Z) :=
  fun tr => let r := os_waitpid os tr pid nohang in
            Ret r (tr ++ [EWaitpid pid nohang (fst r) (snd r)]).

Definition select (stdin_set : bool) : M (sysret (bool * bool)) :=
  fun tr => let r := os_select os tr stdin_set in
            Ret r (tr ++ [ESelect stdin_set r]).

Definition close (fd : Z) : M unit := log (EClose fd).

(** *** Frame Buffer *)

(** [parser_init]: [None] is the return value [-1]. *)
Definition parser_init (cap0 : Z) : M (option parser) :=
  m <- malloc cap0 ;;
  match m with
  | None => ret None
  | Some b => ret (Some {| buf := b; len := 0; cap := cap0 |})
  end.

Definition parser_deinit (p : parser) : M parser :=
  free ;;;
  ret {| buf := []; len := 0; cap := 0 |}.

(** [while (next_cap < need) next_cap *= 2;] in [size_t]. *)
Fixpoint grow_cap (fuel : nat) (next_cap need : Z) : option Z :=
  if next_cap <? need then
    match fuel with
    | O => None
    | S fuel' => grow_cap fuel' (usize (next_cap * 2)) need
    end
  else Some next_cap.

(** [parser_append (p, data, n)] with [n] the length of [data].
    A value shifted left [SIZE_BITS] times is zero, so 64 rounds of
    the doubling loop decide whether it ends, see
    [grow_cap_None_forever]. *)
Definition parser_append (p : parser) (data : list byte) : M (Z * parser) :=
  let n := usize (Z.of_nat (length data)) in
  if n =? 0 then ret (0, p)
  else
    let need := usize (len p + n) in
    p1 <- (if need >? cap p then
             match grow_cap (Z.to_nat SIZE_BITS) (usize (cap p * 2)) need with
             | None => timeout
             | Some next_cap =>
                 next <- realloc (buf p) next_cap ;;
                 match next with
                 | None => ret None
                 | Some b => ret (Some {| buf := b; len := len p; cap := next_cap |})
                 end
             end
           else ret (Some p)) ;;
    match p1 with
    | None => ret (-1, p)
    | Some p1 =>
        ret (0, {| buf := Mem.write (buf p1) (len p1) (Mem.read data 0 n);
                   len := usize (len p1 + n);
                   cap := cap p1 |})
    end.

Definition parser_consume (p : parser) (n : Z) : parser :=
  if n >=? len p then {| buf := buf p; len := 0; cap := cap p |}
  else {| buf := Mem.move (buf p) 0 n (len p - n);
          len := len p - n;
          cap := cap p |}.

(** *** Writing and signalling *)

Fixpoint write_all_from (fuel : nat) (fd : Z) (mem : list byte) (len off : Z)
  : M Z :=
  if off <? len then
    match fuel with
    | O => timeout
    | S fuel' =>
        n <- write fd (Mem.read mem off (len - off)) (len - off) ;;
        match n with
        | SysErr errno =>
            if errno =? EINTR then write_all_from fuel' fd mem len off
            else ret (-1)
        | SysOk n => write_all_from fuel' fd mem len (usize (off + n))
        end
    end
  else ret 0.

(** [write_all (fd, buf, len)]; [mem] is what [buf] points to. *)
Definition write_all (fuel : nat) (fd : Z) (mem : list byte) (len : Z) : M Z :=
  write_all_from fuel fd mem len 0.

Definition signal_child (pid sig : Z) : M Z :=
  pgid <- getpgid pid ;;
  if pgid <? 0 then ret (-1)
  else if pgid =? pid then
    r <- killpg pgid sig ;;
    if r <? 0 then ret (-1) else ret 0
  else
    r <- kill pid sig ;;
    if r <? 0 then ret (-1) else ret 0.

(** *** Frame Decoder *)

(** The [uint32_t] length of a Data frame. *)
Definition data_length (p : parser) : Z :=
  Z.lor (Z.lor (Z.lor (u32 (Z.shiftl (u8 (Mem.at_ (buf p) 1)) 24))
                      (u32 (Z.shiftl (u8 (Mem.at_ (buf p) 2)) 16)))
               (u32 (Z.shiftl (u8 (Mem.at_ (buf p) 3)) 8)))
        (u32 (u8 (Mem.at_ (buf p) 4))).

Definition resize_cols (p : parser) : Z :=
  u16 (Z.lor (Z.shiftl (u16 (u8 (Mem.at_ (buf p) 1))) 8) (u8 (Mem.at_ (buf p) 2))).

Definition resize_rows (p : parser) : Z :=
  u16 (Z.lor (Z.shiftl (u16 (u8 (Mem.at_ (buf p) 3))) 8) (u8 (Mem.at_ (buf p) 4))).

(** The body of the [while] loop of [parse_and_apply_frames], entered
    with [p->len > 0].  In [5 + n] an [int] meets a [uint32_t]: the sum
    is computed in 32 bits and only then converted to [size_t]. *)
Definition frame_iteration (fuel : nat) (p : parser) (master_fd child_pid : Z)
  : M (iter parser) :=
  let opcode := u8 (Mem.at_ (buf p) 0) in
  if opcode =? OPCODE_DATA then
    if len p <? 5 then ret (Return 0)
    else
      let n := data_length p in
      if len p <? usize (u32 (5 + n)) then ret (Return 0)
      else
        w <- (if n >? 0 then write_all fuel master_fd (Mem.offset (buf p) 5) (usize n)
              else ret 0) ;;
        if negb (w =? 0) then ret (Return (-1))
        else ret (Next (parser_consume p (usize (u32 (5 + n)))))
  else if opcode =? OPCODE_RESIZE then
    if len p <? 5 then ret (Return 0)
    else
      let cols := resize_cols p in
      let rows := resize_rows p in
      r <- ioctl_TIOCSWINSZ master_fd cols rows ;;
      if negb (r =? 0) then ret (Return (-1))
      else
        signal_child child_pid SIGWINCH ;;;
        ret (Next (parser_consume p 5))
  else if opcode =? OPCODE_CLOSE then
    signal_child child_pid SIGHUP ;;;
    ret (Next (parser_consume p 1))
  else ret (Next (parser_consume p 1)).

(** [parse_and_apply_frames]: the return value and the parser it
    leaves. *)
Fixpoint parse_and_apply_frames (fuel : nat) (p : parser) (master_fd child_pid : Z)
  : M (Z * parser) :=
  if len p >? 0 then
    match fuel with
    | O => timeout
    | S fuel' =>
        it <- frame_iteration fuel' p master_fd child_pid ;;
        match it with
        | Next p' => parse_and_apply_frames fuel' p' master_fd child_pid
        | Return r => ret (r, p)
        end
    end
  else ret (0, p).

(** *** Exit code of the child *)

(** The status macros of [<sys/wait.h>].  They belong to the platform,
    not to the repository, so the program is written over this
    interface; [glibc_wait] below is the instance of Linux. *)
Class WaitStatus : Type := {
  WIFEXITED : Z -> bool;
  WEXITSTATUS : Z -> Z;
  WIFSIGNALED : Z -> bool;
  WTERMSIG : Z -> Z;
  wait_exclusive : forall status, WIFEXITED status = true -> WIFSIGNALED status = false;
  WEXITSTATUS_range : forall status, 0 <= WEXITSTATUS status < 256;
  WTERMSIG_range : forall status, 0 <= WTERMSIG status < 128
}.

Context {wait_macros : WaitStatus}.

(** [128 + WTERMSIG (status)] stays below 256: no [int] overflow. *)
Definition child_exit_code (status : Z) : Z :=
  if WIFEXITED status then WEXITSTATUS status
  else if WIFSIGNALED status then 128 + WTERMSIG status
  else 1.

(** *** Session Loop *)

(** The variables of [main] that live across rounds of the loop. *)
Record session : Type := {
  sess_parser : parser;
  stdin_open : bool
}.

(** [sizeof (io_buf)]. *)
Definition IO_BUF_SIZE : Z := 65536.

(** [parser_deinit (&p); close (master_fd); return code;] *)
Definition leave (p : parser) (master_fd code : Z) : M (iter session) :=
  parser_deinit p ;;;
  close master_fd ;;;
  ret (Return code).

(** [if (stdin_open && FD_ISSET (STDIN_FILENO, &readfds)) { ... }] *)
Definition stdin_phase (fuel : nat) (master_fd pid : Z) (s : session)
  (stdin_ready : bool) : M (iter session) :=
  if stdin_open s && stdin_ready then
    n <- read STDIN_FILENO IO_BUF_SIZE ;;
    match n with
    | SysOk data =>
        if Z.of_nat (length data) =? 0 then
          ret (Next {| sess_parser := sess_parser s; stdin_open := false |})
        else
          a <- parser_append (sess_parser s) data ;;
          if negb (fst a =? 0) then leave (snd a) master_fd 1
          else
            d <- parse_and_apply_frames fuel (snd a) master_fd pid ;;
            if negb (fst d =? 0) then leave (snd d) master_fd 1
            else ret (Next {| sess_parser := snd d; stdin_open := stdin_open s |})
    | SysErr errno =>
        if negb (errno =? EINTR) then
          ret (Next {| sess_parser := sess_parser s; stdin_open := false |})
        else ret (Next s)
    end
  else ret (Next s).

(** [if (FD_ISSET (master_fd, &readfds)) { ... }] *)
Definition master_phase (fuel : nat) (master_fd pid : Z) (s : session)
  (master_ready : bool) : M (iter session) :=
  if master_ready then
    n <- read master_fd IO_BUF_SIZE ;;
    match n with
    | SysOk data =>
        if Z.of_nat (length data) =? 0 then
          w <- waitpid pid false ;;
          let status := match snd w with Some st => st | None => 0 end in
          leave (sess_parser s) master_fd (child_exit_code status)
        else
          w <- write_all fuel STDOUT_FILENO data (Z.of_nat (length data)) ;;
          if negb (w =? 0) then leave (sess_parser s) master_fd 1
          else ret (Next s)
    | SysErr errno =>
        if errno =? EINTR then ret (Next s)
        else leave (sess_parser s) master_fd 1
    end
  else ret (Next s).

(** One round of [for (;;)] in [main]. *)
Definition session_iteration (fuel : nat) (master_fd pid : Z) (s : session)
  : M (iter session) :=
  w <- waitpid pid true ;;
  let status := match snd w with Some st => st | None => 0 end in
  if fst w =? pid then leave (sess_parser s) master_fd (child_exit_code status)
  else
    sel <- select (stdin_open s) ;;
    match sel with
    | SysErr errno =>
        if errno =? EINTR then ret (Next s)
        else leave (sess_parser s) master_fd 1
    | SysOk (stdin_ready, master_ready) =>
        i <- stdin_phase fuel master_fd pid s stdin_ready ;;
        match i with
        | Return code => ret (Return code)
        | Next s' => master_phase fuel master_fd pid s' master_ready
        end
    end.

Fixpoint session_loop (fuel : nat) (master_fd pid : Z) (s : session) : M Z :=
  match fuel with
  | O => timeout
  | S fuel' =>
      i <- session_iteration fuel' master_fd pid s ;;
      match i with
      | Return code => ret code
      | Next s' => session_loop fuel' master_fd pid s'
      end
  end.

(** [main] in the parent, from [parser_init] on. *)
Definition run_session (fuel : nat) (master_fd pid : Z) : M Z :=
  p <- parser_init 8192 ;;
  match p with
  | None => close master_fd ;;; ret 1
  | Some p => session_loop fuel master_fd pid {| sess_parser := p; stdin_open := true |}
  end.

End Program.

(* ================================================================== *)
(** ** Well-formed buffers, the platform, and sample systems *)

(** The representation invariant of [struct parser]: the allocation is
    [cap] cells long, it is not empty, and the pending bytes fit. *)
Definition parser_ok (p : parser) : Prop :=
  0 <= len p <= cap p /\
  Z.of_nat (length (buf p)) = cap p /\
  0 < cap p < 2 ^ SIZE_BITS.

(** Upper bound on a size for which doubling a capacity cannot wrap. *)
Definition GROW_MAX : Z := 2 ^ (SIZE_BITS - 1).

(** A run of [parser_append] calls, one per chunk, that stops at the
    first call that fails. *)
Fixpoint append_each (os : OS) (p : parser) (chunks : list (list byte))
  : M (Z * parser) :=
  match chunks with
  | [] => ret (0, p)
  | data :: rest =>
      a <- parser_append os p data ;;
      if fst a =? 0 then append_each os (snd a) rest else ret a
  end.

(** A system in which every call succeeds: allocations give zeroed
    cells, [write] takes all it is given, [read] reports end-of-stream,
    the child leads its process group and is still running, and
    [select] finds nothing ready. *)
Definition os_calm : OS := {|
  os_malloc := fun _ _ => Some (fun _ => Byte.x00);
  os_realloc := fun _ _ => Some (fun _ => Byte.x00);
  os_write := fun _ _ _ count => SysOk count;
  os_read := fun _ _ _ => SysOk [];
  os_ioctl_winsz := fun _ _ _ _ => 0;
  os_getpgid := fun _ pid => pid;
  os_killpg := fun _ _ _ => 0;
  os_kill := fun _ _ _ => 0;
  os_waitpid := fun _ _ _ => (0, None);
  os_select := fun _ _ => SysOk (false, false)
|}.

(** The same system out of memory: [malloc] and [realloc] return
    [NULL]. *)
Definition os_no_memory : OS := {|
  os_malloc := fun _ _ => None;
  os_realloc := fun _ _ => None;
  os_write := os_write os_calm;
  os_read := os_read os_calm;
  os_ioctl_winsz := os_ioctl_winsz os_calm;
  os_getpgid := os_getpgid os_calm;
  os_killpg := os_killpg os_calm;
  os_kill := os_kill os_calm;
  os_waitpid := os_waitpid os_calm;
  os_select := os_select os_calm
|}.

(** A fresh Frame Buffer of four cells. *)
Definition parser4 : parser :=
  {| buf := [Byte.x00; Byte.x00; Byte.x00; Byte.x00]; len := 0; cap := 4 |}.

(** A parser whose allocation is exactly the pending bytes [bytes]. *)
Definition parser_of (bytes : list byte) : parser :=
  {| buf := bytes; len := Z.of_nat (length bytes); cap := Z.of_nat (length bytes) |}.

(** The macros of glibc on Linux ([bits/waitstatus.h]), on the bits of
    an [int] status. *)
Definition sint8 (x : Z) : Z :=
  let y := x mod 256 in if y <? 128 then y else y - 256.

#[export] Instance glibc_wait : WaitStatus.
Proof.
  refine {|
    WTERMSIG := fun status => Z.land status 127;
    WIFEXITED := fun status => Z.land status 127 =? 0;
    WEXITSTATUS := fun status => Z.shiftr (Z.land status 65280) 8;
    WIFSIGNALED := fun status => Z.shiftr (sint8 (Z.land status 127 + 1)) 1 >? 0
  |}.
  - intros status H. apply Z.eqb_eq in H. rewrite H. reflexivity.
  - intros status. change 65280 with (Z.shiftl (Z.ones 8) 8).
    rewrite Z.shiftr_land.
    rewrite Z.shiftr_shiftl_l, Z.sub_diag, Z.shiftl_0_r by lia.
    rewrite Z.land_ones by lia.
    apply Z.mod_pos_bound. lia.
  - intros status. change 127 with (Z.ones 7).
    rewrite Z.land_ones by lia. apply Z.mod_pos_bound. lia.
Defined.

(** The bytes that the [write] calls of a trace put on a descriptor. *)
Definition written (fd : Z) (tr : trace) : list byte :=
  flat_map (fun e =>
              match e with
              | EWrite fd' data _ (SysOk n) =>
                  if fd' =? fd then firstn (Z.to_nat n) data else []
              | _ => []
              end) tr.

(** The bytes that reached the controller-output stream. *)
Definition relayed (tr : trace) : list byte := written STDOUT_FILENO tr.

(** A [write] that succeeds takes between 0 and [count] bytes. *)
Definition os_write_sane (os : OS) : Prop :=
  forall tr fd data count n,
    os_write os tr fd data count = SysOk n -> 0 <= n <= count.

(** The bytes that a read of the pseudoterminal would return now. *)
Definition pty_pending (os : OS) (tr : trace) (master_fd : Z) : list byte :=
  match os_read os tr master_fd IO_BUF_SIZE with
  | SysOk data => data
  | SysErr _ => []
  end.

(** Every signal of the trace is sent right after a [getpgid] of the
    child, to the target this answer selects: the group when the child
    leads it, the child alone otherwise, nobody when the query failed.
    [prev] is the answer of the query that the previous event made. *)
Fixpoint signals_fresh (child_pid : Z) (prev : option Z) (tr : trace) : bool :=
  match tr with
  | [] => true
  | EGetpgid pid r :: rest =>
      signals_fresh child_pid (if pid =? child_pid then Some r else None) rest
  | EKillpg pgrp _ _ :: rest =>
      match prev with
      | Some pgid => (0 <=? pgid) && (pgid =? child_pid) && (pgrp =? pgid)
      | None => false
      end && signals_fresh child_pid None rest
  | EKill pid _ _ :: rest =>
      match prev with
      | Some pgid => (0 <=? pgid) && negb (pgid =? child_pid) && (pid =? child_pid)
      | None => false
      end && signals_fresh child_pid None rest
  | _ :: rest => signals_fresh child_pid None rest
  end.

(** [os_calm] with other answers for [read] (by descriptor), the
    window-size [ioctl], [waitpid], [select] and [getpgid]. *)
Definition os_sample (rd : Z -> sysret (list byte)) (winsz : Z)
  (wp : Z * option Z) (sel : sysret (bool * bool)) (pgid : trace -> Z -> Z) : OS := {|
  os_malloc := os_malloc os_calm;
  os_realloc := os_realloc os_calm;
  os_write := os_write os_calm;
  os_read := fun _ fd _ => rd fd;
  os_ioctl_winsz := fun _ _ _ _ => winsz;
  os_getpgid := pgid;
  os_killpg := os_killpg os_calm;
  os_kill := os_kill os_calm;
  os_waitpid := fun _ _ _ => wp;
  os_select := fun _ _ => sel
|}.

(** Sample buffers.  [parser_huge_length] holds five pending bytes, a
    Data header that announces [2^32 - 1] payload bytes, in an
    allocation of eight cells whose last three are stale;
    [parser_wrap_zero] holds a header that announces [2^32 - 5]
    bytes. *)
Definition parser_huge_length : parser :=
  {| buf := [Byte.x01; Byte.xff; Byte.xff; Byte.xff; Byte.xff;
             Byte.x73; Byte.x65; Byte.x63];
     len := 5; cap := 8 |}.

Definition parser_wrap_zero : parser :=
  {| buf := [Byte.x01; Byte.xff; Byte.xff; Byte.xff; Byte.xfb;
             Byte.x00; Byte.x00; Byte.x00];
     len := 5; cap := 8 |}.

Definition resize_80x24 : list byte :=
  [Byte.x02; Byte.x00; Byte.x50; Byte.x00; Byte.x18].

Definition noise_then_close : list byte := [Byte.xff; Byte.xff; Byte.x03].

(** The child leaves the group it leads once the group was signalled. *)
Definition os_regroup : OS :=
  os_sample (fun _ => SysOk []) 0 (0, None) (SysOk (false, false))
    (fun tr pid =>
       if existsb (fun e => match e with EKillpg _ _ _ => true | _ => false end) tr
       then 7 else pid).

(** The controller sends a Resize frame and the window-size [ioctl]
    fails. *)
Definition os_winsz_fails : OS :=
  os_sample (fun fd => if fd =? STDIN_FILENO then SysOk resize_80x24 else SysOk [])
    (-1) (0, None) (SysOk (true, false)) (fun _ pid => pid).

(** The child was killed by signal 9 while two bytes of its output
    wait in the pseudoterminal (descriptor 3). *)
Definition os_child_gone : OS :=
  os_sample (fun fd => if fd =? 3 then SysOk [Byte.x68; Byte.x69] else SysOk [])
    0 (100, Some 9) (SysOk (false, true)) (fun _ pid => pid).

(** The controller has closed its end while two bytes of output wait in
    the pseudoterminal (descriptor 3). *)
Definition os_stdin_eof : OS :=
  os_sample (fun fd => if fd =? 3 then SysOk [Byte.x68; Byte.x69] else SysOk [])
    0 (0, None) (SysOk (true, true)) (fun _ pid => pid).

(** The session as the loop starts it, over a buffer of four cells. *)
Definition session4 : session := {| sess_parser := parser4; stdin_open := true |}.

(** "The output still buffered in the pseudoterminal when the exit of
    the child is observed is relayed before the round returns": of the
    events of the round, the bytes written to the controller output
    start with the bytes pending when the child was polled. *)
Definition drains_before_exit `{WaitStatus} (os : OS) (fuel : nat)
  (master_fd pid : Z) (s : session) (tr : trace) : Prop :=
  fst (os_waitpid os tr pid true) = pid ->
  forall code tr',
    session_iteration os fuel master_fd pid s tr = Ret (Return code) tr' ->
    exists rest,
      relayed (skipn (length tr) tr')
      = pty_pending os (tr ++ [EWaitpid pid true pid (snd (os_waitpid os tr pid true))])
          master_fd ++ rest.

(** The Data header whose length field [n = 2^32 - 5] makes the 32-bit
    sum [5 + n] zero, and the byte sequences that hold it nowhere. *)
Definition wrap_header (l : list byte) : bool :=
  match l with
  | b0 :: b1 :: b2 :: b3 :: b4 :: _ =>
      (u8 b0 =? 1) && (u8 b1 =? 255) && (u8 b2 =? 255) && (u8 b3 =? 255)
      && (u8 b4 =? 251)
  | _ => false
  end.

Definition wrap_free (l : list byte) : Prop :=
  forall i : nat, wrap_header (skipn i l) = false.

(** Every [write] takes all it is given. *)
Definition os_write_accepts (os : OS) : Prop :=
  forall tr fd data count, os_write os tr fd data count = SysOk count.

(** Every call of [write_all] returns. *)
Definition writes_return (os : OS) : Prop :=
  forall fd mem len tr, exists fuel w tr', write_all os fuel fd mem len tr = Ret w tr'.

(* ================================================================== *)
(** ** Further vocabulary for traces and systems *)

(** A [write] on descriptor [fd]. *)
Definition is_write_to (fd : Z) (e : event) : bool :=
  match e with
  | EWrite fd' _ _ _ => fd' =? fd
  | _ => false
  end.

(** A [write] that failed with an error other than [EINTR]. *)
Definition hard_error (e : event) : bool :=
  match e with
  | EWrite _ _ _ (SysErr errno) => negb (errno =? EINTR)
  | _ => false
  end.

(** Every [write] of at least one byte succeeds and takes at least one
    byte, and no more than it was given. *)
Definition os_write_progress (os : OS) : Prop :=
  forall tr fd data count,
    0 < count ->
    exists n, os_write os tr fd data count = SysOk n /\ 0 < n <= count.

(** [os_calm] with a [write] that takes two bytes at most (and refuses
    a negative count with [EINVAL], 22). *)
Definition os_chunked : OS := {|
  os_malloc := os_malloc os_calm;
  os_realloc := os_realloc os_calm;
  os_write := fun _ _ _ count =>
                if count <? 0 then SysErr 22 else SysOk (Z.min count 2);
  os_read := os_read os_calm;
  os_ioctl_winsz := os_ioctl_winsz os_calm;
  os_getpgid := os_getpgid os_calm;
  os_killpg := os_killpg os_calm;
  os_kill := os_kill os_calm;
  os_waitpid := os_waitpid os_calm;
  os_select := os_select os_calm
|}.


(** What the decoder may do: write to the pseudoterminal, set its
    window size, ask for the group of the child, and send [SIGWINCH] or
    [SIGHUP] to the child or to the group it leads. *)
Definition decoder_event (master_fd child_pid : Z) (e : event) : bool :=
  match e with
  | EWrite fd _ _ _ => fd =? master_fd
  | EIoctlWinsz fd _ _ _ => fd =? master_fd
  | EGetpgid pid _ => pid =? child_pid
  | EKillpg pgrp sig _ =>
      (pgrp =? child_pid) && ((sig =? SIGWINCH) || (sig =? SIGHUP))
  | EKill pid sig _ =>
      (pid =? child_pid) && ((sig =? SIGWINCH) || (sig =? SIGHUP))
  | _ => false
  end.

(** The two failures that end the decoder: a [write] to the
    pseudoterminal that fails with an error other than [EINTR], and a
    window-size [ioctl] that does not return [0]. *)
Definition decoder_fatal (master_fd : Z) (e : event) : bool :=
  match e with
  | EWrite fd _ _ (SysErr errno) => (fd =? master_fd) && negb (errno =? EINTR)
  | EIoctlWinsz fd _ _ r => (fd =? master_fd) && negb (r =? 0)
  | _ => false
  end.

(** The buffer starts with a frame that the decoder takes as not yet
    complete. *)
Definition incomplete_frame (p : parser) : Prop :=
  (u8 (Mem.at_ (buf p) 0) = OPCODE_DATA /\
   (len p < 5 \/ len p < u32 (5 + data_length p))) \/
  (u8 (Mem.at_ (buf p) 0) = OPCODE_RESIZE /\ len p < 5).

(** A Data frame with payload "abc" followed by a Close, and the same
    Data frame with only its first payload byte. *)
Definition data_abc_close : list byte :=
  [Byte.x01; Byte.x00; Byte.x00; Byte.x00; Byte.x03;
   Byte.x61; Byte.x62; Byte.x63; Byte.x03].

Definition data_abc_partial : list byte :=
  [Byte.x01; Byte.x00; Byte.x00; Byte.x00; Byte.x03; Byte.x61].

(** The pseudoterminal refuses the second [write] with [EIO] (5). *)
Definition os_pty_breaks : OS := {|
  os_malloc := os_malloc os_calm;
  os_realloc := os_realloc os_calm;
  os_write := fun tr _ _ count =>
                if existsb (is_write_to 3) tr then SysErr 5
                else if count <? 0 then SysErr 22 else SysOk (Z.min count 2);
  os_read := os_read os_calm;
  os_ioctl_winsz := os_ioctl_winsz os_calm;
  os_getpgid := fun _ _ => -1;
  os_killpg := os_killpg os_calm;
  os_kill := os_kill os_calm;
  os_waitpid := os_waitpid os_calm;
  os_select := os_select os_calm
|}.

(** What a round of the session loop may do before it leaves: poll or
    await the child, [select], read the controller input or the
    pseudoterminal into [io_buf], grow the Frame Buffer, whatever the
    decoder may do, and write to the controller output. *)
Definition session_event (master_fd pid : Z) (e : event) : bool :=
  decoder_event master_fd pid e ||
  match e with
  | EWaitpid p _ _ _ => p =? pid
  | ESelect _ _ => true
  | ERead fd count _ =>
      ((fd =? STDIN_FILENO) || (fd =? master_fd)) && (count =? IO_BUF_SIZE)
  | ERealloc _ _ => true
  | EWrite fd _ _ _ => fd =? STDOUT_FILENO
  | _ => false
  end.

(** What is left to a session whose controller input is closed: poll
    or await the child, [select] on the pseudoterminal alone, read it,
    copy to the controller output, and release on the way out. *)
Definition drain_event (master_fd pid : Z) (e : event) : bool :=
  match e with
  | EWaitpid p _ _ _ => p =? pid
  | ESelect stdin_set _ => negb stdin_set
  | ERead fd _ _ => fd =? master_fd
  | EWrite fd _ _ _ => fd =? STDOUT_FILENO
  | EFree => true
  | EClose fd => fd =? master_fd
  | _ => false
  end.

(** The status that [child_exit_code] is given: what [waitpid] stored,
    or the [0] the variable was initialized with. *)
Definition status_of (st : option Z) : Z :=
  match st with Some v => v | None => 0 end.

(** The child is gone and its output is at end-of-stream, but the final
    [waitpid] fails and stores no status. *)
Definition os_wait_fails : OS :=
  os_sample (fun _ => SysOk []) 0 (-1, None) (SysOk (false, true)) (fun _ pid => pid).

(** The controller input is closed; the pseudoterminal delivers two
    bytes in each round. *)
Definition session_draining : session :=
  {| sess_parser := parser4; stdin_open := false |}.

(** How a phase or a round ends: it continues after allowed calls
    only, or it leaves after allowed calls followed by one [free] and
    one [close] of the pseudoterminal, with code [1] or with the mapped
    status that a [waitpid], its last call, reported. *)
Definition ends_well `{WaitStatus} (master_fd pid : Z) (tr : trace) (i : iter session) (tr' : trace)
  : Prop :=
  exists ext,
    forallb (session_event master_fd pid) ext = true /\
    match i with
    | Next _ => tr' = tr ++ ext
    | Return code =>
        tr' = tr ++ ext ++ [EFree; EClose master_fd] /\
        0 <= code < 256 /\
        (code = 1 \/
         exists ext0 nohang r st,
           ext = ext0 ++ [EWaitpid pid nohang r st] /\
           code = child_exit_code (status_of st) /\
           (nohang = true -> r = pid))
    end.

(** A release of a resource of the session. *)
Definition releases (e : event) : bool :=
  match e with
  | EFree | EClose _ => true
  | _ => false
  end.

(** The pseudoterminal delivers two bytes whenever it is read, and the
    child is reported gone once something was relayed; [select] finds
    both descriptors ready. *)
Definition os_last_words : OS := {|
  os_malloc := os_malloc os_calm;
  os_realloc := os_realloc os_calm;
  os_write := os_write os_chunked;
  os_read := fun _ fd _ => if fd =? 3 then SysOk [Byte.x68; Byte.x69] else SysOk [];
  os_ioctl_winsz := os_ioctl_winsz os_calm;
  os_getpgid := os_getpgid os_calm;
  os_killpg := os_killpg os_calm;
  os_kill := os_kill os_calm;
  os_waitpid := fun tr pid _ =>
                  if existsb (is_write_to STDOUT_FILENO) tr then (pid, Some 0)
                  else (0, None);
  os_select := fun _ _ => SysOk (true, true)
|}.

(** The controller sends a Data header that announces three bytes and
    the first of them. *)
Definition os_partial_frame : OS :=
  os_sample (fun _ => SysOk data_abc_partial) 0 (0, None) (SysOk (true, false))
    (fun _ pid => pid).

(* ================================================================== *)
(** ** Bootstrap: [main] up to the session loop, and the child *)

(** What a descriptor refers to. *)
Inductive file : Type :=
| PtyMaster
| PtySlave
| Inherited (fd : Z).

(** The descriptors of a process. *)
Definition fdtable : Type := Z -> option file.

Definition fd_update (t : fdtable) (fd : Z) (f : option file) : fdtable :=
  fun x => if x =? fd then f else t x.

(** The calls of the child between [fork] and the program it runs,
    with their answers; [CExecvp None] is an [execvp] that did not
    return. *)
Inductive child_call : Type :=
| CSetsid (r : Z)
| CIoctlSctty (fd : Z) (r : Z)
| CDup2 (oldfd newfd : Z) (r : Z)
| CClose (fd : Z)
| CExecvp (r : option Z)
| CExit (code : Z).

(** The answers of the system to the child. *)
Record ChildOS : Type := {
  cos_setsid : list child_call -> Z;
  cos_ioctl_sctty : list child_call -> Z -> Z;
  cos_dup2 : list child_call -> Z -> Z -> Z;
  cos_execvp : list child_call -> option Z
}.

(** The child ends in the program, with the descriptors it starts
    from, or in [_exit]. *)
Inductive child_end : Type :=
| Runs (fds : fdtable)
| Exits (code : Z).

(** The state of the child: the calls made so far, and its
    descriptors. *)
Definition child_state : Type := (list child_call * fdtable)%type.

Section Child.

Variable cos : ChildOS.

Definition setsid (st : child_state) : Z * child_state :=
  let r := cos_setsid cos (fst st) in
  (r, (fst st ++ [CSetsid r], snd st)).

Definition ioctl_TIOCSCTTY (fd : Z) (st : child_state) : Z * child_state :=
  let r := cos_ioctl_sctty cos (fst st) fd in
  (r, (fst st ++ [CIoctlSctty fd r], snd st)).

(** [dup2]: on success [newfd] refers to what [oldfd] refers to. *)
Definition dup2 (oldfd newfd : Z) (st : child_state) : Z * child_state :=
  let r := cos_dup2 cos (fst st) oldfd newfd in
  (r, (fst st ++ [CDup2 oldfd newfd r],
       if r <? 0 then snd st else fd_update (snd st) newfd (snd st oldfd))).

Definition child_close (fd : Z) (st : child_state) : child_state :=
  (fst st ++ [CClose fd], fd_update (snd st) fd None).

Definition _exit (code : Z) (st : child_state) : list child_call * child_end :=
  (fst st ++ [CExit code], Exits code).

(** [main] in the child ([pid == 0]). *)
Definition child_branch (master_fd slave_fd : Z) (fds : fdtable)
  : list child_call * child_end :=
  let st := ([], fds) in
  let '(r, st) := setsid st in
  if r <? 0 then _exit 1 st
  else
    let '(r, st) := ioctl_TIOCSCTTY slave_fd st in
    if r <? 0 then _exit 1 st
    else
      let '(r, st) := dup2 slave_fd STDIN_FILENO st in
      if r <? 0 then _exit 1 st
      else
        let '(r, st) := dup2 slave_fd STDOUT_FILENO st in
        if r <? 0 then _exit 1 st
        else
          let '(r, st) := dup2 slave_fd 2 st in
          if r <? 0 then _exit 1 st
          else
            let st := child_close master_fd st in
            let st := child_close slave_fd st in
            match cos_execvp cos (fst st) with
            | None => (fst st ++ [CExecvp None], Runs (snd st))
            | Some r => _exit 127 (fst st ++ [CExecvp (Some r)], snd st)
            end.

End Child.

(** How [main] ends: the parent returns, or the process is the child. *)
Inductive main_end : Type :=
| ParentReturns (code : Z)
| ChildEnds (calls : list child_call) (e : child_end).

(** [main].  The answers of [openpty] ([None] when it fails, else the
    two descriptors) and of [fork] are arguments, with the descriptors
    [fds] that the process holds after [openpty]. *)
Definition main `{WaitStatus} (os : OS) (cos : ChildOS) (fuel : nat) (argc : Z)
  (pty : option (Z * Z)) (fds : fdtable) (pid : Z) : M main_end :=
  if argc <? 2 then ret (ParentReturns 2)
  else
    match pty with
    | None => ret (ParentReturns 1)
    | Some (master_fd, slave_fd) =>
        if pid <? 0 then
          close master_fd ;;;
          close slave_fd ;;;
          ret (ParentReturns 1)
        else if pid =? 0 then
          let c := child_branch cos master_fd slave_fd fds in
          ret (ChildEnds (fst c) (snd c))
        else
          close slave_fd ;;;
          code <- run_session os fuel master_fd pid ;;
          ret (ParentReturns code)
    end.

(** A call of the child that failed. *)
Definition failed (c : child_call) : bool :=
  match c with
  | CSetsid r | CIoctlSctty _ r | CDup2 _ _ r => r <? 0
  | CExecvp (Some _) => true
  | _ => false
  end.

(** Counting releases and allocations in a trace. *)
Definition closes (fd : Z) (tr : trace) : nat :=
  length (filter (fun e => match e with EClose fd' => fd' =? fd | _ => false end) tr).

Definition frees (tr : trace) : nat :=
  length (filter (fun e => match e with EFree => true | _ => false end) tr).

Definition allocations (tr : trace) : nat :=
  length (filter (fun e => match e with EMalloc _ ok => ok | _ => false end) tr).

(** A system for the child in which every call succeeds, and one in
    which the third [dup2] fails. *)
Definition cos_calm : ChildOS := {|
  cos_setsid := fun _ => 0;
  cos_ioctl_sctty := fun _ _ => 0;
  cos_dup2 := fun _ _ newfd => newfd;
  cos_execvp := fun _ => None
|}.

Definition cos_no_stderr : ChildOS := {|
  cos_setsid := fun _ => 0;
  cos_ioctl_sctty := fun _ _ => 0;
  cos_dup2 := fun _ _ newfd => if newfd =? 2 then -1 else newfd;
  cos_execvp := fun _ => None
|}.

(** The descriptors of a process started with the usual three, after
    [openpty] returned [3] and [4]. *)
Definition fds_3_4 : fdtable :=
  fun fd => if fd =? 3 then Some PtyMaster
            else if fd =? 4 then Some PtySlave
            else if (0 <=? fd) && (fd <=? 2) then Some (Inherited fd)
            else None.


Definition is_exec (c : child_call) : bool :=
  match c with
  | CExecvp _ => true
  | _ => false
  end.

(** The calls of a complete setup of the child, with their answers. *)
Definition setup_calls (master_fd slave_fd r0 r1 d0 d1 d2 : Z) : list child_call :=
  [CSetsid r0; CIoctlSctty slave_fd r1;
   CDup2 slave_fd STDIN_FILENO d0; CDup2 slave_fd STDOUT_FILENO d1; CDup2 slave_fd 2 d2;
   CClose master_fd; CClose slave_fd].

(* ================================================================== *)
(** * Proofs *)

(** ** Memory *)

Section MemFacts.

Implicit Types (mem data : list byte) (off n : Z).

Lemma read_length mem off n :
  0 <= off -> 0 <= n -> off + n <= Z.of_nat (length mem) ->
  Z.of_nat (length (Mem.read mem off n)) = n.
Proof.
  intros Hoff Hn Hle. unfold Mem.read.
  rewrite length_firstn, length_skipn. lia.
Qed.

Lemma write_length mem off data :
  0 <= off -> off + Z.of_nat (length data) <= Z.of_nat (length mem) ->
  length (Mem.write mem off data) = length mem.
Proof.
  intros Hoff Hle. unfold Mem.write.
  rewrite !length_app, length_firstn, length_skipn. lia.
Qed.

Lemma read_write_prefix mem off data :
  0 <= off <= Z.of_nat (length mem) ->
  Mem.read (Mem.write mem off data) 0 (off + Z.of_nat (length data))
  = Mem.read mem 0 off ++ data.
Proof.
  intros Hoff. unfold Mem.read, Mem.write. cbn [Z.to_nat skipn].
  rewrite app_assoc.
  replace (Z.to_nat (off + Z.of_nat (length data)))
    with (length (firstn (Z.to_nat off) mem ++ data) + 0)%nat.
  - rewrite firstn_app_2. cbn [firstn]. now rewrite app_nil_r.
  - rewrite length_app, length_firstn. lia.
Qed.

Lemma resize_length mem n fill :
  0 <= n -> Z.of_nat (length (Mem.resize mem n fill)) = n.
Proof.
  intros Hn. unfold Mem.resize.
  rewrite length_app, length_firstn, length_map, length_seq. lia.
Qed.

Lemma resize_keeps mem n fill k :
  0 <= k <= Z.of_nat (length mem) -> Z.of_nat (length mem) <= n ->
  Mem.read (Mem.resize mem n fill) 0 k = Mem.read mem 0 k.
Proof.
  intros Hk Hn. unfold Mem.read, Mem.resize. cbn [Z.to_nat skipn].
  rewrite (firstn_all2 (n := Z.to_nat n)) by lia.
  rewrite firstn_app.
  replace (Z.to_nat k - length mem)%nat with 0%nat by lia.
  cbn [firstn]. now rewrite app_nil_r.
Qed.

Lemma read_move_front mem n k :
  0 <= n -> 0 <= k -> n + k <= Z.of_nat (length mem) ->
  Mem.read (Mem.move mem 0 n k) 0 k = Mem.read mem n k.
Proof.
  intros Hn Hk Hle. unfold Mem.move.
  pose proof (read_length mem n k Hn Hk Hle) as Hlen.
  replace k with (0 + Z.of_nat (length (Mem.read mem n k))) at 2 by lia.
  rewrite read_write_prefix by lia.
  reflexivity.
Qed.

Lemma read_read mem n k l :
  0 <= n -> 0 <= k -> n + k <= l ->
  Mem.read mem n k = Mem.read (Mem.read mem 0 l) n k.
Proof.
  intros Hn Hk Hle. unfold Mem.read. cbn [Z.to_nat skipn].
  rewrite skipn_firstn_comm, firstn_firstn.
  f_equal. lia.
Qed.

End MemFacts.

(** ** Machine integers *)

Lemma usize_small x : 0 <= x < 2 ^ SIZE_BITS -> usize x = x.
Proof. intros H. unfold usize, wrap. now apply Z.mod_small. Qed.

Lemma u32_small x : 0 <= x < 2 ^ 32 -> u32 x = x.
Proof. intros H. unfold u32, wrap. now apply Z.mod_small. Qed.

Lemma u16_small x : 0 <= x < 2 ^ 16 -> u16 x = x.
Proof. intros H. unfold u16, wrap. now apply Z.mod_small. Qed.

Lemma u8_range b : 0 <= u8 b < 256.
Proof.
  unfold u8. pose proof (Byte.to_N_bounded b) as H. lia.
Qed.

(** ** Frame Buffer *)

Section BufferFacts.

Variable os : OS.

(** The doubling loop ends, without wrapping, on the least power-of-two
    multiple that covers [need], as long as [need <= GROW_MAX]. *)
Lemma grow_cap_spec fuel next need :
  0 < next -> need <= GROW_MAX -> need <= next * 2 ^ Z.of_nat fuel ->
  exists k, 0 <= k /\
    grow_cap fuel next need = Some (next * 2 ^ k) /\
    need <= next * 2 ^ k /\
    (0 < k -> next * 2 ^ (k - 1) < need).
Proof.
  revert next. induction fuel as [|fuel IH]; intros next Hpos Hmax Hfuel.
  - exists 0. cbn [grow_cap]. cbn in Hfuel.
    destruct (Z.ltb_spec next need); [lia|].
    repeat split; try lia. f_equal. lia.
  - cbn [grow_cap]. destruct (Z.ltb_spec next need) as [Hlt|Hge].
    + assert (Hw : usize (next * 2) = next * 2).
      { apply usize_small. unfold GROW_MAX, SIZE_BITS in *. cbn in *. lia. }
      rewrite Hw.
      destruct (IH (next * 2)) as (k & Hk & Hg & Hcov & Hmin); try lia.
      { rewrite Nat2Z.inj_succ, Z.pow_succ_r in Hfuel by lia. lia. }
      exists (k + 1). rewrite Hg.
      assert (Hp : 2 ^ (k + 1) = 2 * 2 ^ k) by (rewrite Z.pow_add_r by lia; lia).
      rewrite Hp. repeat split; try lia.
      * f_equal. lia.
      * intros _. replace (k + 1 - 1) with k by lia.
        destruct (Z.eq_dec k 0) as [->|Hk0]; [cbn; lia|].
        assert (Hm : next * 2 * 2 ^ (k - 1) < need) by (apply Hmin; lia).
        replace (2 ^ k) with (2 * 2 ^ (k - 1)); [lia|].
        rewrite <- Z.pow_succ_r by lia. f_equal. lia.
    + exists 0. repeat split; try lia. f_equal. lia.
Qed.

Lemma usize_double x j :
  0 <= j -> usize (usize (x * 2) * 2 ^ j) = usize (x * 2 ^ (j + 1)).
Proof.
  intros Hj. unfold usize, wrap.
  rewrite Z.mul_mod_idemp_l by (unfold SIZE_BITS; lia).
  f_equal. rewrite Z.pow_add_r by lia. lia.
Qed.

Lemma grow_cap_None fuel : forall next need,
  0 <= next < 2 ^ SIZE_BITS ->
  (grow_cap fuel next need = None <->
   forall j, 0 <= j <= Z.of_nat fuel -> usize (next * 2 ^ j) < need).
Proof.
  induction fuel as [|fuel IH]; intros next need Hnext.
  - cbn [grow_cap]. destruct (Z.ltb_spec next need) as [Hlt|Hge]; split.
    + intros _ j Hj. replace j with 0 by lia.
      rewrite Z.mul_1_r, usize_small; lia.
    + reflexivity.
    + discriminate.
    + intros H. specialize (H 0). rewrite Z.mul_1_r, usize_small in H; lia.
  - cbn [grow_cap]. destruct (Z.ltb_spec next need) as [Hlt|Hge].
    + rewrite IH by (unfold usize, wrap; apply Z.mod_pos_bound; unfold SIZE_BITS; lia).
      split; intros H j Hj.
      * destruct (Z.eq_dec j 0) as [->|Hj0].
        { rewrite Z.mul_1_r, usize_small; lia. }
        specialize (H (j - 1)). rewrite usize_double in H by lia.
        replace (j - 1 + 1) with j in H by lia. apply H. lia.
      * rewrite usize_double by lia. apply H. lia.
    + split; [discriminate|].
      intros H. specialize (H 0). rewrite Z.mul_1_r, usize_small in H; lia.
Qed.

(** Once 64 doublings did not cover [need], no number of them does:
    the value has wrapped to zero and the C loop spins for ever. *)
Lemma grow_cap_None_forever next need :
  0 <= next < 2 ^ SIZE_BITS ->
  grow_cap (Z.to_nat SIZE_BITS) next need = None ->
  forall fuel, grow_cap fuel next need = None.
Proof.
  intros Hnext H fuel.
  rewrite grow_cap_None in H by assumption.
  rewrite grow_cap_None by assumption.
  assert (Hzero : 0 < need).
  { specialize (H SIZE_BITS). unfold usize, wrap in H.
    rewrite Z.mod_mul in H by (unfold SIZE_BITS; lia).
    apply H. unfold SIZE_BITS. lia. }
  intros j Hj. destruct (Z.le_gt_cases j SIZE_BITS) as [Hle|Hgt].
  - apply H. unfold SIZE_BITS in *. lia.
  - replace j with ((j - SIZE_BITS) + SIZE_BITS) by lia.
    rewrite Z.pow_add_r by (unfold SIZE_BITS in *; lia).
    unfold usize, wrap. rewrite Z.mul_assoc.
    rewrite Z.mod_mul by (unfold SIZE_BITS; lia). exact Hzero.
Qed.

(** What [parser_append] does to a well-formed buffer. *)
Lemma parser_append_spec p data tr :
  parser_ok p ->
  len p + Z.of_nat (length data) <= GROW_MAX ->
  exists r p' tr',
    parser_append os p data tr = Ret (r, p') tr' /\
    ((r = -1 /\ p' = p /\ cap p < len p + Z.of_nat (length data)) \/
     (r = 0 /\ parser_ok p' /\
      contents p' = contents p ++ data /\
      len p' = len p + Z.of_nat (length data) /\
      ((len p + Z.of_nat (length data) <= cap p /\ cap p' = cap p) \/
       (cap p < len p + Z.of_nat (length data) /\
        exists k, 1 <= k /\ cap p' = cap p * 2 ^ k /\
          cap p * 2 ^ (k - 1) < len p + Z.of_nat (length data) <= cap p * 2 ^ k)))).
Proof.
  intros (Hlen & Hbuf & Hcap) Hmax.
  assert (HG : GROW_MAX = 2 ^ 63) by reflexivity.
  assert (HS : 2 ^ SIZE_BITS = 2 ^ 64) by reflexivity.
  set (n := Z.of_nat (length data)) in *.
  assert (Hn : usize n = n) by (apply usize_small; lia).
  assert (Hneed : usize (len p + n) = len p + n) by (apply usize_small; lia).
  unfold parser_append. fold n. rewrite Hn, Hneed.
  destruct (Z.eqb_spec n 0) as [Hz|Hnz].
  - exists 0, p, tr. split; [reflexivity|]. right.
    assert (data = []) as -> by (destruct data; [reflexivity|cbn in n; lia]).
    rewrite app_nil_r. repeat split; lia.
  - assert (Hread : Mem.read data 0 n = data).
    { unfold Mem.read. cbn [Z.to_nat skipn]. apply firstn_all2. lia. }
    rewrite Hread.
    destruct (Z.gtb_spec (len p + n) (cap p)) as [Hgrow|Hfit].
    + destruct (grow_cap_spec (Z.to_nat SIZE_BITS) (cap p * 2) (len p + n))
        as (k & Hk & Hg & Hcov & Hmin); try lia.
      { change (Z.of_nat (Z.to_nat SIZE_BITS)) with 64. lia. }
      rewrite (usize_small (cap p * 2)) by lia. rewrite Hg.
      unfold bind, realloc, ret.
      assert (Hp : cap p * 2 * 2 ^ k = cap p * 2 ^ (k + 1))
        by (rewrite Z.pow_add_r by lia; lia).
      destruct (os_realloc os tr (cap p * 2 * 2 ^ k)) as [fill|].
      * eexists 0, _, _. split; [reflexivity|]. right.
        cbn [buf len cap]. rewrite usize_small by lia.
        assert (Hrl : Z.of_nat (length (Mem.resize (buf p) (cap p * 2 * 2 ^ k) fill))
                      = cap p * 2 * 2 ^ k) by (apply resize_length; lia).
        split; [reflexivity|]. split; [|split; [|split]].
        -- unfold parser_ok. cbn [buf len cap].
           rewrite write_length by lia. repeat split; try lia.
           destruct (Z.eq_dec k 0) as [->|Hk0]; [cbn in *; lia|].
           specialize (Hmin ltac:(lia)).
           replace (2 ^ k) with (2 * 2 ^ (k - 1))
             by (rewrite <- Z.pow_succ_r by lia; f_equal; lia).
           lia.
        -- unfold contents. cbn [buf len].
           rewrite read_write_prefix by lia.
           rewrite resize_keeps by lia. reflexivity.
        -- reflexivity.
        -- right. split; [lia|]. exists (k + 1). rewrite <- Hp.
           replace (k + 1 - 1) with k by lia.
           repeat split; try lia.
           destruct (Z.eq_dec k 0) as [->|Hk0]; [cbn; lia|].
           specialize (Hmin ltac:(lia)).
           replace (2 ^ k) with (2 * 2 ^ (k - 1))
             by (rewrite <- Z.pow_succ_r by lia; f_equal; lia).
           lia.
      * eexists (-1), p, _. split; [reflexivity|]. left. repeat split; lia.
    + unfold bind, ret. eexists 0, _, tr. split; [reflexivity|]. right.
      cbn [buf len cap]. rewrite usize_small by lia.
      split; [reflexivity|]. split; [|split; [|split]].
      * unfold parser_ok. cbn [buf len cap].
        rewrite write_length by lia. repeat split; lia.
      * unfold contents. cbn [buf len].
        rewrite read_write_prefix by lia. reflexivity.
      * reflexivity.
      * left. split; lia.
Qed.

(** [parser_append] by cases: the bytes fit and no call is made; or
    they do not fit, the first doubling of the capacity that covers
    them is asked of [realloc], and the append fails exactly when
    [realloc] returns [NULL]. *)
Lemma parser_append_cases p data tr :
  parser_ok p ->
  len p + Z.of_nat (length data) <= GROW_MAX ->
  (len p + Z.of_nat (length data) <= cap p /\
   exists p',
     parser_append os p data tr = Ret (0, p') tr /\
     parser_ok p' /\ contents p' = contents p ++ data /\
     len p' = len p + Z.of_nat (length data) /\ cap p' = cap p) \/
  (cap p < len p + Z.of_nat (length data) /\
   exists j, 1 <= j /\
     cap p * 2 ^ (j - 1) < len p + Z.of_nat (length data) <= cap p * 2 ^ j /\
     ((os_realloc os tr (cap p * 2 ^ j) = None /\
       parser_append os p data tr
       = Ret (-1, p) (tr ++ [ERealloc (cap p * 2 ^ j) false])) \/
      (os_realloc os tr (cap p * 2 ^ j) <> None /\
       exists p',
         parser_append os p data tr
         = Ret (0, p') (tr ++ [ERealloc (cap p * 2 ^ j) true]) /\
         parser_ok p' /\ contents p' = contents p ++ data /\
         len p' = len p + Z.of_nat (length data) /\ cap p' = cap p * 2 ^ j))).
Proof.
  intros (Hlen & Hbuf & Hcap) Hmax.
  assert (HG : GROW_MAX = 2 ^ 63) by reflexivity.
  assert (HS : 2 ^ SIZE_BITS = 2 ^ 64) by reflexivity.
  set (n := Z.of_nat (length data)) in *.
  assert (Hn : usize n = n) by (apply usize_small; lia).
  assert (Hneed : usize (len p + n) = len p + n) by (apply usize_small; lia).
  unfold parser_append. fold n. rewrite Hn, Hneed.
  destruct (Z.eqb_spec n 0) as [Hz|Hnz].
  - left. split; [lia|]. exists p. split; [reflexivity|].
    assert (data = []) as -> by (destruct data; [reflexivity|cbn in n; lia]).
    rewrite app_nil_r. unfold parser_ok. repeat split; lia.
  - assert (Hread : Mem.read data 0 n = data).
    { unfold Mem.read. cbn [Z.to_nat skipn]. apply firstn_all2. lia. }
    rewrite Hread.
    destruct (Z.gtb_spec (len p + n) (cap p)) as [Hgrow|Hfit].
    + right. split; [lia|].
      destruct (grow_cap_spec (Z.to_nat SIZE_BITS) (cap p * 2) (len p + n))
        as (k & Hk & Hg & Hcov & Hmin); try lia.
      { change (Z.of_nat (Z.to_nat SIZE_BITS)) with 64. lia. }
      rewrite (usize_small (cap p * 2)) by lia. rewrite Hg.
      assert (Hp : cap p * 2 * 2 ^ k = cap p * 2 ^ (k + 1))
        by (rewrite Z.pow_add_r by lia; lia).
      assert (Hlow : cap p * 2 ^ k < len p + n).
      { destruct (Z.eq_dec k 0) as [->|Hk0]; [cbn; lia|].
        specialize (Hmin ltac:(lia)).
        replace (2 ^ k) with (2 * 2 ^ (k - 1))
          by (rewrite <- Z.pow_succ_r by lia; f_equal; lia).
        lia. }
      exists (k + 1). replace (k + 1 - 1) with k by lia. rewrite <- Hp.
      split; [lia|]. split; [lia|].
      unfold bind, realloc, ret.
      destruct (os_realloc os tr (cap p * 2 * 2 ^ k)) as [fill|].
      * right. split; [discriminate|]. eexists. split; [reflexivity|].
        cbn [buf len cap]. rewrite usize_small by lia.
        assert (Hrl : Z.of_nat (length (Mem.resize (buf p) (cap p * 2 * 2 ^ k) fill))
                      = cap p * 2 * 2 ^ k) by (apply resize_length; lia).
        split; [|split; [|split]].
        -- unfold parser_ok. cbn [buf len cap].
           rewrite write_length by lia. repeat split; lia.
        -- unfold contents. cbn [buf len].
           rewrite read_write_prefix by lia.
           rewrite resize_keeps by lia. reflexivity.
        -- reflexivity.
        -- reflexivity.
      * left. split; reflexivity.
    + left. split; [lia|]. unfold bind, ret. eexists. split; [reflexivity|].
      cbn [buf len cap]. rewrite usize_small by lia.
      split; [|split; [|split]].
      * unfold parser_ok. cbn [buf len cap].
        rewrite write_length by lia. repeat split; lia.
      * unfold contents. cbn [buf len].
        rewrite read_write_prefix by lia. reflexivity.
      * reflexivity.
      * reflexivity.
Qed.

(** What [parser_consume] does to a well-formed buffer. *)
Lemma parser_consume_spec p n :
  parser_ok p -> 0 <= n ->
  parser_ok (parser_consume p n) /\
  cap (parser_consume p n) = cap p /\
  (n >= len p -> len (parser_consume p n) = 0 /\ contents (parser_consume p n) = []) /\
  (n < len p ->
   len (parser_consume p n) = len p - n /\
   contents (parser_consume p n) = skipn (Z.to_nat n) (contents p)).
Proof.
  intros (Hlen & Hbuf & Hcap) Hn. unfold parser_consume.
  destruct (Z.geb_spec n (len p)) as [Hge|Hlt].
  - cbn [buf len cap].
    split; [unfold parser_ok; cbn [buf len cap]; lia|].
    split; [reflexivity|]. split; [|lia].
    intros _. split; reflexivity.
  - cbn [buf len cap]. split; [|split; [reflexivity|split; [lia|]]].
    + unfold parser_ok. cbn [buf len cap].
      unfold Mem.move. rewrite write_length.
      * repeat split; lia.
      * lia.
      * rewrite read_length by lia. lia.
    + intros _. split; [reflexivity|].
      unfold contents. cbn [buf len].
      rewrite read_move_front by lia.
      unfold Mem.read. cbn [Z.to_nat skipn].
      rewrite skipn_firstn_comm. f_equal. lia.
Qed.

End BufferFacts.

(** ** The Frame Buffer round trip and its invariant *)

Section BufferClaims.

Variable os : OS.

(** A run of appends stores the chunks in order until [realloc]
    returns [NULL]: the chunks appended before that are pending, and
    the chunk that did not fit and those after it are not. *)
Lemma append_each_cases chunks : forall p tr,
  parser_ok p ->
  len p + Z.of_nat (length (concat chunks)) <= GROW_MAX ->
  exists r p' tr' done rest,
    append_each os p chunks tr = Ret (r, p') tr' /\
    chunks = done ++ rest /\
    parser_ok p' /\
    contents p' = contents p ++ concat done /\
    len p' = len p + Z.of_nat (length (concat done)) /\
    ((r = 0 /\ rest = []) \/
     (r = -1 /\
      exists data rest' tr0 size,
        rest = data :: rest' /\
        cap p' < len p' + Z.of_nat (length data) /\
        tr' = tr0 ++ [ERealloc size false] /\
        os_realloc os tr0 size = None)).
Proof.
  induction chunks as [|data rest IH]; intros p tr Hok Hmax.
  - exists 0, p, tr, [], []. cbn [append_each concat length app].
    split; [reflexivity|]. split; [reflexivity|]. split; [exact Hok|].
    rewrite app_nil_r. split; [reflexivity|]. split; [lia|]. now left.
  - cbn [concat] in Hmax. rewrite length_app in Hmax.
    cbn [append_each]. unfold bind at 1.
    destruct (parser_append_cases os p data tr Hok ltac:(lia))
      as [(Hfit & p1 & Happ & Hok1 & Hc1 & Hl1 & _)
         |(Hgrow & j & _ & _ & [(Hnone & Happ)|(_ & p1 & Happ & Hok1 & Hc1 & Hl1 & _)])];
      rewrite Happ; cbn [fst snd Z.eqb].
    + destruct (IH p1 tr Hok1 ltac:(lia))
        as (r & p' & tr' & done & rest' & Hrun & Hch & Hok' & Hc' & Hl' & Hr).
      exists r, p', tr', (data :: done), rest'.
      split; [exact Hrun|]. split; [cbn [app]; now rewrite Hch|].
      split; [exact Hok'|]. cbn [concat].
      split; [now rewrite Hc', Hc1, app_assoc|].
      split; [rewrite Hl', Hl1, length_app; lia|]. exact Hr.
    + unfold ret. exists (-1), p, (tr ++ [ERealloc (cap p * 2 ^ j) false]), [], (data :: rest).
      split; [reflexivity|]. split; [reflexivity|]. split; [exact Hok|].
      cbn [concat length]. rewrite app_nil_r.
      split; [reflexivity|]. split; [lia|]. right. split; [reflexivity|].
      exists data, rest, tr, (cap p * 2 ^ j). now repeat split.
    + destruct (IH p1 (tr ++ [ERealloc (cap p * 2 ^ j) true]) Hok1 ltac:(lia))
        as (r & p' & tr' & done & rest' & Hrun & Hch & Hok' & Hc' & Hl' & Hr).
      exists r, p', tr', (data :: done), rest'.
      split; [exact Hrun|]. split; [cbn [app]; now rewrite Hch|].
      split; [exact Hok'|]. cbn [concat].
      split; [now rewrite Hc', Hc1, app_assoc|].
      split; [rewrite Hl', Hl1, length_app; lia|]. exact Hr.
Qed.

(** C3 (buffer round trip).  A run of appends on an empty Frame Buffer
    appends the chunks in order until [realloc] returns [NULL]: the
    pending bytes are the concatenation of the chunks [done] appended
    so far, a following [consume (k)] with [k] at most their number
    leaves exactly the suffix of that concatenation from offset [k] on,
    and a [consume (k)] with [k] at least the current length leaves the
    buffer empty.  The run returns [0] with every chunk appended, or
    [-1] at the first chunk that did not fit and for which [realloc]
    returned [NULL]; where [realloc] never does, it returns [0] and
    the round trip is over all the chunks. *)
Theorem buffer_round_trip (p0 : parser) (chunks : list (list byte)) (k : Z) (tr : trace) :
  parser_ok p0 -> len p0 = 0 ->
  Z.of_nat (length (concat chunks)) <= GROW_MAX ->
  0 <= k ->
  exists r p tr' done rest,
    append_each os p0 chunks tr = Ret (r, p) tr' /\
    chunks = done ++ rest /\
    contents p = concat done /\
    (k <= Z.of_nat (length (concat done)) ->
     contents (parser_consume p k) = skipn (Z.to_nat k) (concat done)) /\
    (k >= len p ->
     contents (parser_consume p k) = [] /\ len (parser_consume p k) = 0) /\
    ((r = 0 /\ rest = []) \/
     (r = -1 /\
      exists data rest' tr0 size,
        rest = data :: rest' /\
        cap p < len p + Z.of_nat (length data) /\
        tr' = tr0 ++ [ERealloc size false] /\
        os_realloc os tr0 size = None)) /\
    ((forall tr0 size, os_realloc os tr0 size <> None) ->
     r = 0 /\ done = chunks).
Proof.
  intros Hok Hempty Hmax Hk.
  destruct (append_each_cases chunks p0 tr Hok ltac:(lia))
    as (r & p & tr' & done & rest & Hrun & Hch & Hokp & Hc & Hl & Hr).
  exists r, p, tr', done, rest.
  assert (Hc0 : contents p0 = []).
  { unfold contents, Mem.read. now rewrite Hempty. }
  rewrite Hc0 in Hc. cbn [app] in Hc. rewrite Hempty in Hl.
  destruct (parser_consume_spec p k Hokp Hk) as (_ & _ & Hall & Hpart).
  split; [exact Hrun|]. split; [exact Hch|]. split; [exact Hc|].
  split; [|split; [|split; [exact Hr|]]].
  - intros Hle. destruct (Z.lt_ge_cases k (len p)) as [Hlt|Hge].
    + destruct (Hpart Hlt) as (_ & ->). now rewrite Hc.
    + destruct (Hall ltac:(lia)) as (_ & ->).
      rewrite skipn_all2; [reflexivity|lia].
  - intros Hge. destruct (Hall Hge) as (? & ?). now split.
  - intros Hnever.
    destruct Hr as [(-> & ->)|(_ & data & rest' & tr0 & size & _ & _ & _ & Hnone)].
    + split; [reflexivity|]. now rewrite app_nil_r in Hch.
    + now apply Hnever in Hnone.
Qed.

(** C9 (invariant of the Frame Buffer).  [length <= capacity] holds
    after an initialization that [malloc] granted, and is kept by
    append and consume.  An append that fits keeps the capacity and
    makes no call.  An append that does not fit asks [realloc] for the
    first doubling of the capacity that covers the required size; it
    fails, leaving the buffer as it was, exactly when [realloc] returns
    [NULL], and otherwise the capacity is that doubling.  No operation
    shrinks the capacity.  Sizes are bounded by [GROW_MAX], below which
    the [size_t] arithmetic of the doubling cannot wrap.  The
    operations are those the buffer has while it lives;
    [parser_deinit] ends its life. *)
Theorem frame_buffer_invariant (cap0 : Z) (p : parser) (data : list byte) (n : Z)
  (tr : trace) :
  0 < cap0 < 2 ^ SIZE_BITS ->
  parser_ok p ->
  len p + Z.of_nat (length data) <= GROW_MAX ->
  0 <= n ->
  ((os_malloc os tr cap0 = None /\
    parser_init os cap0 tr = Ret None (tr ++ [EMalloc cap0 false])) \/
   (os_malloc os tr cap0 <> None /\
    exists p0,
      parser_init os cap0 tr = Ret (Some p0) (tr ++ [EMalloc cap0 true]) /\
      parser_ok p0 /\ len p0 <= cap p0 /\ len p0 = 0 /\ cap p0 = cap0)) /\
  (exists r p' tr',
     parser_append os p data tr = Ret (r, p') tr' /\
     parser_ok p' /\ len p' <= cap p' /\ cap p <= cap p' /\
     ((len p + Z.of_nat (length data) <= cap p /\
       r = 0 /\ tr' = tr /\
       len p' = len p + Z.of_nat (length data) /\ cap p' = cap p) \/
      (cap p < len p + Z.of_nat (length data) /\
       exists j, 1 <= j /\
         cap p * 2 ^ (j - 1) < len p + Z.of_nat (length data) <= cap p * 2 ^ j /\
         ((os_realloc os tr (cap p * 2 ^ j) = None /\
           r = -1 /\ p' = p /\ tr' = tr ++ [ERealloc (cap p * 2 ^ j) false]) \/
          (os_realloc os tr (cap p * 2 ^ j) <> None /\
           r = 0 /\ tr' = tr ++ [ERealloc (cap p * 2 ^ j) true] /\
           len p' = len p + Z.of_nat (length data) /\
           cap p' = cap p * 2 ^ j))))) /\
  (len (parser_consume p n) <= cap (parser_consume p n) /\
   parser_ok (parser_consume p n) /\
   cap (parser_consume p n) = cap p).
Proof.
  intros Hcap0 Hok Hmax Hn. split; [|split].
  - unfold parser_init, bind, malloc, ret.
    destruct (os_malloc os tr cap0) as [fill|].
    + right. split; [discriminate|]. eexists. split; [reflexivity|].
      unfold parser_ok. cbn [buf len cap].
      rewrite resize_length by lia. repeat split; lia.
    + left. split; reflexivity.
  - destruct (parser_append_cases os p data tr Hok Hmax)
      as [(Hfit & p' & Happ & Hok' & _ & Hl & Hc)
         |(Hgrow & j & Hj & Hcov & [(Hnone & Happ)|(Hsome & p' & Happ & Hok' & _ & Hl & Hc)])].
    + exists 0, p', tr. split; [exact Happ|]. split; [exact Hok'|].
      split; [apply Hok'|]. split; [lia|]. left. now repeat split.
    + exists (-1), p, (tr ++ [ERealloc (cap p * 2 ^ j) false]).
      split; [exact Happ|]. split; [exact Hok|]. split; [apply Hok|]. split; [lia|].
      right. split; [exact Hgrow|]. exists j. split; [exact Hj|]. split; [exact Hcov|].
      left. now repeat split.
    + exists 0, p', (tr ++ [ERealloc (cap p * 2 ^ j) true]).
      split; [exact Happ|]. split; [exact Hok'|]. split; [apply Hok'|].
      split.
      { rewrite Hc. destruct Hok as (_ & _ & Hpos).
        assert (0 < 2 ^ j) by (apply Z.pow_pos_nonneg; lia). nia. }
      right. split; [exact Hgrow|]. exists j. split; [exact Hj|]. split; [exact Hcov|].
      right. now repeat split.
  - destruct (parser_consume_spec p n Hok Hn) as (Hok' & Hc & _).
    split; [apply Hok'|]. now split.
Qed.

End BufferClaims.

(** Side conditions on concrete buffers and sizes. *)
Ltac concrete :=
  repeat match goal with
         | |- _ /\ _ => split
         | |- parser_ok _ => unfold parser_ok
         end;
  try (vm_compute; intuition (congruence || lia)).

(** [parser_ok] asks for a capacity above zero, as [main] provides
    (8192): doubling a capacity of zero never covers anything. *)
Example zero_capacity_never_grows :
  parser_append os_calm {| buf := []; len := 0; cap := 0 |} [Byte.x2a] [] = Timeout.
Proof. vm_compute. reflexivity. Qed.

(** Two appends into a buffer of four cells: the second one doubles the
    capacity, and consuming two bytes leaves the last four. *)
Example round_trip_example :
  exists p tr',
    append_each os_calm parser4
      [[Byte.x61; Byte.x62; Byte.x63]; [Byte.x64; Byte.x65; Byte.x66]] []
    = Ret (0, p) tr' /\
    tr' = [ERealloc 8 true] /\ cap p = 8 /\
    contents (parser_consume p 2) = [Byte.x63; Byte.x64; Byte.x65; Byte.x66] /\
    contents (parser_consume p 9) = [].
Proof. eexists _, _. split; [vm_compute; reflexivity|]. concrete. Qed.

(** Out of memory the second of two appends is refused: the first
    chunk stays pending, the buffer keeps its four cells, and the run
    returns [-1]. *)
Example append_refused :
  append_each os_no_memory parser4
    [[Byte.x61; Byte.x62; Byte.x63]; [Byte.x64; Byte.x65; Byte.x66]] []
  = Ret (-1, {| buf := [Byte.x61; Byte.x62; Byte.x63; Byte.x00]; len := 3; cap := 4 |})
        [ERealloc 8 false].
Proof. vm_compute. reflexivity. Qed.

Lemma buffer_round_trip_witness :
  exists p tr',
    append_each os_calm parser4
      [[Byte.x61; Byte.x62; Byte.x63]; [Byte.x64; Byte.x65; Byte.x66]] []
    = Ret (0, p) tr' /\
    contents p = [Byte.x61; Byte.x62; Byte.x63; Byte.x64; Byte.x65; Byte.x66] /\
    contents (parser_consume p 2) = [Byte.x63; Byte.x64; Byte.x65; Byte.x66].
Proof.
  destruct (buffer_round_trip os_calm parser4
              [[Byte.x61; Byte.x62; Byte.x63]; [Byte.x64; Byte.x65; Byte.x66]] 2 [])
    as (r & p & tr' & done & rest & Hrun & _ & Hc & Hsuffix & _ & _ & Hcalm).
  - concrete.
  - reflexivity.
  - vm_compute. discriminate.
  - lia.
  - destruct Hcalm as [-> ->]; [intros tr0 size; discriminate|].
    exists p, tr'. split; [exact Hrun|]. split; [exact Hc|].
    apply Hsuffix. vm_compute. discriminate.
Defined.

Lemma frame_buffer_invariant_witness :
  (exists p0,
     parser_init os_calm 8192 [] = Ret (Some p0) [EMalloc 8192 true] /\
     len p0 = 0 /\ cap p0 = 8192) /\
  (exists p',
     parser_append os_calm parser4 (repeat Byte.x2a 9) [] = Ret (0, p') [ERealloc 16 true] /\
     len p' = 9 /\ cap p' = 16) /\
  cap (parser_consume parser4 1) = 4.
Proof.
  destruct (frame_buffer_invariant os_calm 8192 parser4 (repeat Byte.x2a 9) 1 [])
    as (Hinit & Happend & Hconsume).
  - vm_compute. split; reflexivity.
  - concrete.
  - vm_compute. discriminate.
  - lia.
  - split; [|split].
    + destruct Hinit as [[Hnone _]|[_ (p0 & Hrun & _ & _ & Hl & Hc)]]; [discriminate Hnone|].
      exists p0. now repeat split.
    + destruct Happend as (r & p' & tr' & Hrun & _ & _ & _ & Hcase).
      assert (Hneed : len parser4 + Z.of_nat (length (repeat Byte.x2a 9)) = 9)
        by reflexivity.
      rewrite Hneed in Hcase. change (cap parser4) with 4 in Hcase.
      destruct Hcase as [(Hfit & _)|(_ & j & Hj & Hcov & Hrealloc)]; [lia|].
      assert (j = 2) as ->.
      { destruct (Z.lt_trichotomy j 2) as [Hlt|[Heq|Hgt]]; [|exact Heq|].
        - assert (j = 1) as -> by lia. cbn in Hcov. lia.
        - assert (2 ^ 2 <= 2 ^ (j - 1)) by (apply Z.pow_le_mono_r; lia). lia. }
      change (4 * 2 ^ 2) with 16 in Hrealloc.
      destruct Hrealloc as [(Hnone & _)|(_ & -> & -> & Hl & Hc)]; [discriminate Hnone|].
      exists p'. now repeat split.
    + apply Hconsume.
Defined.

(** ** Exit code of the child *)

Lemma in_range_256 c : 0 <= c < 256 -> In c (map Z.of_nat (seq 0 256)).
Proof.
  intros H. apply in_map_iff. exists (Z.to_nat c).
  split; [lia|]. apply in_seq. lia.
Qed.

(** C4 (exit-code mapping).  The code is the reported exit value after
    a normal termination, [128 + signal] after a termination by a
    signal, and [1] for any other status.  With the macros of Linux: a
    normal exit with value [c] gives [c] (so [0] gives [0]), a death by
    signal [sig], with or without a core dump, gives [128 + sig] (so
    signal 9 gives 137), and a stopped child gives [1]. *)
Theorem exit_code_mapping (W : WaitStatus) (status : Z) :
  (WIFEXITED status = true -> child_exit_code status = WEXITSTATUS status) /\
  (WIFSIGNALED status = true -> child_exit_code status = 128 + WTERMSIG status) /\
  (WIFEXITED status = false -> WIFSIGNALED status = false ->
   child_exit_code status = 1) /\
  (forall c, 0 <= c < 256 ->
     child_exit_code (wait_macros := glibc_wait) (c * 256) = c) /\
  (forall sig core, 1 <= sig < 127 ->
     child_exit_code (wait_macros := glibc_wait) (sig + (if core : bool then 128 else 0))
     = 128 + sig) /\
  (forall sig, 0 <= sig < 256 ->
     child_exit_code (wait_macros := glibc_wait) (sig * 256 + 127) = 1) /\
  child_exit_code (wait_macros := glibc_wait) 0 = 0 /\
  child_exit_code (wait_macros := glibc_wait) 9 = 137.
Proof.
  unfold child_exit_code. repeat split.
  - intros ->. reflexivity.
  - intros Hs. destruct (WIFEXITED status) eqn:He.
    + apply wait_exclusive in He. congruence.
    + now rewrite Hs.
  - intros -> ->. reflexivity.
  - intros c Hc.
    assert (H : forallb (fun c => child_exit_code (wait_macros := glibc_wait) (c * 256) =? c)
                  (map Z.of_nat (seq 0 256)) = true) by (vm_compute; reflexivity).
    rewrite forallb_forall in H. apply Z.eqb_eq. apply H. now apply in_range_256.
  - intros sig core Hsig.
    assert (H : forallb (fun s =>
                  (s <? 1) || (127 <=? s) ||
                  ((child_exit_code (wait_macros := glibc_wait) (s + 128) =? 128 + s) &&
                   (child_exit_code (wait_macros := glibc_wait) (s + 0) =? 128 + s)))
                  (map Z.of_nat (seq 0 256)) = true) by (vm_compute; reflexivity).
    rewrite forallb_forall in H. specialize (H sig (in_range_256 sig ltac:(lia))).
    destruct (Z.ltb_spec sig 1); [lia|]. destruct (Z.leb_spec 127 sig); [lia|].
    cbn [orb] in H. apply andb_true_iff in H. destruct H as [Hcore Hplain].
    destruct core; apply Z.eqb_eq; assumption.
  - intros sig Hsig.
    assert (H : forallb (fun s => child_exit_code (wait_macros := glibc_wait) (s * 256 + 127) =? 1)
                  (map Z.of_nat (seq 0 256)) = true) by (vm_compute; reflexivity).
    rewrite forallb_forall in H. apply Z.eqb_eq. apply H. now apply in_range_256.
Qed.

Lemma exit_code_mapping_witness :
  child_exit_code (wait_macros := glibc_wait) 9 = 128 + WTERMSIG 9.
Proof.
  apply (proj1 (proj2 (exit_code_mapping glibc_wait 9))). reflexivity.
Defined.

(** ** Big-endian fields *)

Lemma lor_shiftl_add a b k :
  0 <= k -> 0 <= b < 2 ^ k -> Z.lor (Z.shiftl a k) b = a * 2 ^ k + b.
Proof.
  intros Hk Hb. rewrite <- Z.shiftl_mul_pow2 by lia.
  rewrite <- Z.add_lor_land.
  assert (Hdisj : Z.land (Z.shiftl a k) b = 0).
  { apply Z.bits_inj'. intros i Hi. rewrite Z.land_spec, Z.bits_0.
    destruct (Z.lt_ge_cases i k) as [Hlt|Hge].
    - now rewrite Z.shiftl_spec_low.
    - rewrite <- (Z.mod_small b (2 ^ k)) by lia.
      rewrite Z.mod_pow2_bits_high by lia. apply andb_false_r. }
  rewrite Hdisj. lia.
Qed.

Lemma lor_high_low c b k :
  0 <= k -> 0 <= b < 2 ^ k -> Z.lor (c * 2 ^ k) b = c * 2 ^ k + b.
Proof.
  intros Hk Hb. rewrite <- lor_shiftl_add by assumption.
  now rewrite Z.shiftl_mul_pow2.
Qed.

Section Fields.

Variable p : parser.

Let b1 := u8 (Mem.at_ (buf p) 1).
Let b2 := u8 (Mem.at_ (buf p) 2).
Let b3 := u8 (Mem.at_ (buf p) 3).
Let b4 := u8 (Mem.at_ (buf p) 4).

(** The length field is the big-endian number of bytes 1 to 4. *)
Lemma data_length_be :
  data_length p = b1 * 2 ^ 24 + b2 * 2 ^ 16 + b3 * 2 ^ 8 + b4.
Proof.
  pose proof (u8_range (Mem.at_ (buf p) 1)).
  pose proof (u8_range (Mem.at_ (buf p) 2)).
  pose proof (u8_range (Mem.at_ (buf p) 3)).
  pose proof (u8_range (Mem.at_ (buf p) 4)).
  unfold data_length. fold b1 b2 b3 b4.
  rewrite !Z.shiftl_mul_pow2 by lia.
  rewrite !u32_small by lia.
  rewrite (lor_high_low b1 (b2 * 2 ^ 16) 24) by lia.
  replace (b1 * 2 ^ 24 + b2 * 2 ^ 16) with ((b1 * 2 ^ 8 + b2) * 2 ^ 16) by lia.
  rewrite (lor_high_low _ (b3 * 2 ^ 8) 16) by lia.
  replace ((b1 * 2 ^ 8 + b2) * 2 ^ 16 + b3 * 2 ^ 8)
    with (((b1 * 2 ^ 8 + b2) * 2 ^ 8 + b3) * 2 ^ 8) by lia.
  rewrite (lor_high_low _ b4 8) by lia.
  lia.
Qed.

Lemma data_length_range : 0 <= data_length p < 2 ^ 32.
Proof.
  rewrite data_length_be.
  pose proof (u8_range (Mem.at_ (buf p) 1)).
  pose proof (u8_range (Mem.at_ (buf p) 2)).
  pose proof (u8_range (Mem.at_ (buf p) 3)).
  pose proof (u8_range (Mem.at_ (buf p) 4)).
  subst b1 b2 b3 b4. lia.
Qed.

(** Columns and rows are the big-endian numbers of bytes 1-2 and 3-4. *)
Lemma resize_cols_be : resize_cols p = b1 * 256 + b2.
Proof.
  pose proof (u8_range (Mem.at_ (buf p) 1)).
  pose proof (u8_range (Mem.at_ (buf p) 2)).
  unfold resize_cols. fold b1 b2.
  rewrite (u16_small b1) by lia.
  rewrite Z.shiftl_mul_pow2 by lia.
  rewrite (lor_high_low b1 b2 8) by lia.
  rewrite u16_small; lia.
Qed.

Lemma resize_rows_be : resize_rows p = b3 * 256 + b4.
Proof.
  pose proof (u8_range (Mem.at_ (buf p) 3)).
  pose proof (u8_range (Mem.at_ (buf p) 4)).
  unfold resize_rows. fold b3 b4.
  rewrite (u16_small b3) by lia.
  rewrite Z.shiftl_mul_pow2 by lia.
  rewrite (lor_high_low b3 b4 8) by lia.
  rewrite u16_small; lia.
Qed.

End Fields.

(** ** Signals *)

Lemma signals_fresh_any child_pid prev ext :
  signals_fresh child_pid None ext = true ->
  signals_fresh child_pid prev ext = true.
Proof.
  destruct ext as [|e ext]; [reflexivity|].
  destruct e; cbn [signals_fresh]; try (intros H; exact H);
    intros H; discriminate H.
Qed.

Lemma signals_fresh_app child_pid a b : forall prev,
  signals_fresh child_pid prev a = true ->
  signals_fresh child_pid None b = true ->
  signals_fresh child_pid prev (a ++ b) = true.
Proof.
  induction a as [|e a IH]; intros prev Ha Hb.
  - now apply signals_fresh_any.
  - destruct e; cbn [app signals_fresh] in *;
      try (apply IH; assumption);
      apply andb_true_iff in Ha; destruct Ha as [Ht Ha];
      rewrite Ht; cbn [andb]; apply IH; assumption.
Qed.

Section SignalFacts.

Variable os : OS.

(** What [signal_child] does, case by case. *)
Lemma signal_child_spec pid sig tr :
  let pgid := os_getpgid os tr pid in
  let tr1 := tr ++ [EGetpgid pid pgid] in
  (pgid < 0 -> signal_child os pid sig tr = Ret (-1) tr1) /\
  (0 <= pgid -> pgid = pid ->
   let r := os_killpg os tr1 pgid sig in
   signal_child os pid sig tr
   = Ret (if r <? 0 then -1 else 0) (tr1 ++ [EKillpg pgid sig r])) /\
  (0 <= pgid -> pgid <> pid ->
   let r := os_kill os tr1 pid sig in
   signal_child os pid sig tr
   = Ret (if r <? 0 then -1 else 0) (tr1 ++ [EKill pid sig r])).
Proof.
  intros pgid tr1. unfold signal_child, bind, getpgid, killpg, kill, ret.
  fold pgid. fold tr1. split; [|split].
  - intros H. destruct (Z.ltb_spec pgid 0); [reflexivity|lia].
  - intros H Heq. cbv zeta. destruct (Z.ltb_spec pgid 0); [lia|].
    destruct (Z.eqb_spec pgid pid); [|contradiction].
    now destruct (_ <? 0).
  - intros H Hne. cbv zeta. destruct (Z.ltb_spec pgid 0); [lia|].
    destruct (Z.eqb_spec pgid pid); [contradiction|].
    now destruct (_ <? 0).
Qed.

(** [signal_child] always returns, and the events it adds are a fresh
    query followed by at most one delivery to the target it selects. *)
Lemma signal_child_events pid sig tr :
  exists r ext,
    signal_child os pid sig tr = Ret r (tr ++ ext) /\
    signals_fresh pid None ext = true.
Proof.
  unfold signal_child, bind, getpgid, killpg, kill, ret.
  set (pgid := os_getpgid os tr pid).
  destruct (Z.ltb_spec pgid 0) as [Hneg|Hpos].
  - exists (-1), [EGetpgid pid pgid]. split; [reflexivity|].
    cbn [signals_fresh]. now destruct (pid =? pid).
  - destruct (Z.eqb_spec pgid pid) as [Heq|Hne].
    + set (r := os_killpg os _ pgid sig).
      exists (if r <? 0 then -1 else 0), [EGetpgid pid pgid; EKillpg pgid sig r].
      split; [rewrite <- app_assoc; now destruct (r <? 0)|].
      cbn [signals_fresh]. rewrite Z.eqb_refl.
      rewrite (proj2 (Z.leb_le 0 pgid) Hpos), (proj2 (Z.eqb_eq pgid pid) Heq).
      now rewrite Z.eqb_refl.
    + set (r := os_kill os _ pid sig).
      exists (if r <? 0 then -1 else 0), [EGetpgid pid pgid; EKill pid sig r].
      split; [rewrite <- app_assoc; now destruct (r <? 0)|].
      cbn [signals_fresh]. rewrite Z.eqb_refl.
      rewrite (proj2 (Z.leb_le 0 pgid) Hpos), (proj2 (Z.eqb_neq pgid pid) Hne).
      reflexivity.
Qed.

(** [write_all] adds nothing but [write] calls. *)
Lemma write_all_from_events child_pid fuel : forall fd mem len off tr r tr',
  write_all_from os fuel fd mem len off tr = Ret r tr' ->
  exists ext, tr' = tr ++ ext /\ signals_fresh child_pid None ext = true.
Proof.
  induction fuel as [|fuel IH]; intros fd mem len off tr r tr' H;
    cbn [write_all_from] in H; destruct (off <? len).
  - discriminate H.
  - inversion H; subst. exists []. now rewrite app_nil_r.
  - unfold bind, write in H. cbv zeta in H.
    set (e := EWrite fd _ _ _) in H.
    assert (Hnext : forall off', write_all_from os fuel fd mem len off' (tr ++ [e])
                                 = Ret r tr' ->
                    exists ext, tr' = tr ++ ext /\ signals_fresh child_pid None ext = true).
    { intros off' H'. apply IH in H'. destruct H' as (ext & -> & Hf).
      exists (e :: ext). rewrite <- app_assoc. split; [reflexivity|].
      subst e. cbn [signals_fresh]. exact Hf. }
    destruct (os_write os tr fd _ _) as [n|errno].
    + eapply Hnext, H.
    + destruct (errno =? EINTR).
      * eapply Hnext, H.
      * inversion H; subst. exists [e]. split; [reflexivity|]. subst e. reflexivity.
  - inversion H; subst. exists []. now rewrite app_nil_r.
Qed.

End SignalFacts.

(** ** Frame Decoder *)

Lemma contents_length p :
  parser_ok p -> Z.of_nat (length (contents p)) = len p.
Proof.
  intros (Hlen & Hbuf & _). unfold contents. apply read_length; lia.
Qed.

(** Consuming [n <= len] bytes drops them from the front. *)
Lemma parser_consume_front p n :
  parser_ok p -> 0 <= n <= len p ->
  len (parser_consume p n) = len p - n /\
  contents (parser_consume p n) = skipn (Z.to_nat n) (contents p).
Proof.
  intros Hok Hn.
  destruct (parser_consume_spec p n Hok) as (_ & _ & Hall & Hpart); [lia|].
  destruct (Z.lt_ge_cases n (len p)) as [Hlt|Hge].
  - now apply Hpart.
  - destruct (Hall ltac:(lia)) as (-> & ->). split; [lia|].
    rewrite skipn_all2; [reflexivity|].
    pose proof (contents_length p Hok). lia.
Qed.

Section DecoderFacts.

Variable os : OS.

Lemma frame_iteration_events fuel p master_fd child_pid tr it tr' :
  frame_iteration os fuel p master_fd child_pid tr = Ret it tr' ->
  exists ext, tr' = tr ++ ext /\ signals_fresh child_pid None ext = true.
Proof.
  assert (Hnil : forall (x : iter parser), Ret x tr = Ret it tr' ->
                 exists ext, tr' = tr ++ ext /\ signals_fresh child_pid None ext = true).
  { intros x [= _ <-]. exists []. now rewrite app_nil_r. }
  unfold frame_iteration.
  destruct (_ =? OPCODE_DATA); [|destruct (_ =? OPCODE_RESIZE); [|destruct (_ =? OPCODE_CLOSE)]].
  - destruct (len p <? 5); [apply Hnil|].
    destruct (len p <? _); [apply Hnil|].
    unfold bind. destruct (data_length p >? 0).
    + unfold write_all.
      destruct (write_all_from _ _ _ _ _ _ _) as [w tr1|] eqn:Hw; [|discriminate].
      apply (write_all_from_events os child_pid) in Hw. destruct Hw as (ext & -> & Hf).
      destruct (negb (w =? 0)); unfold ret; intros [= _ <-]; now exists ext.
    + unfold ret at 1. destruct (negb (0 =? 0)); apply Hnil.
  - destruct (len p <? 5); [apply Hnil|].
    unfold bind, ioctl_TIOCSWINSZ. cbv zeta.
    set (e := EIoctlWinsz _ _ _ _).
    destruct (negb (_ =? 0)).
    + unfold ret. intros [= _ <-]. now exists [e].
    + destruct (signal_child_events os child_pid SIGWINCH (tr ++ [e]))
        as (rs & ext & -> & Hf).
      unfold ret. intros [= _ <-]. exists (e :: ext).
      rewrite <- app_assoc. split; [reflexivity|]. subst e. exact Hf.
  - unfold bind.
    destruct (signal_child_events os child_pid SIGHUP tr) as (rs & ext & -> & Hf).
    unfold ret. intros [= _ <-]. now exists ext.
  - apply Hnil.
Qed.

Lemma parse_and_apply_frames_events master_fd child_pid fuel : forall p tr x tr',
  parse_and_apply_frames os fuel p master_fd child_pid tr = Ret x tr' ->
  exists ext, tr' = tr ++ ext /\ signals_fresh child_pid None ext = true.
Proof.
  induction fuel as [|fuel IH]; intros p tr x tr' H;
    cbn [parse_and_apply_frames] in H; destruct (len p >? 0).
  - discriminate H.
  - inversion H; subst. exists []. now rewrite app_nil_r.
  - unfold bind in H.
    destruct (frame_iteration os fuel p master_fd child_pid tr) as [it tr1|] eqn:Hit;
      [|discriminate].
    apply frame_iteration_events in Hit. destruct Hit as (ext1 & -> & Hf1).
    destruct it as [p'|r].
    + apply IH in H. destruct H as (ext2 & -> & Hf2).
      exists (ext1 ++ ext2). rewrite app_assoc. split; [reflexivity|].
      now apply signals_fresh_app.
    + inversion H; subst. now exists ext1.
  - inversion H; subst. exists []. now rewrite app_nil_r.
Qed.

(** *** Data frames whose length field does not wrap [5 + n] *)

(** A Data frame is left alone until it is complete, and a complete one
    has its payload, bytes 5 to [5 + n] of the buffer, handed to
    [write_all] before [5 + n] bytes are consumed. *)
Lemma data_frame_spec fuel p master_fd child_pid tr :
  parser_ok p ->
  u8 (Mem.at_ (buf p) 0) = OPCODE_DATA ->
  (len p < 5 ->
   frame_iteration os fuel p master_fd child_pid tr = Ret (Return 0) tr) /\
  (5 <= len p -> 5 + data_length p < 2 ^ 32 ->
   (len p < 5 + data_length p ->
    frame_iteration os fuel p master_fd child_pid tr = Ret (Return 0) tr) /\
   (5 + data_length p <= len p ->
    Mem.read (Mem.offset (buf p) 5) 0 (data_length p)
    = Mem.read (contents p) 5 (data_length p) /\
    len (parser_consume p (5 + data_length p)) = len p - (5 + data_length p) /\
    contents (parser_consume p (5 + data_length p))
    = skipn (Z.to_nat (5 + data_length p)) (contents p) /\
    frame_iteration os fuel p master_fd child_pid tr
    = (w <- (if data_length p >? 0
             then write_all os fuel master_fd (Mem.offset (buf p) 5) (data_length p)
             else ret 0) ;;
       if negb (w =? 0) then ret (Return (-1))
       else ret (Next (parser_consume p (5 + data_length p)))) tr)).
Proof.
  intros Hok Hop. pose proof (data_length_range p) as Hn.
  unfold frame_iteration. rewrite Hop. cbn [Z.eqb OPCODE_DATA Pos.eqb].
  split.
  - intros Hshort. destruct (Z.ltb_spec (len p) 5); [reflexivity|lia].
  - intros Hhdr Hnowrap.
    destruct (Z.ltb_spec (len p) 5); [lia|].
    rewrite (u32_small (5 + data_length p)) by lia.
    assert (H64 : 2 ^ 32 < 2 ^ SIZE_BITS) by (vm_compute; reflexivity).
    rewrite (usize_small (5 + data_length p)) by lia.
    rewrite (usize_small (data_length p)) by lia.
    split.
    + intros Hpart. destruct (Z.ltb_spec (len p) (5 + data_length p)); [reflexivity|lia].
    + intros Hfull. destruct (Z.ltb_spec (len p) (5 + data_length p)); [lia|].
      destruct (parser_consume_front p (5 + data_length p) Hok) as (Hl & Hc); [lia|].
      split; [|split; [exact Hl|split; [exact Hc|reflexivity]]].
      unfold Mem.offset. fold (Mem.read (buf p) 5 (data_length p)).
      unfold contents.
      replace (Mem.read (skipn (Z.to_nat 5) (buf p)) 0 (data_length p))
        with (Mem.read (buf p) 5 (data_length p)).
      * apply read_read; lia.
      * unfold Mem.read. cbn [Z.to_nat skipn]. reflexivity.
Qed.

(** C5 (signal delivery).  [signal_child] first asks for the process
    group of the child, and what it does next follows that answer: on
    a failed query it returns [-1] and signals nobody; when the child
    leads its group it signals the group; otherwise it signals the
    child alone; a failed delivery returns [-1] and nothing more is
    sent.  In every run of the decoder each signal comes right after
    such a query: the answer is never kept from one delivery to the
    next. *)
Theorem signal_delivery (pid sig : Z) (tr : trace) :
  let pgid := os_getpgid os tr pid in
  let tr1 := tr ++ [EGetpgid pid pgid] in
  (pgid < 0 -> signal_child os pid sig tr = Ret (-1) tr1) /\
  (0 <= pgid -> pgid = pid ->
   let r := os_killpg os tr1 pgid sig in
   signal_child os pid sig tr
   = Ret (if r <? 0 then -1 else 0) (tr1 ++ [EKillpg pgid sig r])) /\
  (0 <= pgid -> pgid <> pid ->
   let r := os_kill os tr1 pid sig in
   signal_child os pid sig tr
   = Ret (if r <? 0 then -1 else 0) (tr1 ++ [EKill pid sig r])) /\
  (forall fuel p master_fd x tr',
     parse_and_apply_frames os fuel p master_fd pid tr = Ret x tr' ->
     exists ext, tr' = tr ++ ext /\ signals_fresh pid None ext = true).
Proof.
  intros pgid tr1.
  destruct (signal_child_spec os pid sig tr) as (H1 & H2 & H3).
  split; [exact H1|]. split; [exact H2|]. split; [exact H3|].
  intros fuel p master_fd x tr' H.
  eapply parse_and_apply_frames_events, H.
Qed.

(** C6 (Resize).  Columns and rows are the big-endian numbers in bytes
    1-2 and 3-4 (80 and 24 for [02 00 50 00 18]) and are passed to the
    window-size [ioctl].  When it fails the decoder returns [-1], no
    signal is sent, nothing is consumed, and the round of the session
    loop that ran the decoder leaves with exit code [1].  When it
    succeeds the child is signalled with [SIGWINCH] and, whatever
    [signal_child] returns, five bytes are consumed and decoding goes
    on. *)
Theorem resize_frame (fuel : nat) (p : parser) (master_fd child_pid : Z) (tr : trace) :
  parser_ok p ->
  u8 (Mem.at_ (buf p) 0) = OPCODE_RESIZE ->
  5 <= len p ->
  let cols := u8 (Mem.at_ (buf p) 1) * 256 + u8 (Mem.at_ (buf p) 2) in
  let rows := u8 (Mem.at_ (buf p) 3) * 256 + u8 (Mem.at_ (buf p) 4) in
  let r := os_ioctl_winsz os tr master_fd cols rows in
  let tr1 := tr ++ [EIoctlWinsz master_fd cols rows r] in
  resize_cols (parser_of resize_80x24) = 80 /\
  resize_rows (parser_of resize_80x24) = 24 /\
  (r <> 0 ->
   frame_iteration os fuel p master_fd child_pid tr = Ret (Return (-1)) tr1 /\
   parse_and_apply_frames os (S fuel) p master_fd child_pid tr = Ret (-1, p) tr1 /\
   forall s data tr0,
     stdin_open s = true ->
     os_read os tr0 STDIN_FILENO IO_BUF_SIZE = SysOk data ->
     data <> [] ->
     parser_append os (sess_parser s) data
       (tr0 ++ [ERead STDIN_FILENO IO_BUF_SIZE (SysOk data)]) = Ret (0, p) tr ->
     stdin_phase os (S fuel) master_fd child_pid s true tr0
     = Ret (Return 1) (tr1 ++ [EFree; EClose master_fd])) /\
  (r = 0 ->
   exists rs tr2,
     signal_child os child_pid SIGWINCH tr1 = Ret rs tr2 /\
     frame_iteration os fuel p master_fd child_pid tr
     = Ret (Next (parser_consume p 5)) tr2 /\
     len (parser_consume p 5) = len p - 5 /\
     contents (parser_consume p 5) = skipn 5 (contents p)).
Proof.
  intros Hok Hop Hlen cols rows r tr1.
  split; [reflexivity|]. split; [reflexivity|].
  assert (Hit : frame_iteration os fuel p master_fd child_pid tr
                = (if negb (r =? 0) then ret (Return (-1))
                   else signal_child os child_pid SIGWINCH ;;;
                        ret (Next (parser_consume p 5))) tr1).
  { unfold frame_iteration. rewrite Hop.
    cbn [Z.eqb OPCODE_DATA OPCODE_RESIZE Pos.eqb].
    destruct (Z.ltb_spec (len p) 5); [lia|].
    rewrite resize_cols_be, resize_rows_be. reflexivity. }
  split.
  - intros Hr. apply Z.eqb_neq in Hr. rewrite Hr in Hit. cbn [negb] in Hit.
    split; [exact Hit|]. split.
    + cbn [parse_and_apply_frames].
      destruct (Z.gtb_spec (len p) 0); [|lia].
      unfold bind. rewrite Hit. reflexivity.
    + intros s data tr0 Hopen Hread Hdata Happ.
      unfold stdin_phase. rewrite Hopen. cbn [andb].
      unfold bind at 1. unfold read. cbv zeta. rewrite Hread.
      destruct data as [|b data]; [contradiction|].
      cbn [length]. rewrite Nat2Z.inj_succ.
      destruct (Z.eqb_spec (Z.succ (Z.of_nat (length data))) 0); [lia|].
      unfold bind at 1. rewrite Happ. cbn [fst snd Z.eqb negb].
      unfold bind at 1. cbn [parse_and_apply_frames].
      destruct (Z.gtb_spec (len p) 0); [|lia].
      unfold bind at 1. rewrite Hit. unfold ret at 1. cbn [fst snd Z.eqb negb].
      unfold leave, parser_deinit, free, close, log, bind, ret.
      cbn [fst snd Z.eqb negb]. rewrite <- app_assoc. reflexivity.
  - intros Hr. apply Z.eqb_eq in Hr. rewrite Hr in Hit. cbn [negb] in Hit.
    destruct (signal_child_events os child_pid SIGWINCH tr1) as (rs & ext & Hs & _).
    exists rs, (tr1 ++ ext). split; [exact Hs|].
    destruct (parser_consume_front p 5 Hok) as (Hl & Hc); [lia|].
    split; [|split; [exact Hl|exact Hc]].
    rewrite Hit. unfold bind. rewrite Hs. reflexivity.
Qed.

(** C7 (noise).  A first byte other than 1, 2 and 3 is dropped alone:
    one byte is consumed, no call is made, and decoding goes on with
    the next byte.  On [FF FF 03] the two bytes are dropped one after
    the other and the [03] that follows is decoded as Close, which
    hangs up the child and empties the buffer. *)
Theorem noise_skipping (fuel : nat) (p : parser) (master_fd child_pid : Z) (tr : trace) :
  parser_ok p ->
  0 < len p ->
  u8 (Mem.at_ (buf p) 0) <> OPCODE_DATA ->
  u8 (Mem.at_ (buf p) 0) <> OPCODE_RESIZE ->
  u8 (Mem.at_ (buf p) 0) <> OPCODE_CLOSE ->
  frame_iteration os fuel p master_fd child_pid tr = Ret (Next (parser_consume p 1)) tr /\
  len (parser_consume p 1) = len p - 1 /\
  contents (parser_consume p 1) = skipn 1 (contents p) /\
  parse_and_apply_frames os (S fuel) p master_fd child_pid tr
  = parse_and_apply_frames os fuel (parser_consume p 1) master_fd child_pid tr /\
  (let p0 := parser_of noise_then_close in
   let p1 := parser_consume p0 1 in
   let p2 := parser_consume p1 1 in
   let p3 := parser_consume p2 1 in
   frame_iteration os fuel p0 master_fd child_pid tr = Ret (Next p1) tr /\
   contents p1 = [Byte.xff; Byte.x03] /\
   frame_iteration os fuel p1 master_fd child_pid tr = Ret (Next p2) tr /\
   contents p2 = [Byte.x03] /\
   frame_iteration os fuel p2 master_fd child_pid tr
   = (signal_child os child_pid SIGHUP ;;; ret (Next p3)) tr /\
   contents p3 = [] /\
   parse_and_apply_frames os 3 p0 master_fd child_pid tr
   = (signal_child os child_pid SIGHUP ;;; ret (0, p3)) tr).
Proof.
  intros Hok Hlen Hd Hr Hc.
  assert (Hit : frame_iteration os fuel p master_fd child_pid tr
                = Ret (Next (parser_consume p 1)) tr).
  { unfold frame_iteration.
    destruct (Z.eqb_spec (u8 (Mem.at_ (buf p) 0)) OPCODE_DATA); [contradiction|].
    destruct (Z.eqb_spec (u8 (Mem.at_ (buf p) 0)) OPCODE_RESIZE); [contradiction|].
    destruct (Z.eqb_spec (u8 (Mem.at_ (buf p) 0)) OPCODE_CLOSE); [contradiction|].
    reflexivity. }
  destruct (parser_consume_front p 1 Hok) as (Hl & Hcont); [lia|].
  split; [exact Hit|]. split; [exact Hl|]. split; [exact Hcont|]. split.
  - cbn [parse_and_apply_frames].
    destruct (Z.gtb_spec (len p) 0); [|lia].
    unfold bind. rewrite Hit. reflexivity.
  - intros p0 p1 p2 p3.
    assert (S1 : forall f t, frame_iteration os f p0 master_fd child_pid t
                             = Ret (Next p1) t) by reflexivity.
    assert (S2 : forall f t, frame_iteration os f p1 master_fd child_pid t
                             = Ret (Next p2) t) by reflexivity.
    assert (S3 : forall f t, frame_iteration os f p2 master_fd child_pid t
                             = (signal_child os child_pid SIGHUP ;;; ret (Next p3)) t)
      by reflexivity.
    split; [apply S1|]. split; [reflexivity|].
    split; [apply S2|]. split; [reflexivity|].
    split; [apply S3|]. split; [reflexivity|].
    change (parse_and_apply_frames os 3 p0 master_fd child_pid tr)
      with ((it <- frame_iteration os 2 p0 master_fd child_pid ;;
             match it with
             | Next p' => parse_and_apply_frames os 2 p' master_fd child_pid
             | Return r => ret (r, p0)
             end) tr).
    unfold bind at 1. rewrite S1.
    change (parse_and_apply_frames os 2 p1 master_fd child_pid tr)
      with ((it <- frame_iteration os 1 p1 master_fd child_pid ;;
             match it with
             | Next p' => parse_and_apply_frames os 1 p' master_fd child_pid
             | Return r => ret (r, p1)
             end) tr).
    unfold bind at 1. rewrite S2.
    change (parse_and_apply_frames os 1 p2 master_fd child_pid tr)
      with ((it <- frame_iteration os 0 p2 master_fd child_pid ;;
             match it with
             | Next p' => parse_and_apply_frames os 0 p' master_fd child_pid
             | Return r => ret (r, p2)
             end) tr).
    unfold bind at 1. rewrite S3. unfold bind.
    destruct (signal_child os child_pid SIGHUP tr); reflexivity.
Qed.

End DecoderFacts.

(** A Resize and a Close in one buffer while the child changes group in
    between: the group is signalled first, the child alone afterwards. *)
Example pgid_resolved_at_each_delivery :
  exists p,
    parse_and_apply_frames os_regroup 2 (parser_of (resize_80x24 ++ [Byte.x03])) 3 100 []
    = Ret (0, p)
        [EIoctlWinsz 3 80 24 0;
         EGetpgid 100 100; EKillpg 100 SIGWINCH 0;
         EGetpgid 100 7; EKill 100 SIGHUP 0] /\
    contents p = [].
Proof. eexists. split; vm_compute; reflexivity. Qed.

Lemma signal_delivery_witness :
  exists ext,
    [EIoctlWinsz 3 80 24 0;
     EGetpgid 100 100; EKillpg 100 SIGWINCH 0;
     EGetpgid 100 7; EKill 100 SIGHUP 0] = [] ++ ext /\
    signals_fresh 100 None ext = true.
Proof.
  eapply (proj2 (proj2 (proj2 (signal_delivery os_regroup 100 SIGHUP [])))
            2%nat (parser_of (resize_80x24 ++ [Byte.x03])) 3).
  vm_compute. reflexivity.
Defined.

Lemma resize_frame_witness :
  parser_ok (parser_of resize_80x24) /\
  u8 (Mem.at_ (buf (parser_of resize_80x24)) 0) = OPCODE_RESIZE /\
  5 <= len (parser_of resize_80x24) /\
  frame_iteration os_winsz_fails 1 (parser_of resize_80x24) 3 100 []
  = Ret (Return (-1)) [EIoctlWinsz 3 80 24 (-1)].
Proof.
  assert (Hok : parser_ok (parser_of resize_80x24)) by concrete.
  assert (Hop : u8 (Mem.at_ (buf (parser_of resize_80x24)) 0) = OPCODE_RESIZE)
    by reflexivity.
  assert (Hlen : 5 <= len (parser_of resize_80x24)) by (vm_compute; discriminate).
  split; [exact Hok|]. split; [exact Hop|]. split; [exact Hlen|].
  apply (proj1 (proj1 (proj2 (proj2
           (resize_frame os_winsz_fails 1 (parser_of resize_80x24) 3 100 []
              Hok Hop Hlen)))
         ltac:(vm_compute; discriminate))).
Defined.

(** The same failure seen from the session loop: the round that reads
    the Resize frame frees the buffer, closes the pseudoterminal and
    returns [1]. *)
Example resize_failure_ends_session :
  session_iteration os_winsz_fails 2 3 100
    {| sess_parser := parser4; stdin_open := true |} []
  = Ret (Return 1)
      [EWaitpid 100 true 0 None;
       ESelect true (SysOk (true, false));
       ERead STDIN_FILENO IO_BUF_SIZE (SysOk resize_80x24);
       ERealloc 8 true;
       EIoctlWinsz 3 80 24 (-1);
       EFree; EClose 3].
Proof. vm_compute. reflexivity. Qed.

Lemma noise_skipping_witness :
  parser_ok (parser_of noise_then_close) /\
  0 < len (parser_of noise_then_close) /\
  u8 (Mem.at_ (buf (parser_of noise_then_close)) 0) = 255 /\
  frame_iteration os_calm 0 (parser_of noise_then_close) 3 100 []
  = Ret (Next (parser_consume (parser_of noise_then_close) 1)) [].
Proof.
  assert (Hok : parser_ok (parser_of noise_then_close)) by concrete.
  split; [exact Hok|]. split; [reflexivity|]. split; [reflexivity|].
  apply (noise_skipping os_calm 0 (parser_of noise_then_close) 3 100 [] Hok);
    vm_compute; discriminate || reflexivity.
Defined.

(** ** Session Loop *)

Section SessionFacts.

Variable os : OS.
Context {wait_macros : WaitStatus}.

(** C2 (child seen terminated by the poll), as the code has it.  When
    the non-blocking [waitpid] at the top of a round reports the child,
    the round frees the Frame Buffer, closes the pseudoterminal and
    returns the mapped exit code at once: it neither reads the
    pseudoterminal nor writes to the controller output, and it does not
    wait for a read to meet end-of-stream. *)
Theorem exit_on_poll (fuel : nat) (master_fd pid : Z) (s : session) (tr : trace) :
  fst (os_waitpid os tr pid true) = pid ->
  let st := snd (os_waitpid os tr pid true) in
  let code := child_exit_code (match st with Some v => v | None => 0 end) in
  let tr' := tr ++ [EWaitpid pid true pid st; EFree; EClose master_fd] in
  session_iteration os fuel master_fd pid s tr = Ret (Return code) tr' /\
  session_loop os (S fuel) master_fd pid s tr = Ret code tr' /\
  relayed (skipn (length tr) tr') = [].
Proof.
  intros Hw st code tr'.
  assert (Hit : session_iteration os fuel master_fd pid s tr = Ret (Return code) tr').
  { unfold session_iteration, bind at 1, waitpid. cbv zeta.
    rewrite Hw, Z.eqb_refl.
    unfold leave, parser_deinit, free, close, log, bind, ret.
    subst tr'. rewrite <- !app_assoc. reflexivity. }
  split; [exact Hit|]. split.
  - cbn [session_loop]. unfold bind. rewrite Hit. reflexivity.
  - subst tr'. rewrite skipn_app, skipn_all, Nat.sub_diag. reflexivity.
Qed.


End SessionFacts.

(** C2 as the specification words it fails: the round of
    [os_child_gone] leaves with code 137 and relays nothing, though
    two bytes of output were waiting in the pseudoterminal. *)
Lemma exit_without_drain :
  ~ drains_before_exit os_child_gone 2 3 100 session4 [].
Proof.
  intros Hclaim.
  destruct (Hclaim eq_refl 137 [EWaitpid 100 true 100 (Some 9); EFree; EClose 3] eq_refl)
    as (rest & Hrest).
  vm_compute in Hrest. discriminate Hrest.
Qed.

Lemma exit_on_poll_witness :
  fst (os_waitpid os_child_gone [] 100 true) = 100 /\
  session_iteration os_child_gone 2 3 100 session4 []
  = Ret (Return 137) [EWaitpid 100 true 100 (Some 9); EFree; EClose 3].
Proof.
  split; [reflexivity|].
  exact (proj1 (exit_on_poll os_child_gone (wait_macros := glibc_wait)
                  2 3 100 session4 [] eq_refl)).
Defined.

(** With the controller gone the output of the child still reaches the
    controller output, and the loop goes on with [stdin_open] clear. *)
Example relay_after_stdin_eof :
  session_iteration os_stdin_eof 2 3 100 session4 []
  = Ret (Next {| sess_parser := parser4; stdin_open := false |})
      [EWaitpid 100 true 0 None;
       ESelect true (SysOk (true, true));
       ERead STDIN_FILENO IO_BUF_SIZE (SysOk []);
       ERead 3 IO_BUF_SIZE (SysOk [Byte.x68; Byte.x69]);
       EWrite STDOUT_FILENO [Byte.x68; Byte.x69] 2 (SysOk 2)].
Proof. vm_compute. reflexivity. Qed.


(** ** What [write_all] puts on the descriptor *)

Section WriteFacts.

Variable os : OS.
Hypothesis sane : os_write_sane os.

Lemma firstn_plus (l : list byte) : forall a b : nat,
  firstn a l ++ firstn b (skipn a l) = firstn (a + b) l.
Proof.
  induction l as [|x l IH]; intros a b.
  - now rewrite skipn_nil, !firstn_nil.
  - destruct a as [|a]; [reflexivity|].
    cbn [firstn skipn Nat.add app]. f_equal. apply IH.
Qed.

Lemma read_app mem off a b :
  0 <= off -> 0 <= a -> 0 <= b ->
  Mem.read mem off a ++ Mem.read mem (off + a) b = Mem.read mem off (a + b).
Proof.
  intros Hoff Ha Hb. unfold Mem.read.
  rewrite !Z2Nat.inj_add by lia.
  rewrite (Nat.add_comm (Z.to_nat off)), <- skipn_skipn.
  apply firstn_plus.
Qed.

(** The bytes taken by the [write] calls of [write_all] are a prefix of
    the range it was given, and the whole range when it returns [0]. *)
Lemma write_all_from_spec fuel : forall fd mem len off tr w tr',
  0 <= off <= len -> len < 2 ^ SIZE_BITS ->
  write_all_from os fuel fd mem len off tr = Ret w tr' ->
  exists ext k,
    tr' = tr ++ ext /\ 0 <= k <= len - off /\
    written fd ext = Mem.read mem off k /\
    (w = 0 \/ w = -1) /\
    (w = 0 -> k = len - off).
Proof.
  induction fuel as [|fuel IH]; intros fd mem len off tr w tr' Hoff Hlen H;
    cbn [write_all_from] in H; destruct (Z.ltb_spec off len) as [Hlt|Hge].
  - discriminate H.
  - inversion H; subst. exists [], 0. rewrite app_nil_r.
    split; [reflexivity|]. split; [lia|]. split; [reflexivity|].
    split; [now left|lia].
  - unfold bind, write in H. cbv zeta in H.
    set (data := Mem.read mem off (len - off)) in H.
    destruct (os_write os tr fd data (len - off)) as [n|errno] eqn:Hw.
    + apply sane in Hw.
      rewrite usize_small in H by lia.
      apply IH in H; [|lia|lia].
      destruct H as (ext & k & -> & Hk & Hwr & Hcode & Hall).
      exists (EWrite fd data (len - off) (SysOk n) :: ext), (n + k).
      rewrite <- app_assoc. split; [reflexivity|]. split; [lia|].
      split; [|split; [exact Hcode|intros Hz; specialize (Hall Hz); lia]].
      cbn [written flat_map]. rewrite Z.eqb_refl.
      change (flat_map _ ext) with (written fd ext). rewrite Hwr.
      rewrite <- read_app by lia. f_equal.
      subst data. unfold Mem.read. rewrite firstn_firstn. f_equal. lia.
    + destruct (errno =? EINTR).
      * apply IH in H; [|lia|lia].
        destruct H as (ext & k & -> & Hk & Hwr & Hcode & Hall).
        exists (EWrite fd data (len - off) (SysErr errno) :: ext), k.
        rewrite <- app_assoc. split; [reflexivity|]. split; [lia|].
        split; [exact Hwr|]. split; assumption.
      * inversion H; subst.
        exists [EWrite fd data (len - off) (SysErr errno)], 0.
        split; [reflexivity|]. split; [lia|]. split; [reflexivity|].
        split; [now right|discriminate].
  - inversion H; subst. exists [], 0. rewrite app_nil_r.
    split; [reflexivity|]. split; [lia|]. split; [reflexivity|].
    split; [now left|lia].
Qed.

(** A complete Data frame whose length does not wrap puts exactly its
    payload, bytes 5 to [5 + n] of the buffer, on the pseudoterminal
    before its [5 + n] bytes are consumed. *)
Lemma data_frame_written fuel p master_fd child_pid tr p' tr' :
  parser_ok p ->
  u8 (Mem.at_ (buf p) 0) = OPCODE_DATA ->
  5 + data_length p < 2 ^ 32 ->
  5 + data_length p <= len p ->
  frame_iteration os fuel p master_fd child_pid tr = Ret (Next p') tr' ->
  p' = parser_consume p (5 + data_length p) /\
  exists ext,
    tr' = tr ++ ext /\
    written master_fd ext = Mem.read (contents p) 5 (data_length p).
Proof.
  intros Hok Hop Hnowrap Hfull H.
  pose proof (data_length_range p) as Hn.
  destruct (data_frame_spec os fuel p master_fd child_pid tr Hok Hop) as (_ & Hspec).
  destruct Hspec as (_ & Hspec); [lia|lia|].
  destruct (Hspec Hfull) as (Hpay & _ & _ & Hit).
  rewrite Hit in H. unfold bind in H.
  destruct (Z.gtb_spec (data_length p) 0) as [Hpos|Hzero].
  - unfold write_all in H.
    destruct (write_all_from _ _ _ _ _ _ _) as [w tr1|] eqn:Hw; [|discriminate].
    apply write_all_from_spec in Hw; [|lia|].
    + destruct Hw as (ext & k & -> & Hk & Hwr & Hcode & Hall).
      destruct (Z.eqb_spec w 0) as [->|Hne]; cbn [negb] in H; unfold ret in H;
        [|discriminate].
      inversion H; subst. split; [reflexivity|].
      exists ext. split; [reflexivity|].
      rewrite Hwr, (Hall eq_refl), Z.sub_0_r. exact Hpay.
    + assert (H64 : 2 ^ 32 < 2 ^ SIZE_BITS) by (vm_compute; reflexivity). lia.
  - unfold ret in H. cbn [Z.eqb negb] in H. inversion H; subst.
    split; [reflexivity|]. exists []. rewrite app_nil_r. split; [reflexivity|].
    replace (data_length p) with 0 by lia. reflexivity.
Qed.

End WriteFacts.

(** ** The examples of the specification *)

(** Frame boundaries: [01 00 00 00 03 'a' 'b' 'c' 03] is one Data frame
    with payload "abc" followed by one Close, and the buffer is empty
    afterwards. *)
Example frame_boundary_exactness :
  exists p,
    parse_and_apply_frames os_calm 2
      (parser_of [Byte.x01; Byte.x00; Byte.x00; Byte.x00; Byte.x03;
                  Byte.x61; Byte.x62; Byte.x63; Byte.x03]) 3 100 []
    = Ret (0, p)
        [EWrite 3 [Byte.x61; Byte.x62; Byte.x63] 3 (SysOk 3);
         EGetpgid 100 100; EKillpg 100 SIGHUP 0] /\
    contents p = [].
Proof. eexists. split; vm_compute; reflexivity. Qed.

(** Partial frames: a header that announces three bytes followed by one
    of them leaves the buffer as it is and makes no call. *)
Example partial_frame_stability :
  let p := parser_of [Byte.x01; Byte.x00; Byte.x00; Byte.x00; Byte.x03; Byte.x61] in
  parse_and_apply_frames os_calm 2 p 3 100 [] = Ret (0, p) [].
Proof. vm_compute. reflexivity. Qed.

(** ** Termination of the decoder *)

Lemma u8_inj a b : u8 a = u8 b -> a = b.
Proof.
  unfold u8. intros H. apply N2Z.inj in H.
  pose proof (Byte.of_to_N a) as Ha. rewrite H, Byte.of_to_N in Ha.
  now inversion Ha.
Qed.

Section Termination.

Variable os : OS.

Lemma write_all_from_done fuel fd mem len off tr :
  len <= off -> write_all_from os fuel fd mem len off tr = Ret 0 tr.
Proof.
  intros H. destruct fuel; cbn [write_all_from];
    destruct (Z.ltb_spec off len); try lia; reflexivity.
Qed.

(** More fuel does not change a result. *)
Lemma write_all_from_mono fuel : forall fuel' fd mem len off tr w tr',
  (fuel <= fuel')%nat ->
  write_all_from os fuel fd mem len off tr = Ret w tr' ->
  write_all_from os fuel' fd mem len off tr = Ret w tr'.
Proof.
  induction fuel as [|fuel IH]; intros fuel' fd mem len off tr w tr' Hle H.
  - cbn [write_all_from] in H. destruct (Z.ltb_spec off len); [discriminate|].
    rewrite write_all_from_done by lia. exact H.
  - destruct fuel' as [|fuel']; [lia|].
    cbn [write_all_from] in *. destruct (off <? len); [|exact H].
    unfold bind in *. destruct (write os fd _ _ tr) as [[n|errno] tr1|]; [| |discriminate].
    + apply IH; [lia|exact H].
    + destruct (errno =? EINTR); [|exact H]. apply IH; [lia|exact H].
Qed.

Lemma frame_iteration_mono fuel fuel' p master_fd child_pid tr it tr' :
  (fuel <= fuel')%nat ->
  frame_iteration os fuel p master_fd child_pid tr = Ret it tr' ->
  frame_iteration os fuel' p master_fd child_pid tr = Ret it tr'.
Proof.
  intros Hle. unfold frame_iteration.
  destruct (_ =? OPCODE_DATA); [|intros H; exact H].
  destruct (len p <? 5); [intros H; exact H|].
  destruct (len p <? _); [intros H; exact H|].
  unfold bind. destruct (data_length p >? 0); [|intros H; exact H].
  unfold write_all.
  destruct (write_all_from os fuel _ _ _ _ tr) as [w tr1|] eqn:Hw; [|discriminate].
  rewrite (write_all_from_mono fuel fuel' _ _ _ _ _ _ _ Hle Hw).
  intros H; exact H.
Qed.

(** A round that continues has consumed at least one byte, unless it
    met a Data header for which the 32-bit sum [5 + n] is zero. *)
Lemma frame_iteration_progress fuel p master_fd child_pid tr p' tr' :
  parser_ok p -> 0 < len p ->
  (u8 (Mem.at_ (buf p) 0) = OPCODE_DATA -> 5 <= len p ->
   u32 (5 + data_length p) <> 0) ->
  frame_iteration os fuel p master_fd child_pid tr = Ret (Next p') tr' ->
  exists k, 1 <= k <= len p /\ p' = parser_consume p k /\
            parser_ok p' /\ len p' = len p - k /\
            contents p' = skipn (Z.to_nat k) (contents p).
Proof.
  intros Hok Hlen Hnz.
  assert (Hdone : forall k, 1 <= k <= len p ->
            Ret (Next (parser_consume p k)) tr' = Ret (Next p') tr' ->
            exists k, 1 <= k <= len p /\ p' = parser_consume p k /\
              parser_ok p' /\ len p' = len p - k /\
              contents p' = skipn (Z.to_nat k) (contents p)).
  { intros k Hk [= <-]. exists k.
    destruct (parser_consume_front p k Hok) as (Hl & Hc); [lia|].
    destruct (parser_consume_spec p k Hok) as (Hok' & _); [lia|].
    split; [lia|]. split; [reflexivity|]. split; [exact Hok'|].
    split; [exact Hl|exact Hc]. }
  unfold frame_iteration.
  destruct (Z.eqb_spec (u8 (Mem.at_ (buf p) 0)) OPCODE_DATA) as [Hop|_].
  - destruct (Z.ltb_spec (len p) 5) as [|H5]; [unfold ret; discriminate|].
    specialize (Hnz Hop H5).
    assert (H32 : 0 <= u32 (5 + data_length p) < 2 ^ 32)
      by (unfold u32, wrap; apply Z.mod_pos_bound; lia).
    assert (H64 : 2 ^ 32 < 2 ^ SIZE_BITS) by (vm_compute; reflexivity).
    rewrite (usize_small (u32 (5 + data_length p))) by lia.
    destruct (Z.ltb_spec (len p) (u32 (5 + data_length p))); [unfold ret; discriminate|].
    unfold bind.
    destruct (data_length p >? 0).
    + destruct (write_all os fuel master_fd _ _ tr) as [w tr1|]; [|discriminate].
      destruct (negb (w =? 0)); unfold ret; [discriminate|].
      intros [= <- <-]. apply (Hdone (u32 (5 + data_length p))); [lia|reflexivity].
    + unfold ret. cbn [Z.eqb negb].
      intros [= <- <-]. apply (Hdone (u32 (5 + data_length p))); [lia|reflexivity].
  - destruct (_ =? OPCODE_RESIZE).
    + destruct (Z.ltb_spec (len p) 5); [unfold ret; discriminate|].
      unfold bind, ioctl_TIOCSWINSZ. cbv zeta.
      destruct (negb (_ =? 0)); [unfold ret; discriminate|].
      destruct (signal_child os child_pid SIGWINCH _) as [rs tr1|]; [|discriminate].
      unfold ret. intros [= <- <-]. apply (Hdone 5); [lia|reflexivity].
    + destruct (_ =? OPCODE_CLOSE).
      * unfold bind.
        destruct (signal_child os child_pid SIGHUP tr) as [rs tr1|]; [|discriminate].
        unfold ret. intros [= <- <-]. apply (Hdone 1); [lia|reflexivity].
      * unfold ret. intros [= <- <-]. apply (Hdone 1); [lia|reflexivity].
Qed.

(** The only header with a zero sum is [01 FF FF FF FB]. *)
Lemma zero_sum_is_wrap_header p :
  parser_ok p -> 5 <= len p ->
  u8 (Mem.at_ (buf p) 0) = OPCODE_DATA ->
  u32 (5 + data_length p) = 0 ->
  wrap_header (contents p) = true.
Proof.
  intros (Hlen & Hbuf & Hcap) H5 Hop Hz.
  pose proof (data_length_range p) as Hn.
  assert (Hval : data_length p = 2 ^ 32 - 5).
  { unfold u32, wrap in Hz.
    destruct (Z.lt_ge_cases (5 + data_length p) (2 ^ 32)) as [Hlt|Hge].
    - rewrite Z.mod_small in Hz by lia. lia.
    - replace (5 + data_length p) with ((5 + data_length p - 2 ^ 32) + 1 * 2 ^ 32) in Hz
        by lia.
      rewrite Z.mod_add, Z.mod_small in Hz by lia. lia. }
  rewrite data_length_be in Hval.
  pose proof (u8_range (Mem.at_ (buf p) 1)) as R1.
  pose proof (u8_range (Mem.at_ (buf p) 2)) as R2.
  pose proof (u8_range (Mem.at_ (buf p) 3)) as R3.
  pose proof (u8_range (Mem.at_ (buf p) 4)) as R4.
  assert (E1 : u8 (Mem.at_ (buf p) 1) = 255) by lia.
  assert (E2 : u8 (Mem.at_ (buf p) 2) = 255) by lia.
  assert (E3 : u8 (Mem.at_ (buf p) 3) = 255) by lia.
  assert (E4 : u8 (Mem.at_ (buf p) 4) = 251) by lia.
  unfold contents, Mem.read. cbn [Z.to_nat skipn].
  destruct p as [b l c]. cbn [buf len cap] in *.
  destruct b as [|c0 [|c1 [|c2 [|c3 [|c4 rest]]]]]; cbn [length] in Hbuf; try lia.
  replace (Z.to_nat l) with (5 + Z.to_nat (l - 5))%nat by lia.
  cbn [Nat.add firstn wrap_header].
  change (Mem.at_ (c0 :: c1 :: c2 :: c3 :: c4 :: rest) 0) with c0 in Hop.
  change (Mem.at_ (c0 :: c1 :: c2 :: c3 :: c4 :: rest) 1) with c1 in E1.
  change (Mem.at_ (c0 :: c1 :: c2 :: c3 :: c4 :: rest) 2) with c2 in E2.
  change (Mem.at_ (c0 :: c1 :: c2 :: c3 :: c4 :: rest) 3) with c3 in E3.
  change (Mem.at_ (c0 :: c1 :: c2 :: c3 :: c4 :: rest) 4) with c4 in E4.
  rewrite Hop, E1, E2, E3, E4. reflexivity.
Qed.

Lemma wrap_free_skipn l k : wrap_free l -> wrap_free (skipn k l).
Proof. intros H i. rewrite skipn_skipn. apply H. Qed.

Lemma frame_iteration_returns fuel0 p master_fd child_pid tr :
  writes_return os ->
  exists fuel it tr',
    (fuel0 <= fuel)%nat /\
    frame_iteration os fuel p master_fd child_pid tr = Ret it tr'.
Proof.
  intros Hwr.
  destruct (Hwr master_fd (Mem.offset (buf p) 5) (usize (data_length p)) tr)
    as (f & w & tr1 & Hw).
  exists (Nat.max fuel0 f).
  assert (Hw' : write_all os (Nat.max fuel0 f) master_fd (Mem.offset (buf p) 5)
                  (usize (data_length p)) tr = Ret w tr1).
  { unfold write_all in *. eapply write_all_from_mono; [|exact Hw]. lia. }
  unfold frame_iteration.
  destruct (_ =? OPCODE_DATA); [|destruct (_ =? OPCODE_RESIZE); [|destruct (_ =? OPCODE_CLOSE)]].
  - destruct (len p <? 5); [eexists _, _; split; [lia|reflexivity]|].
    destruct (len p <? _); [eexists _, _; split; [lia|reflexivity]|].
    unfold bind. destruct (data_length p >? 0).
    + rewrite Hw'. destruct (negb (w =? 0)); eexists _, _; split; try lia; reflexivity.
    + unfold ret. cbn [Z.eqb negb]. eexists _, _; split; [lia|reflexivity].
  - destruct (len p <? 5); [eexists _, _; split; [lia|reflexivity]|].
    unfold bind, ioctl_TIOCSWINSZ. cbv zeta.
    destruct (negb (_ =? 0)); [eexists _, _; split; [lia|reflexivity]|].
    match goal with
    | |- context [signal_child os child_pid SIGWINCH ?t] =>
        destruct (signal_child_events os child_pid SIGWINCH t) as (rs & ext & -> & _)
    end.
    eexists _, _; split; [lia|reflexivity].
  - unfold bind.
    destruct (signal_child_events os child_pid SIGHUP tr) as (rs & ext & -> & _).
    eexists _, _; split; [lia|reflexivity].
  - eexists _, _; split; [lia|reflexivity].
Qed.

(** Away from that header the decoder terminates: when every
    [write_all] returns, a buffer that holds [01 FF FF FF FB] nowhere
    is decoded in finitely many rounds. *)
Lemma decoder_terminates master_fd child_pid :
  writes_return os ->
  forall n p tr,
    parser_ok p -> (Z.to_nat (len p) <= n)%nat -> wrap_free (contents p) ->
    exists N x tr',
      forall fuel, (N <= fuel)%nat ->
        parse_and_apply_frames os fuel p master_fd child_pid tr = Ret x tr'.
Proof.
  intros Hwr. induction n as [|n IH]; intros p tr Hok Hn Hfree.
  - exists 0%nat, (0, p), tr. intros fuel _.
    destruct fuel; cbn [parse_and_apply_frames];
      destruct (Z.gtb_spec (len p) 0); try lia; reflexivity.
  - destruct (Z.gtb_spec (len p) 0) as [Hpos|Hzero].
    + destruct (frame_iteration_returns 0 p master_fd child_pid tr Hwr)
        as (f0 & it & tr1 & _ & Hit).
      destruct it as [p'|r].
      * assert (Hnz : u8 (Mem.at_ (buf p) 0) = OPCODE_DATA -> 5 <= len p ->
                      u32 (5 + data_length p) <> 0).
        { intros Hop H5 Hz.
          pose proof (zero_sum_is_wrap_header p Hok H5 Hop Hz) as Hhdr.
          specialize (Hfree 0%nat). cbn [skipn] in Hfree. congruence. }
        destruct (frame_iteration_progress f0 p master_fd child_pid tr p' tr1
                    Hok ltac:(lia) Hnz Hit)
          as (k & Hk & -> & Hok' & Hl' & Hc').
        destruct (IH (parser_consume p k) tr1 Hok') as (N & x & tr' & Hrun).
        { lia. }
        { rewrite Hc'. now apply wrap_free_skipn. }
        exists (S (Nat.max f0 N)), x, tr'. intros fuel Hfuel.
        destruct fuel as [|fuel]; [lia|].
        cbn [parse_and_apply_frames].
        destruct (Z.gtb_spec (len p) 0); [|lia].
        unfold bind.
        rewrite (frame_iteration_mono f0 fuel _ _ _ _ _ _ ltac:(lia) Hit).
        apply Hrun. lia.
      * exists (S f0), (r, p), tr1. intros fuel Hfuel.
        destruct fuel as [|fuel]; [lia|].
        cbn [parse_and_apply_frames].
        destruct (Z.gtb_spec (len p) 0); [|lia].
        unfold bind.
        rewrite (frame_iteration_mono f0 fuel _ _ _ _ _ _ ltac:(lia) Hit).
        reflexivity.
    + exists 0%nat, (0, p), tr. intros fuel _.
      destruct fuel; cbn [parse_and_apply_frames];
        destruct (Z.gtb_spec (len p) 0); try lia; reflexivity.
Qed.

(** On that header, in a system whose writes succeed, a round gives
    back the buffer it was given and the decoder never returns. *)
Lemma zero_sum_round fuel p master_fd child_pid tr :
  os_write_accepts os ->
  parser_ok p -> 5 <= len p ->
  u8 (Mem.at_ (buf p) 0) = OPCODE_DATA ->
  u32 (5 + data_length p) = 0 ->
  exists e,
    frame_iteration os (S fuel) p master_fd child_pid tr = Ret (Next p) (tr ++ [e]).
Proof.
  intros Hacc Hok H5 Hop Hz.
  pose proof (data_length_range p) as Hn.
  assert (H64 : 2 ^ 32 < 2 ^ SIZE_BITS) by (vm_compute; reflexivity).
  assert (Hpos : 0 < data_length p).
  { destruct (Z.eq_dec (data_length p) 0) as [E|]; [|lia].
    rewrite E in Hz. vm_compute in Hz. discriminate. }
  assert (Hsame : parser_consume p 0 = p).
  { unfold parser_consume. destruct (Z.geb_spec 0 (len p)); [lia|].
    destruct Hok as (Hlen & Hbuf & _). destruct p as [b l c]. cbn [buf len cap] in *.
    f_equal; [|lia].
    unfold Mem.move, Mem.write, Mem.read. cbn [Z.to_nat skipn firstn app Nat.add].
    rewrite length_firstn, Nat.min_l by lia.
    rewrite Z.sub_0_r. apply firstn_skipn. }
  unfold frame_iteration. rewrite Hop. cbn [Z.eqb OPCODE_DATA Pos.eqb].
  destruct (Z.ltb_spec (len p) 5); [lia|].
  rewrite Hz. change (usize 0) with 0.
  destruct (Z.ltb_spec (len p) 0); [lia|].
  destruct (Z.gtb_spec (data_length p) 0); [|lia].
  rewrite (usize_small (data_length p)) by lia.
  unfold bind at 1. unfold write_all. cbn [write_all_from].
  destruct (Z.ltb_spec 0 (data_length p)); [|lia].
  unfold bind at 1. unfold write. cbv zeta. rewrite Hacc.
  rewrite write_all_from_done
    by (rewrite Z.sub_0_r, Z.add_0_l, usize_small; lia).
  cbn [Z.eqb negb]. unfold ret. rewrite Hsame. eexists. reflexivity.
Qed.

Lemma zero_sum_never_returns p master_fd child_pid :
  os_write_accepts os ->
  parser_ok p -> 5 <= len p ->
  u8 (Mem.at_ (buf p) 0) = OPCODE_DATA ->
  u32 (5 + data_length p) = 0 ->
  forall fuel tr, parse_and_apply_frames os fuel p master_fd child_pid tr = Timeout.
Proof.
  intros Hacc Hok H5 Hop Hz.
  induction fuel as [|fuel IH]; intros tr; cbn [parse_and_apply_frames];
    destruct (Z.gtb_spec (len p) 0); try lia; [reflexivity|].
  unfold bind. destruct fuel as [|fuel].
  - (* with no fuel the write cannot even start *)
    assert (Hit : frame_iteration os 0 p master_fd child_pid tr = Timeout).
    { unfold frame_iteration.
      rewrite Hop. cbn [Z.eqb OPCODE_DATA Pos.eqb].
      destruct (Z.ltb_spec (len p) 5); [lia|].
      rewrite Hz. change (usize 0) with 0.
      destruct (Z.ltb_spec (len p) 0); [lia|].
      pose proof (data_length_range p) as Hn.
      assert (H64 : 2 ^ 32 < 2 ^ SIZE_BITS) by (vm_compute; reflexivity).
      assert (Hpos : 0 < data_length p).
      { destruct (Z.eq_dec (data_length p) 0) as [E|]; [|lia].
        rewrite E in Hz. vm_compute in Hz. discriminate. }
      destruct (Z.gtb_spec (data_length p) 0); [|lia].
      rewrite (usize_small (data_length p)) by lia.
      unfold bind, write_all. cbn [write_all_from].
      destruct (Z.ltb_spec 0 (data_length p)); [|lia]. reflexivity. }
    rewrite Hit. reflexivity.
  - destruct (zero_sum_round fuel p master_fd child_pid tr Hacc Hok H5 Hop Hz)
      as (e & ->).
    apply IH.
Qed.

End Termination.

(** ** The 32-bit sum [5 + n] *)

(** A [write_all] of at least one byte that returns has called
    [write]. *)
Lemma write_all_calls_write os fuel fd mem len tr w tr' :
  0 < len ->
  write_all os fuel fd mem len tr = Ret w tr' -> tr' <> tr.
Proof.
  intros Hlen H Heq. subst tr'.
  unfold write_all in H. destruct fuel as [|fuel]; cbn [write_all_from] in H;
    destruct (Z.ltb_spec 0 len); try lia; [discriminate|].
  unfold bind, write in H. cbv zeta in H.
  set (e := EWrite fd _ _ _) in H.
  assert (Hgrow : forall ext, tr = (tr ++ [e]) ++ ext -> False).
  { intros ext Hext. apply (f_equal (@length event)) in Hext.
    rewrite !length_app in Hext. cbn [length] in Hext. lia. }
  destruct (os_write os tr fd _ _) as [n|errno].
  - apply (write_all_from_events os 0) in H. destruct H as (ext & Hext & _).
    eapply Hgrow, Hext.
  - destruct (errno =? EINTR).
    + apply (write_all_from_events os 0) in H. destruct H as (ext & Hext & _).
      eapply Hgrow, Hext.
    + inversion H as [Hext]. apply (Hgrow []). now rewrite app_nil_r.
Qed.

(** A header whose length field is [2^32 - 5] or more never makes the
    decoder wait: with five bytes or more in the buffer the frame is
    taken as complete and [write_all] is called. *)
Lemma wrapped_length_no_wait os fuel p master_fd child_pid tr :
  parser_ok p -> 5 <= len p ->
  u8 (Mem.at_ (buf p) 0) = OPCODE_DATA ->
  2 ^ 32 - 5 <= data_length p ->
  frame_iteration os fuel p master_fd child_pid tr <> Ret (Return 0) tr.
Proof.
  intros Hok H5 Hop Hbig H.
  pose proof (data_length_range p) as Hn.
  assert (H64 : 2 ^ 32 < 2 ^ SIZE_BITS) by (vm_compute; reflexivity).
  assert (Hsum : u32 (5 + data_length p) = 5 + data_length p - 2 ^ 32).
  { unfold u32, wrap.
    replace (5 + data_length p) with ((5 + data_length p - 2 ^ 32) + 1 * 2 ^ 32) at 1
      by lia.
    rewrite Z.mod_add, Z.mod_small by lia. reflexivity. }
  revert H. unfold frame_iteration. rewrite Hop. cbn [Z.eqb OPCODE_DATA Pos.eqb].
  destruct (Z.ltb_spec (len p) 5); [lia|].
  rewrite Hsum, (usize_small (5 + data_length p - 2 ^ 32)) by lia.
  destruct (Z.ltb_spec (len p) (5 + data_length p - 2 ^ 32)); [lia|].
  destruct (Z.gtb_spec (data_length p) 0); [|lia].
  rewrite (usize_small (data_length p)) by lia.
  unfold bind.
  destruct (write_all os fuel master_fd _ _ tr) as [w tr'|] eqn:Hw; [|discriminate].
  apply write_all_calls_write in Hw; [|lia].
  destruct (negb (w =? 0)); unfold ret; intros [= E]; congruence.
Qed.

(** C1 (Data frames), where the code departs from it.  The buffer holds
    the five bytes [01 FF FF FF FF]: the header announces
    [n = 2^32 - 1] payload bytes and none of them has arrived.  The
    test of the decoder compares the length with [5 + n] computed in
    32 bits, which is [4], so the frame is taken as complete: whatever
    the system answers, the decoder calls [write] instead of waiting,
    and when the write is reported done it consumes four bytes of the
    header.  The cells handed to [write] lie past the pending bytes. *)
Theorem data_length_wraps :
  parser_ok parser_huge_length /\
  contents parser_huge_length = [Byte.x01; Byte.xff; Byte.xff; Byte.xff; Byte.xff] /\
  data_length parser_huge_length = 2 ^ 32 - 1 /\
  len parser_huge_length < 5 + data_length parser_huge_length /\
  u32 (5 + data_length parser_huge_length) = 4 /\
  (forall os fuel master_fd child_pid tr,
     frame_iteration os fuel parser_huge_length master_fd child_pid tr
     <> Ret (Return 0) tr) /\
  (exists p',
     frame_iteration os_calm 1 parser_huge_length 3 100 []
     = Ret (Next p')
         [EWrite 3 [Byte.x73; Byte.x65; Byte.x63] (2 ^ 32 - 1) (SysOk (2 ^ 32 - 1))] /\
     contents p' = [Byte.xff] /\
     parse_and_apply_frames os_calm 2 parser_huge_length 3 100 []
     = Ret (0, parser_consume p' 1)
         [EWrite 3 [Byte.x73; Byte.x65; Byte.x63] (2 ^ 32 - 1) (SysOk (2 ^ 32 - 1))] /\
     contents (parser_consume p' 1) = []).
Proof.
  split; [concrete|]. split; [reflexivity|]. split; [reflexivity|].
  split; [reflexivity|]. split; [reflexivity|]. split.
  - intros os fuel master_fd child_pid tr.
    apply wrapped_length_no_wait; [concrete|vm_compute; discriminate|reflexivity|].
    vm_compute. discriminate.
  - eexists. repeat split; lazy; reflexivity.
Qed.

(** C10 (termination of the decoder), where the code departs from it.
    The buffer holds [01 FF FF FF FB]: the header announces
    [n = 2^32 - 5] bytes, and [5 + n] computed in 32 bits is [0].  The
    frame is taken as complete and [parser_consume (p, 0)] removes
    nothing, so in a system whose writes succeed a round of the loop
    ends where it began and the decoder returns for no amount of
    fuel. *)
Theorem zero_consume_loops :
  parser_ok parser_wrap_zero /\
  data_length parser_wrap_zero = 2 ^ 32 - 5 /\
  u32 (5 + data_length parser_wrap_zero) = 0 /\
  parser_consume parser_wrap_zero 0 = parser_wrap_zero /\
  (forall fuel tr,
     frame_iteration os_calm (S fuel) parser_wrap_zero 3 100 tr
     = Ret (Next parser_wrap_zero)
         (tr ++ [EWrite 3 [Byte.x00; Byte.x00; Byte.x00] (2 ^ 32 - 5)
                   (SysOk (2 ^ 32 - 5))])) /\
  (forall fuel tr,
     parse_and_apply_frames os_calm fuel parser_wrap_zero 3 100 tr = Timeout).
Proof.
  split; [concrete|]. split; [reflexivity|]. split; [reflexivity|].
  split; [reflexivity|].
  assert (Hstep : forall fuel tr,
            frame_iteration os_calm (S fuel) parser_wrap_zero 3 100 tr
            = Ret (Next parser_wrap_zero)
                (tr ++ [EWrite 3 [Byte.x00; Byte.x00; Byte.x00] (2 ^ 32 - 5)
                          (SysOk (2 ^ 32 - 5))]))
    by (intros fuel tr; destruct fuel; reflexivity).
  split; [exact Hstep|].
  induction fuel as [|fuel IH]; intros tr; [reflexivity|].
  change (parse_and_apply_frames os_calm (S fuel) parser_wrap_zero 3 100 tr)
    with ((it <- frame_iteration os_calm fuel parser_wrap_zero 3 100 ;;
           match it with
           | Next p' => parse_and_apply_frames os_calm fuel p' 3 100
           | Return r => ret (r, parser_wrap_zero)
           end) tr).
  unfold bind. destruct fuel as [|fuel]; [reflexivity|].
  rewrite Hstep. apply IH.
Qed.

(* ================================================================== *)
(** * Beyond the claims *)

(** ** [write_all] *)

Section WriteAll.

Variable os : OS.

(** The calls of [write_all]: writes on [fd] only, none of which
    failed for good except, when it returns [-1], the last one. *)
Lemma write_all_from_log fuel : forall fd mem len off tr w tr',
  write_all_from os fuel fd mem len off tr = Ret w tr' ->
  exists ext,
    tr' = tr ++ ext /\
    forallb (is_write_to fd) ext = true /\
    ((w = 0 /\ existsb hard_error ext = false) \/
     (w = -1 /\ exists ext0 e, ext = ext0 ++ [e] /\ hard_error e = true /\
                               existsb hard_error ext0 = false)).
Proof.
  induction fuel as [|fuel IH]; intros fd mem len off tr w tr' H;
    cbn [write_all_from] in H; destruct (off <? len).
  - discriminate H.
  - inversion H; subst. exists []. rewrite app_nil_r. split; [reflexivity|].
    split; [reflexivity|]. left. now split.
  - unfold bind, write in H. cbv zeta in H.
    set (data := Mem.read mem off (len - off)) in H.
    assert (Hnext : forall r off',
              hard_error (EWrite fd data (len - off) r) = false ->
              write_all_from os fuel fd mem len off' (tr ++ [EWrite fd data (len - off) r])
              = Ret w tr' ->
              exists ext,
                tr' = tr ++ ext /\
                forallb (is_write_to fd) ext = true /\
                ((w = 0 /\ existsb hard_error ext = false) \/
                 (w = -1 /\ exists ext0 e, ext = ext0 ++ [e] /\ hard_error e = true /\
                                           existsb hard_error ext0 = false))).
    { intros r off' Hsoft H'. apply IH in H'.
      destruct H' as (ext & -> & Hall & Hcase).
      exists (EWrite fd data (len - off) r :: ext). rewrite <- app_assoc.
      split; [reflexivity|]. split.
      - cbn [forallb is_write_to]. now rewrite Z.eqb_refl, Hall.
      - destruct Hcase as [(-> & Hnone)|(-> & ext0 & e & -> & He & Hnone)].
        + left. split; [reflexivity|]. cbn [existsb]. now rewrite Hsoft, Hnone.
        + right. split; [reflexivity|].
          exists (EWrite fd data (len - off) r :: ext0), e.
          split; [reflexivity|]. split; [exact He|].
          cbn [existsb]. now rewrite Hsoft, Hnone. }
    destruct (os_write os tr fd data (len - off)) as [n|errno].
    + apply (Hnext (SysOk n) _ eq_refl H).
    + destruct (errno =? EINTR) eqn:Hintr.
      * apply (Hnext (SysErr errno) off); [|exact H].
        cbn [hard_error]. now rewrite Hintr.
      * inversion H; subst.
        exists [EWrite fd data (len - off) (SysErr errno)].
        split; [reflexivity|]. split.
        -- cbn [forallb is_write_to]. now rewrite Z.eqb_refl.
        -- right. split; [reflexivity|].
           exists [], (EWrite fd data (len - off) (SysErr errno)).
           split; [reflexivity|]. split; [|reflexivity].
           cbn [hard_error]. now rewrite Hintr.
  - inversion H; subst. exists []. rewrite app_nil_r. split; [reflexivity|].
    split; [reflexivity|]. left. now split.
Qed.

Lemma written_other_fd fd fd' ext :
  fd' <> fd -> forallb (is_write_to fd) ext = true -> written fd' ext = [].
Proof.
  intros Hne. induction ext as [|e ext IH]; [reflexivity|].
  cbn [forallb]. intros H. apply andb_true_iff in H. destruct H as [He Hall].
  cbn [written flat_map]. change (flat_map _ ext) with (written fd' ext).
  rewrite (IH Hall), app_nil_r.
  destruct e; try discriminate He. cbn [is_write_to] in He.
  apply Z.eqb_eq in He. subst fd0.
  destruct r; [|reflexivity].
  destruct (Z.eqb_spec fd fd'); [congruence|reflexivity].
Qed.

(** With writes that make progress, [write_all] needs no more rounds
    than there are bytes. *)
Lemma write_all_from_returns fuel : forall fd mem len off tr,
  os_write_progress os ->
  0 <= off -> len < 2 ^ SIZE_BITS ->
  (Z.to_nat (len - off) <= fuel)%nat ->
  exists tr',
    write_all_from os fuel fd mem len off tr = Ret 0 tr' /\
    (length tr' <= length tr + Z.to_nat (len - off))%nat.
Proof.
  induction fuel as [|fuel IH]; intros fd mem len off tr Hprog Hoff Hlen Hfuel;
    cbn [write_all_from]; destruct (Z.ltb_spec off len) as [Hlt|Hge];
    try (exists tr; split; [reflexivity|lia]); [lia|].
  unfold bind, write. cbv zeta.
  destruct (Hprog tr fd (Mem.read mem off (len - off)) (len - off)) as (n & -> & Hn);
    [lia|].
  rewrite usize_small by lia.
  destruct (IH fd mem len (off + n)
              (tr ++ [EWrite fd (Mem.read mem off (len - off)) (len - off) (SysOk n)])
              Hprog) as (tr' & Hrun & Hcalls); try lia.
  exists tr'. split; [exact Hrun|].
  rewrite length_app in Hcalls. cbn [length] in Hcalls. lia.
Qed.

End WriteAll.

Lemma os_chunked_sane : os_write_sane os_chunked.
Proof.
  intros tr fd data count n. cbn [os_write os_chunked].
  destruct (Z.ltb_spec count 0); intros [= <-]; lia.
Qed.

Lemma os_chunked_progress : os_write_progress os_chunked.
Proof.
  intros tr fd data count H. cbn [os_write os_chunked].
  destruct (Z.ltb_spec count 0); [lia|].
  eexists. split; [reflexivity|]. lia.
Qed.

(** X1 ([write_all] delivers).  When every successful [write] takes
    between 0 and [count] bytes, the bytes that the calls of
    [write_all] put on [fd] are a prefix of the [len] bytes it was
    given, in order and without repeats; they are all of them when it
    returns [0]; it returns [0] or [-1]; and it writes on no other
    descriptor. *)
Theorem write_all_delivers (os : OS) (fuel : nat) (fd : Z) (mem : list byte)
  (len : Z) (tr : trace) (w : Z) (tr' : trace) :
  os_write_sane os ->
  0 <= len < 2 ^ SIZE_BITS ->
  write_all os fuel fd mem len tr = Ret w tr' ->
  exists ext k,
    tr' = tr ++ ext /\ 0 <= k <= len /\
    written fd ext = Mem.read mem 0 k /\
    (w = 0 \/ w = -1) /\
    (w = 0 -> k = len) /\
    (forall fd', fd' <> fd -> written fd' ext = []).
Proof.
  intros Hsane Hlen H. unfold write_all in H.
  destruct (write_all_from_spec os Hsane fuel fd mem len 0 tr w tr' ltac:(lia) ltac:(lia) H)
    as (ext & k & Hext & Hk & Hwr & Hcode & Hall).
  destruct (write_all_from_log os fuel fd mem len 0 tr w tr' H) as (ext' & Hext' & Hfd & _).
  assert (ext' = ext) as -> by (rewrite Hext in Hext'; now apply app_inv_head in Hext').
  exists ext, k. split; [exact Hext|]. split; [lia|]. split; [exact Hwr|].
  split; [exact Hcode|]. split; [intros Hz; specialize (Hall Hz); lia|].
  intros fd' Hne. now apply (written_other_fd fd).
Qed.

Lemma write_all_delivers_witness :
  exists ext k,
    [EWrite 1 [Byte.x61; Byte.x62; Byte.x63] 3 (SysOk 2);
     EWrite 1 [Byte.x63] 1 (SysOk 1)] = [] ++ ext /\ 0 <= k <= 3 /\
    written 1 ext = Mem.read [Byte.x61; Byte.x62; Byte.x63] 0 k /\
    (0 = 0 \/ 0 = -1) /\
    (0 = 0 -> k = 3) /\
    (forall fd', fd' <> 1 -> written fd' ext = []).
Proof.
  apply (write_all_delivers os_chunked 2 1 [Byte.x61; Byte.x62; Byte.x63] 3 [] 0
           _ os_chunked_sane).
  - vm_compute. intuition discriminate.
  - vm_compute. reflexivity.
Defined.



(** X3 ([write_all] returns).  When every [write] of at least one byte
    takes at least one, [write_all] returns [0] after at most [len]
    calls; with nothing to write it returns [0] without a call. *)
Theorem write_all_returns (os : OS) (fuel : nat) (fd : Z) (mem : list byte)
  (len : Z) (tr : trace) :
  os_write_progress os ->
  len < 2 ^ SIZE_BITS ->
  (Z.to_nat len <= fuel)%nat ->
  (exists tr',
     write_all os fuel fd mem len tr = Ret 0 tr' /\
     (length tr' <= length tr + Z.to_nat len)%nat) /\
  (len <= 0 -> write_all os fuel fd mem len tr = Ret 0 tr).
Proof.
  intros Hprog Hlen Hfuel. split.
  - unfold write_all.
    assert (Hfuel0 : (Z.to_nat (len - 0) <= fuel)%nat) by (now rewrite Z.sub_0_r).
    destruct (write_all_from_returns os fuel fd mem len 0 tr Hprog ltac:(lia) Hlen Hfuel0)
      as (tr' & H & Hc).
    exists tr'. split; [exact H|]. now rewrite Z.sub_0_r in Hc.
  - intros Hz. unfold write_all. now apply write_all_from_done.
Qed.

Lemma write_all_returns_witness :
  (exists tr',
     write_all os_chunked 5 1 (repeat Byte.x2a 5) 5 [] = Ret 0 tr' /\
     (length tr' <= length (@nil event) + Z.to_nat 5)%nat) /\
  (5 <= 0 -> write_all os_chunked 5 1 (repeat Byte.x2a 5) 5 [] = Ret 0 []).
Proof.
  apply (write_all_returns os_chunked 5 1 (repeat Byte.x2a 5) 5 [] os_chunked_progress).
  - reflexivity.
  - cbn. lia.
Defined.

(** ** The decoder as a whole *)

Lemma usize_u32 x : usize (u32 x) = u32 x.
Proof.
  apply usize_small.
  assert (H : 0 <= u32 x < 2 ^ 32) by (unfold u32, wrap; apply Z.mod_pos_bound; lia).
  assert (H64 : 2 ^ 32 < 2 ^ SIZE_BITS) by (vm_compute; reflexivity). lia.
Qed.

Lemma forallb_snoc {A} (f : A -> bool) l x :
  forallb f (l ++ [x]) = forallb f l && f x.
Proof. rewrite forallb_app. cbn [forallb]. now rewrite andb_true_r. Qed.

Section DecoderLog.

Variable os : OS.

Lemma signal_child_log child_pid sig tr :
  sig = SIGWINCH \/ sig = SIGHUP ->
  exists r ext,
    signal_child os child_pid sig tr = Ret r (tr ++ ext) /\
    forall master_fd, forallb (decoder_event master_fd child_pid) ext = true.
Proof.
  intros Hsig.
  assert (Hs : (sig =? SIGWINCH) || (sig =? SIGHUP) = true)
    by (destruct Hsig as [-> | ->]; reflexivity).
  unfold signal_child, bind, getpgid, killpg, kill, ret.
  set (pgid := os_getpgid os tr child_pid).
  destruct (Z.ltb_spec pgid 0) as [Hneg|Hpos].
  - exists (-1), [EGetpgid child_pid pgid]. split; [reflexivity|].
    intros master_fd. cbn [forallb decoder_event]. now rewrite Z.eqb_refl.
  - destruct (Z.eqb_spec pgid child_pid) as [Heq|Hne].
    + set (r := os_killpg os _ pgid sig).
      exists (if r <? 0 then -1 else 0), [EGetpgid child_pid pgid; EKillpg pgid sig r].
      split; [rewrite <- app_assoc; now destruct (r <? 0)|].
      intros master_fd. cbn [forallb decoder_event].
      rewrite Z.eqb_refl, Hs, Heq, Z.eqb_refl. reflexivity.
    + set (r := os_kill os _ child_pid sig).
      exists (if r <? 0 then -1 else 0), [EGetpgid child_pid pgid; EKill child_pid sig r].
      split; [rewrite <- app_assoc; now destruct (r <? 0)|].
      intros master_fd. cbn [forallb decoder_event].
      rewrite Z.eqb_refl, Hs. reflexivity.
Qed.

Lemma write_events_decoder master_fd child_pid ext :
  forallb (is_write_to master_fd) ext = true ->
  forallb (decoder_event master_fd child_pid) ext = true.
Proof.
  induction ext as [|e ext IH]; [reflexivity|].
  cbn [forallb]. intros H. apply andb_true_iff in H. destruct H as [He Hall].
  rewrite (IH Hall), andb_true_r.
  destruct e; try discriminate He. exact He.
Qed.

(** One round of the decoder: what it logs, how it ends. *)
Lemma frame_iteration_log fuel p master_fd child_pid tr it tr' :
  0 < len p ->
  frame_iteration os fuel p master_fd child_pid tr = Ret it tr' ->
  exists ext,
    tr' = tr ++ ext /\
    forallb (decoder_event master_fd child_pid) ext = true /\
    match it with
    | Next p' => exists k, 0 <= k <= len p /\ p' = parser_consume p k
    | Return r =>
        (r = 0 /\ ext = [] /\ incomplete_frame p) \/
        (r = -1 /\ exists ext0 e, ext = ext0 ++ [e] /\ decoder_fatal master_fd e = true)
    end.
Proof.
  intros Hlen. unfold frame_iteration.
  destruct (Z.eqb_spec (u8 (Mem.at_ (buf p) 0)) OPCODE_DATA) as [Hd|_];
    [|destruct (Z.eqb_spec (u8 (Mem.at_ (buf p) 0)) OPCODE_RESIZE) as [Hr|_];
      [|destruct (_ =? OPCODE_CLOSE)]].
  - destruct (Z.ltb_spec (len p) 5) as [Hs|H5].
    { unfold ret. intros [= <- <-]. exists []. rewrite app_nil_r.
      split; [reflexivity|]. split; [reflexivity|]. left.
      split; [reflexivity|]. split; [reflexivity|]. left. split; [exact Hd|now left]. }
    rewrite usize_u32.
    destruct (Z.ltb_spec (len p) (u32 (5 + data_length p))) as [Hs|Hfull].
    { unfold ret. intros [= <- <-]. exists []. rewrite app_nil_r.
      split; [reflexivity|]. split; [reflexivity|]. left.
      split; [reflexivity|]. split; [reflexivity|]. left. split; [exact Hd|now right]. }
    assert (H32 : 0 <= u32 (5 + data_length p))
      by (unfold u32, wrap; apply Z.mod_pos_bound; lia).
    unfold bind. destruct (data_length p >? 0).
    + destruct (write_all os fuel master_fd _ _ tr) as [w tr1|] eqn:Hw; [|discriminate].
      apply write_all_from_log in Hw.
      destruct Hw as (ext & -> & Hfd & Hcase).
      pose proof (write_events_decoder master_fd child_pid ext Hfd) as Hdec.
      destruct Hcase as [(-> & _)|(-> & ext0 & e & -> & He & _)];
        cbn [Z.eqb negb]; unfold ret; intros [= <- <-].
      * exists ext. split; [reflexivity|]. split; [exact Hdec|].
        exists (u32 (5 + data_length p)). split; [lia|reflexivity].
      * exists (ext0 ++ [e]). split; [reflexivity|]. split; [exact Hdec|].
        right. split; [reflexivity|]. exists ext0, e. split; [reflexivity|].
        rewrite forallb_snoc in Hfd. apply andb_true_iff in Hfd. destruct Hfd as [_ Hfe].
        destruct e; try discriminate He. destruct r; [discriminate He|].
        cbn [is_write_to] in Hfe. cbn [hard_error] in He. cbn [decoder_fatal].
        now rewrite Hfe, He.
    + unfold ret. cbn [Z.eqb negb]. intros [= <- <-]. exists []. rewrite app_nil_r.
      split; [reflexivity|]. split; [reflexivity|].
      exists (u32 (5 + data_length p)). split; [lia|reflexivity].
  - destruct (Z.ltb_spec (len p) 5) as [Hs|H5].
    { unfold ret. intros [= <- <-]. exists []. rewrite app_nil_r.
      split; [reflexivity|]. split; [reflexivity|]. left.
      split; [reflexivity|]. split; [reflexivity|]. right. now split. }
    unfold bind, ioctl_TIOCSWINSZ. cbv zeta.
    set (e := EIoctlWinsz master_fd _ _ _).
    destruct (Z.eqb_spec (os_ioctl_winsz os tr master_fd (resize_cols p) (resize_rows p)) 0)
      as [Hz|Hnz]; cbn [negb].
    + destruct (signal_child_log child_pid SIGWINCH (tr ++ [e]) ltac:(now left))
        as (rs & ext & -> & Hdec).
      unfold ret. intros [= <- <-]. exists (e :: ext). rewrite <- app_assoc.
      split; [reflexivity|]. split.
      * cbn [forallb]. rewrite Hdec. subst e. cbn [decoder_event].
        now rewrite Z.eqb_refl.
      * exists 5. split; [lia|reflexivity].
    + unfold ret. intros [= <- <-]. exists [e].
      split; [reflexivity|]. split.
      * subst e. cbn [forallb decoder_event]. now rewrite Z.eqb_refl.
      * right. split; [reflexivity|]. exists [], e. split; [reflexivity|].
        subst e. cbn [decoder_fatal]. rewrite Z.eqb_refl.
        apply Z.eqb_neq in Hnz. now rewrite Hnz.
  - unfold bind.
    destruct (signal_child_log child_pid SIGHUP tr ltac:(now right))
      as (rs & ext & -> & Hdec).
    unfold ret. intros [= <- <-]. exists ext.
    split; [reflexivity|]. split; [apply Hdec|].
    exists 1. split; [lia|reflexivity].
  - unfold ret. intros [= <- <-]. exists []. rewrite app_nil_r.
    split; [reflexivity|]. split; [reflexivity|].
    exists 1. split; [lia|reflexivity].
Qed.

End DecoderLog.

Section DecoderRun.

Variable os : OS.

(** A run of the decoder: what it logs, what it leaves, how it ends. *)
Lemma parse_and_apply_frames_log master_fd child_pid fuel : forall p tr r p' tr',
  parser_ok p ->
  parse_and_apply_frames os fuel p master_fd child_pid tr = Ret (r, p') tr' ->
  exists ext k,
    tr' = tr ++ ext /\
    forallb (decoder_event master_fd child_pid) ext = true /\
    0 <= k <= len p /\
    parser_ok p' /\ cap p' = cap p /\ len p' = len p - k /\
    contents p' = skipn (Z.to_nat k) (contents p) /\
    ((r = 0 /\ (len p' = 0 \/ incomplete_frame p')) \/
     (r = -1 /\ 0 < len p' /\
      exists ext0 e, ext = ext0 ++ [e] /\ decoder_fatal master_fd e = true)).
Proof.
  assert (Hstop : forall p tr r p' tr',
            parser_ok p -> len p <= 0 -> Ret (0, p) tr = Ret (r, p') tr' ->
            exists ext k,
              tr' = tr ++ ext /\
              forallb (decoder_event master_fd child_pid) ext = true /\
              0 <= k <= len p /\
              parser_ok p' /\ cap p' = cap p /\ len p' = len p - k /\
              contents p' = skipn (Z.to_nat k) (contents p) /\
              ((r = 0 /\ (len p' = 0 \/ incomplete_frame p')) \/
               (r = -1 /\ 0 < len p' /\
                exists ext0 e, ext = ext0 ++ [e] /\ decoder_fatal master_fd e = true))).
  { intros p tr r p' tr' Hok Hz [= <- <- <-]. exists [], 0. rewrite app_nil_r.
    destruct Hok as (Hlen & Hrest).
    split; [reflexivity|]. split; [reflexivity|]. split; [lia|].
    split; [split; assumption|]. split; [reflexivity|]. split; [lia|].
    split; [reflexivity|]. left. split; [reflexivity|]. left. lia. }
  induction fuel as [|fuel IH]; intros p tr r p' tr' Hok H;
    cbn [parse_and_apply_frames] in H; destruct (Z.gtb_spec (len p) 0) as [Hpos|Hz].
  - discriminate H.
  - now apply Hstop.
  - unfold bind in H.
    destruct (frame_iteration os fuel p master_fd child_pid tr) as [it tr1|] eqn:Hit;
      [|discriminate].
    apply frame_iteration_log in Hit; [|lia].
    destruct Hit as (ext1 & -> & Hdec1 & Hend).
    destruct it as [p1|r1].
    + destruct Hend as (k1 & Hk1 & ->).
      destruct (parser_consume_front p k1 Hok Hk1) as (Hl1 & Hc1).
      destruct (parser_consume_spec p k1 Hok ltac:(lia)) as (Hok1 & Hcap1 & _).
      apply IH in H; [|exact Hok1].
      destruct H as (ext2 & k2 & -> & Hdec2 & Hk2 & Hok' & Hcap' & Hl' & Hc' & Hres).
      exists (ext1 ++ ext2), (k1 + k2). rewrite app_assoc.
      split; [reflexivity|]. split; [rewrite forallb_app; now rewrite Hdec1, Hdec2|].
      split; [lia|]. split; [exact Hok'|]. split; [congruence|]. split; [lia|].
      split.
      * rewrite Hc', Hc1, skipn_skipn. f_equal. lia.
      * destruct Hres as [Hzero|(-> & Hlen' & ext0 & e & -> & He)]; [now left|].
        right. split; [reflexivity|]. split; [exact Hlen'|].
        exists (ext1 ++ ext0), e. split; [now rewrite app_assoc|exact He].
    + unfold ret in H. inversion H; subst r1 p' tr'. clear H.
      exists ext1, 0. split; [reflexivity|]. split; [exact Hdec1|].
      destruct Hok as (Hlen & Hrest).
      split; [lia|]. split; [split; assumption|]. split; [reflexivity|].
      split; [lia|]. split; [reflexivity|].
      destruct Hend as [(-> & _ & Hinc)|(-> & Hfatal)].
      * left. split; [reflexivity|]. now right.
      * right. split; [reflexivity|]. split; [lia|exact Hfatal].
  - now apply Hstop.
Qed.

End DecoderRun.

(** X4 (Data frames whose length does not wrap).  The length field is
    the big-endian number in bytes 1 to 4.  While fewer than 5 bytes,
    or fewer than [5 + n] bytes, are pending, a round of the decoder
    returns [0] and makes no call.  Once [5 + n] bytes are pending (and
    [5 + n] fits 32 bits) the round either puts exactly the payload,
    bytes 5 to [5 + n] of the buffer, on the pseudoterminal and
    consumes [5 + n] bytes, or returns [-1] with the buffer as it
    was. *)
Theorem data_frame_delivered (os : OS) (fuel : nat) (p : parser)
  (master_fd child_pid : Z) (tr : trace) :
  os_write_sane os ->
  parser_ok p ->
  u8 (Mem.at_ (buf p) 0) = OPCODE_DATA ->
  let n := data_length p in
  n = u8 (Mem.at_ (buf p) 1) * 2 ^ 24 + u8 (Mem.at_ (buf p) 2) * 2 ^ 16
      + u8 (Mem.at_ (buf p) 3) * 2 ^ 8 + u8 (Mem.at_ (buf p) 4) /\
  (len p < 5 ->
   frame_iteration os fuel p master_fd child_pid tr = Ret (Return 0) tr) /\
  (5 <= len p -> 5 + n < 2 ^ 32 ->
   (len p < 5 + n ->
    frame_iteration os fuel p master_fd child_pid tr = Ret (Return 0) tr) /\
   (5 + n <= len p ->
    forall it tr',
      frame_iteration os fuel p master_fd child_pid tr = Ret it tr' ->
      exists ext,
        tr' = tr ++ ext /\
        ((it = Next (parser_consume p (5 + n)) /\
          written master_fd ext = Mem.read (contents p) 5 n /\
          len (parser_consume p (5 + n)) = len p - (5 + n) /\
          contents (parser_consume p (5 + n)) = skipn (Z.to_nat (5 + n)) (contents p)) \/
         it = Return (-1)))).
Proof.
  intros Hsane Hok Hop n.
  destruct (data_frame_spec os fuel p master_fd child_pid tr Hok Hop) as (Hshort & Hlong).
  split; [apply (data_length_be p)|]. split; [exact Hshort|].
  intros H5 Hnowrap. destruct (Hlong H5 Hnowrap) as (Hpart & Hfull).
  split; [exact Hpart|]. intros Hall it tr' H.
  destruct (Hfull Hall) as (_ & Hl & Hc & _).
  destruct it as [p'|r].
  - destruct (data_frame_written os Hsane fuel p master_fd child_pid tr p' tr'
                Hok Hop Hnowrap Hall H) as (-> & ext & -> & Hwr).
    exists ext. split; [reflexivity|]. left. now repeat split.
  - apply frame_iteration_log in H; [|lia].
    destruct H as (ext & -> & _ & [(-> & _ & Hinc)|(-> & _)]).
    + exfalso. destruct Hinc as [(_ & [Hlt|Hlt])|(Hr & _)].
      * lia.
      * pose proof (data_length_range p). rewrite u32_small in Hlt by (subst n; lia).
        subst n. lia.
      * rewrite Hop in Hr. discriminate Hr.
    + exists ext. split; [reflexivity|]. now right.
Qed.

Lemma data_frame_delivered_witness :
  parser_ok (parser_of data_abc_partial) /\
  frame_iteration os_chunked 2 (parser_of data_abc_partial) 3 100 [] = Ret (Return 0) [].
Proof.
  assert (Hok : parser_ok (parser_of data_abc_partial)) by concrete.
  split; [exact Hok|].
  apply (proj1 (proj2 (proj2 (data_frame_delivered os_chunked 2
                                (parser_of data_abc_partial) 3 100 []
                                os_chunked_sane Hok eq_refl))
                 ltac:(vm_compute; discriminate) ltac:(reflexivity)));
    reflexivity.
Defined.

Section DecoderReturns.

Variable os : OS.
Hypothesis progress : os_write_progress os.

Lemma frame_iteration_returns_progress p master_fd child_pid tr :
  exists fuel it tr',
    frame_iteration os fuel p master_fd child_pid tr = Ret it tr'.
Proof.
  assert (Hsize : 0 <= usize (data_length p) < 2 ^ SIZE_BITS)
    by (unfold usize, wrap; apply Z.mod_pos_bound; vm_compute; reflexivity).
  destruct (write_all_from_returns os (Z.to_nat (usize (data_length p))) master_fd
              (Mem.offset (buf p) 5) (usize (data_length p)) 0 tr progress)
    as (tr1 & Hw & _); try lia.
  exists (Z.to_nat (usize (data_length p))).
  unfold frame_iteration.
  destruct (_ =? OPCODE_DATA); [|destruct (_ =? OPCODE_RESIZE); [|destruct (_ =? OPCODE_CLOSE)]].
  - destruct (len p <? 5); [eexists _, _; reflexivity|].
    destruct (len p <? _); [eexists _, _; reflexivity|].
    unfold bind. destruct (data_length p >? 0).
    + unfold write_all. rewrite Hw. eexists _, _; reflexivity.
    + eexists _, _; reflexivity.
  - destruct (len p <? 5); [eexists _, _; reflexivity|].
    unfold bind, ioctl_TIOCSWINSZ. cbv zeta.
    destruct (negb (_ =? 0)); [eexists _, _; reflexivity|].
    match goal with
    | |- context [signal_child os child_pid SIGWINCH ?t] =>
        destruct (signal_child_events os child_pid SIGWINCH t) as (rs & ext & -> & _)
    end.
    eexists _, _; reflexivity.
  - unfold bind.
    destruct (signal_child_events os child_pid SIGHUP tr) as (rs & ext & -> & _).
    eexists _, _; reflexivity.
  - eexists _, _; reflexivity.
Qed.

Lemma decoder_returns_by_length master_fd child_pid : forall n p tr,
  parser_ok p -> (Z.to_nat (len p) <= n)%nat -> wrap_free (contents p) ->
  exists N x tr',
    forall fuel, (N <= fuel)%nat ->
      parse_and_apply_frames os fuel p master_fd child_pid tr = Ret x tr'.
Proof.
  assert (Hempty : forall p tr, len p <= 0 ->
            exists N x tr', forall fuel, (N <= fuel)%nat ->
              parse_and_apply_frames os fuel p master_fd child_pid tr = Ret x tr').
  { intros p tr Hz. exists 0%nat, (0, p), tr. intros fuel _.
    destruct fuel; cbn [parse_and_apply_frames];
      destruct (Z.gtb_spec (len p) 0); try lia; reflexivity. }
  induction n as [|n IH]; intros p tr Hok Hn Hfree.
  - apply Hempty. lia.
  - destruct (Z.le_gt_cases (len p) 0) as [Hz|Hpos]; [now apply Hempty|].
    destruct (frame_iteration_returns_progress p master_fd child_pid tr)
      as (f0 & it & tr1 & Hit).
    assert (Hround : forall fuel, (S f0 <= fuel)%nat ->
              parse_and_apply_frames os fuel p master_fd child_pid tr
              = match it with
                | Next p' => parse_and_apply_frames os (pred fuel) p' master_fd child_pid tr1
                | Return r => Ret (r, p) tr1
                end).
    { intros fuel Hfuel. destruct fuel as [|fuel]; [lia|].
      cbn [parse_and_apply_frames pred].
      destruct (Z.gtb_spec (len p) 0); [|lia].
      unfold bind.
      rewrite (frame_iteration_mono os f0 fuel _ _ _ _ _ _ ltac:(lia) Hit).
      now destruct it. }
    destruct it as [p'|r].
    + assert (Hnz : u8 (Mem.at_ (buf p) 0) = OPCODE_DATA -> 5 <= len p ->
                    u32 (5 + data_length p) <> 0).
      { intros Hop H5 Hz.
        pose proof (zero_sum_is_wrap_header p Hok H5 Hop Hz) as Hhdr.
        specialize (Hfree 0%nat). cbn [skipn] in Hfree. congruence. }
      destruct (frame_iteration_progress os f0 p master_fd child_pid tr p' tr1
                  Hok Hpos Hnz Hit)
        as (k & Hk & -> & Hok' & Hl' & Hc').
      destruct (IH (parser_consume p k) tr1 Hok') as (N & x & tr' & Hrun).
      { lia. }
      { rewrite Hc'. now apply wrap_free_skipn. }
      exists (S (Nat.max f0 N)), x, tr'. intros fuel Hfuel.
      rewrite Hround by lia. apply Hrun. lia.
    + exists (S f0), (r, p), tr1. intros fuel Hfuel. now rewrite Hround.
Qed.

End DecoderReturns.

(** X5 (the decoder returns).  When every [write] of at least one byte
    takes at least one, the decoder returns on every well-formed buffer
    that holds the bytes [01 FF FF FF FB] nowhere: some amount of fuel
    is enough, and more fuel gives the same result. *)
Theorem decoder_returns (os : OS) (p : parser) (master_fd child_pid : Z) (tr : trace) :
  os_write_progress os ->
  parser_ok p ->
  wrap_free (contents p) ->
  exists N x tr',
    forall fuel, (N <= fuel)%nat ->
      parse_and_apply_frames os fuel p master_fd child_pid tr = Ret x tr'.
Proof.
  intros Hprog Hok Hfree.
  now apply (decoder_returns_by_length os Hprog master_fd child_pid
               (Z.to_nat (len p)) p tr Hok).
Qed.

Lemma data_abc_close_wrap_free : wrap_free (contents (parser_of data_abc_close)).
Proof.
  intros i. do 10 (destruct i as [|i]; [reflexivity|]). reflexivity.
Qed.

Lemma decoder_returns_witness :
  exists N x tr',
    forall fuel, (N <= fuel)%nat ->
      parse_and_apply_frames os_chunked fuel (parser_of data_abc_close) 3 100 []
      = Ret x tr'.
Proof.
  apply (decoder_returns os_chunked (parser_of data_abc_close) 3 100 []
           os_chunked_progress).
  - concrete.
  - exact data_abc_close_wrap_free.
Defined.

(** X6 (the decoder and the buffer).  Whatever the decoder returns, it
    leaves a well-formed buffer of the same capacity whose pending
    bytes are what was pending before minus some bytes taken from the
    front: it never reorders, rewrites or adds pending bytes, and never
    reallocates. *)
Theorem decoder_keeps_buffer (os : OS) (fuel : nat) (p : parser)
  (master_fd child_pid : Z) (tr : trace) (r : Z) (p' : parser) (tr' : trace) :
  parser_ok p ->
  parse_and_apply_frames os fuel p master_fd child_pid tr = Ret (r, p') tr' ->
  parser_ok p' /\ cap p' = cap p /\
  exists k, 0 <= k <= len p /\ len p' = len p - k /\
            contents p' = skipn (Z.to_nat k) (contents p).
Proof.
  intros Hok H.
  destruct (parse_and_apply_frames_log os master_fd child_pid fuel p tr r p' tr' Hok H)
    as (ext & k & _ & _ & Hk & Hok' & Hcap & Hl & Hc & _).
  split; [exact Hok'|]. split; [exact Hcap|]. now exists k.
Qed.

Lemma decoder_keeps_buffer_witness :
  exists p' tr',
    parse_and_apply_frames os_pty_breaks 4
      (parser_of (noise_then_close ++ data_abc_partial)) 3 100 [] = Ret (0, p') tr' /\
    parser_ok p' /\ cap p' = 9 /\
    exists k, 0 <= k <= 9 /\ len p' = 9 - k /\
              contents p' = skipn (Z.to_nat k) (noise_then_close ++ data_abc_partial).
Proof.
  eexists _, _. split; [vm_compute; reflexivity|].
  eapply (decoder_keeps_buffer os_pty_breaks 4
            (parser_of (noise_then_close ++ data_abc_partial)) 3 100 [] 0).
  - concrete.
  - vm_compute. reflexivity.
Defined.

(** X7 (what ends the decoder early).  The decoder returns [0] or
    [-1].  It returns [-1] only right after a [write] to the
    pseudoterminal failed with an error other than [EINTR] or the
    window-size [ioctl] failed, and then the frame that failed is still
    pending.  A failure to reach the child with a signal never makes it
    return [-1]. *)
Theorem decoder_fails_on_pty_errors_only (os : OS) (fuel : nat) (p : parser)
  (master_fd child_pid : Z) (tr : trace) (r : Z) (p' : parser) (tr' : trace) :
  parser_ok p ->
  parse_and_apply_frames os fuel p master_fd child_pid tr = Ret (r, p') tr' ->
  r = 0 \/
  (r = -1 /\ 0 < len p' /\
   exists ext0 e, tr' = tr ++ ext0 ++ [e] /\ decoder_fatal master_fd e = true).
Proof.
  intros Hok H.
  destruct (parse_and_apply_frames_log os master_fd child_pid fuel p tr r p' tr' Hok H)
    as (ext & k & -> & _ & _ & _ & _ & _ & _ & [(-> & _)|(-> & Hlen & ext0 & e & -> & He)]).
  - now left.
  - right. split; [reflexivity|]. split; [exact Hlen|]. now exists ext0, e.
Qed.

Lemma decoder_fails_on_pty_errors_only_witness :
  exists p',
    parse_and_apply_frames os_pty_breaks 3 (parser_of data_abc_close) 3 100 []
    = Ret (-1, p')
        [EWrite 3 [Byte.x61; Byte.x62; Byte.x63] 3 (SysOk 2);
         EWrite 3 [Byte.x63] 1 (SysErr 5)] /\
    (-1 = 0 \/
     (-1 = -1 /\ 0 < len p' /\
      exists ext0 e,
        [EWrite 3 [Byte.x61; Byte.x62; Byte.x63] 3 (SysOk 2);
         EWrite 3 [Byte.x63] 1 (SysErr 5)] = [] ++ ext0 ++ [e] /\
        decoder_fatal 3 e = true)).
Proof.
  eexists. split; [vm_compute; reflexivity|].
  eapply (decoder_fails_on_pty_errors_only os_pty_breaks 3 (parser_of data_abc_close)
            3 100 [] (-1)).
  - concrete.
  - vm_compute. reflexivity.
Defined.

(** X8 (the decoder runs to completion).  When the decoder returns
    [0], nothing that it could decode is left: the buffer is empty, or
    it starts with a Data or Resize frame that is not complete yet. *)
Theorem decoder_stops_at_incomplete_frame (os : OS) (fuel : nat) (p : parser)
  (master_fd child_pid : Z) (tr : trace) (p' : parser) (tr' : trace) :
  parser_ok p ->
  parse_and_apply_frames os fuel p master_fd child_pid tr = Ret (0, p') tr' ->
  len p' = 0 \/ incomplete_frame p'.
Proof.
  intros Hok H.
  destruct (parse_and_apply_frames_log os master_fd child_pid fuel p tr 0 p' tr' Hok H)
    as (ext & k & _ & _ & _ & _ & _ & _ & _ & [(_ & Hdone)|(Hr & _)]).
  - exact Hdone.
  - discriminate Hr.
Qed.

Lemma decoder_stops_at_incomplete_frame_witness :
  exists p' tr',
    parse_and_apply_frames os_pty_breaks 4
      (parser_of (noise_then_close ++ data_abc_partial)) 3 100 [] = Ret (0, p') tr' /\
    contents p' = data_abc_partial /\
    (len p' = 0 \/ incomplete_frame p').
Proof.
  eexists _, _. split; [vm_compute; reflexivity|]. split; [reflexivity|].
  eapply (decoder_stops_at_incomplete_frame os_pty_breaks 4
            (parser_of (noise_then_close ++ data_abc_partial)) 3 100 []).
  - concrete.
  - vm_compute. reflexivity.
Defined.

(** X9 (what the decoder touches).  Every call of a decoder run is a
    [write] or a window-size [ioctl] on the pseudoterminal, a
    [getpgid] of the child, or a [SIGWINCH] or [SIGHUP] sent to the
    child or to the group it leads.  The decoder writes to no
    descriptor other than [master_fd], so it never writes to the
    controller output unless [openpty] returned the pseudoterminal as
    descriptor 1; it never reads, allocates, frees, closes, selects or
    waits for the child. *)
Theorem decoder_touches_pty_and_child_only (os : OS) (fuel : nat) (p : parser)
  (master_fd child_pid : Z) (tr : trace) (x : Z * parser) (tr' : trace) :
  parser_ok p ->
  parse_and_apply_frames os fuel p master_fd child_pid tr = Ret x tr' ->
  exists ext,
    tr' = tr ++ ext /\
    forallb (decoder_event master_fd child_pid) ext = true /\
    (forall fd, fd <> master_fd ->
       written fd ext = [] /\
       forall data count r, ~ In (EWrite fd data count r) ext) /\
    (master_fd <> STDOUT_FILENO ->
     forall data count r, ~ In (EWrite STDOUT_FILENO data count r) ext) /\
    (forall e, In e ext ->
       match e with
       | ERead _ _ _ | EMalloc _ _ | ERealloc _ _ | EFree | EClose _
       | EWaitpid _ _ _ _ | ESelect _ _ => False
       | _ => True
       end).
Proof.
  intros Hok H. destruct x as [r p'].
  destruct (parse_and_apply_frames_log os master_fd child_pid fuel p tr r p' tr' Hok H)
    as (ext & k & -> & Hdec & _).
  exists ext. split; [reflexivity|]. split; [exact Hdec|].
  assert (Hall := Hdec). rewrite forallb_forall in Hall.
  assert (Hw : forall fd, fd <> master_fd ->
                 forall data count r, ~ In (EWrite fd data count r) ext).
  { intros fd Hne data count wr Hin. apply Hall in Hin. cbn [decoder_event] in Hin.
    apply Z.eqb_eq in Hin. contradiction. }
  split; [|split].
  - intros fd Hne. split; [|now apply Hw].
    clear Hall Hw H. induction ext as [|e ext IH]; [reflexivity|].
    cbn [forallb] in Hdec. apply andb_true_iff in Hdec. destruct Hdec as [He Hrest].
    cbn [written flat_map]. change (flat_map _ ext) with (written fd ext).
    rewrite (IH Hrest), app_nil_r.
    destruct e as [| | |wfd wdata wcount wr| | | | | | | |]; try reflexivity.
    cbn [decoder_event] in He. apply Z.eqb_eq in He. subst wfd.
    destruct wr; [|reflexivity].
    destruct (Z.eqb_spec master_fd fd); [congruence|reflexivity].
  - intros Hne. apply Hw. congruence.
  - intros e Hin. apply Hall in Hin. destruct e; try discriminate Hin; exact I.
Qed.

Lemma decoder_touches_pty_and_child_only_witness :
  exists x tr',
    parse_and_apply_frames os_chunked 4
      (parser_of (resize_80x24 ++ data_abc_close)) 3 100 [] = Ret x tr' /\
    written 3 tr' = [Byte.x61; Byte.x62; Byte.x63] /\
    written STDOUT_FILENO tr' = [] /\
    exists ext,
      tr' = [] ++ ext /\
      forallb (decoder_event 3 100) ext = true /\
      (forall fd, fd <> 3 ->
         written fd ext = [] /\
         forall data count r, ~ In (EWrite fd data count r) ext) /\
      (3 <> STDOUT_FILENO ->
       forall data count r, ~ In (EWrite STDOUT_FILENO data count r) ext) /\
      (forall e, In e ext ->
         match e with
         | ERead _ _ _ | EMalloc _ _ | ERealloc _ _ | EFree | EClose _
         | EWaitpid _ _ _ _ | ESelect _ _ => False
         | _ => True
         end).
Proof.
  eexists _, _. split; [vm_compute; reflexivity|].
  split; [reflexivity|]. split; [reflexivity|].
  eapply (decoder_touches_pty_and_child_only os_chunked 4
            (parser_of (resize_80x24 ++ data_abc_close)) 3 100 []).
  - concrete.
  - vm_compute. reflexivity.
Defined.

(** X10 (Close).  A Close frame asks for the group of the child and
    hangs it up with [SIGHUP]; whatever [signal_child] returns, the one
    byte is consumed and decoding goes on with the next byte.  A lone
    Close therefore makes the decoder return [0], also when the child
    could not be signalled: a Close never ends the session by
    itself. *)
Theorem close_frame (os : OS) (fuel : nat) (p : parser) (master_fd child_pid : Z)
  (tr : trace) :
  parser_ok p ->
  0 < len p ->
  u8 (Mem.at_ (buf p) 0) = OPCODE_CLOSE ->
  exists rs tr2,
    signal_child os child_pid SIGHUP tr = Ret rs tr2 /\
    frame_iteration os fuel p master_fd child_pid tr
    = Ret (Next (parser_consume p 1)) tr2 /\
    len (parser_consume p 1) = len p - 1 /\
    contents (parser_consume p 1) = skipn 1 (contents p) /\
    parse_and_apply_frames os (S fuel) p master_fd child_pid tr
    = parse_and_apply_frames os fuel (parser_consume p 1) master_fd child_pid tr2 /\
    (len p = 1 ->
     parse_and_apply_frames os (S fuel) p master_fd child_pid tr
     = Ret (0, parser_consume p 1) tr2).
Proof.
  intros Hok Hlen Hop.
  destruct (signal_child_events os child_pid SIGHUP tr) as (rs & ext & Hs & _).
  exists rs, (tr ++ ext). split; [exact Hs|].
  assert (Hit : frame_iteration os fuel p master_fd child_pid tr
                = Ret (Next (parser_consume p 1)) (tr ++ ext)).
  { unfold frame_iteration. rewrite Hop.
    cbn [Z.eqb OPCODE_DATA OPCODE_RESIZE OPCODE_CLOSE Pos.eqb].
    unfold bind. rewrite Hs. reflexivity. }
  destruct (parser_consume_front p 1 Hok) as (Hl & Hc); [lia|].
  split; [exact Hit|]. split; [exact Hl|]. split; [exact Hc|].
  assert (Hrun : parse_and_apply_frames os (S fuel) p master_fd child_pid tr
                 = parse_and_apply_frames os fuel (parser_consume p 1) master_fd
                     child_pid (tr ++ ext)).
  { cbn [parse_and_apply_frames]. destruct (Z.gtb_spec (len p) 0); [|lia].
    unfold bind. rewrite Hit. reflexivity. }
  split; [exact Hrun|].
  intros H1. rewrite Hrun.
  destruct fuel; cbn [parse_and_apply_frames];
    destruct (Z.gtb_spec (len (parser_consume p 1)) 0); try lia; reflexivity.
Qed.

Lemma close_frame_witness :
  exists rs tr2,
    signal_child os_pty_breaks 100 SIGHUP [] = Ret rs tr2 /\
    rs = -1 /\
    parse_and_apply_frames os_pty_breaks 1 (parser_of [Byte.x03]) 3 100 []
    = Ret (0, parser_consume (parser_of [Byte.x03]) 1) tr2.
Proof.
  destruct (close_frame os_pty_breaks 0 (parser_of [Byte.x03]) 3 100 [])
    as (rs & tr2 & Hs & _ & _ & _ & _ & Hrun); [concrete|reflexivity|reflexivity|].
  exists rs, tr2. split; [exact Hs|]. split.
  - vm_compute in Hs. now inversion Hs.
  - now apply Hrun.
Defined.

(** ** The session loop as a whole *)

Lemma decoder_event_session master_fd pid ext :
  forallb (decoder_event master_fd pid) ext = true ->
  forallb (session_event master_fd pid) ext = true.
Proof.
  induction ext as [|e ext IH]; [reflexivity|].
  cbn [forallb]. intros H. apply andb_true_iff in H. destruct H as [He Hall].
  rewrite (IH Hall), andb_true_r. unfold session_event. now rewrite He.
Qed.

Lemma stdout_writes_session master_fd pid ext :
  forallb (is_write_to STDOUT_FILENO) ext = true ->
  forallb (session_event master_fd pid) ext = true.
Proof.
  induction ext as [|e ext IH]; [reflexivity|].
  cbn [forallb]. intros H. apply andb_true_iff in H. destruct H as [He Hall].
  rewrite (IH Hall), andb_true_r.
  destruct e; try discriminate He. cbn [is_write_to] in He.
  unfold session_event. rewrite He. apply orb_true_r.
Qed.

Lemma stdout_writes_drain master_fd pid ext :
  forallb (is_write_to STDOUT_FILENO) ext = true ->
  forallb (drain_event master_fd pid) ext = true.
Proof.
  induction ext as [|e ext IH]; [reflexivity|].
  cbn [forallb]. intros H. apply andb_true_iff in H. destruct H as [He Hall].
  rewrite (IH Hall), andb_true_r.
  destruct e; try discriminate He. exact He.
Qed.

Section SessionLog.

Variable os : OS.
Context {wait_macros : WaitStatus}.

Lemma child_exit_code_range status : 0 <= child_exit_code status < 256.
Proof.
  unfold child_exit_code.
  pose proof (WEXITSTATUS_range status). pose proof (WTERMSIG_range status).
  destruct (WIFEXITED status); [lia|]. destruct (WIFSIGNALED status); lia.
Qed.

Lemma parse_and_apply_frames_calls master_fd child_pid fuel : forall p tr x tr',
  parse_and_apply_frames os fuel p master_fd child_pid tr = Ret x tr' ->
  exists ext,
    tr' = tr ++ ext /\ forallb (decoder_event master_fd child_pid) ext = true.
Proof.
  induction fuel as [|fuel IH]; intros p tr x tr' H;
    cbn [parse_and_apply_frames] in H; destruct (Z.gtb_spec (len p) 0) as [Hpos|Hz];
    try discriminate H;
    try (inversion H; subst; exists []; now rewrite app_nil_r).
  unfold bind in H.
  destruct (frame_iteration os fuel p master_fd child_pid tr) as [it tr1|] eqn:Hit;
    [|discriminate].
  apply frame_iteration_log in Hit; [|lia].
  destruct Hit as (ext1 & -> & Hdec1 & _).
  destruct it as [p1|r1].
  - apply IH in H. destruct H as (ext2 & -> & Hdec2).
    exists (ext1 ++ ext2). rewrite app_assoc. split; [reflexivity|].
    rewrite forallb_app. now rewrite Hdec1, Hdec2.
  - inversion H; subst. now exists ext1.
Qed.

Lemma parser_append_calls master_fd pid p data tr x tr' :
  parser_append os p data tr = Ret x tr' ->
  exists ext,
    tr' = tr ++ ext /\ forallb (session_event master_fd pid) ext = true.
Proof.
  unfold parser_append.
  destruct (_ =? 0); [unfold ret; intros [= _ <-]; exists []; now rewrite app_nil_r|].
  destruct (_ >? cap p).
  - destruct (grow_cap _ _ _) as [next_cap|]; [|discriminate].
    unfold bind, realloc, ret.
    destruct (os_realloc os tr next_cap); intros [= _ <-];
      (eexists [_]; split; [reflexivity|reflexivity]).
  - unfold bind, ret. intros [= _ <-]. exists []. now rewrite app_nil_r.
Qed.

(** [leave]: free, close, return. *)
Lemma leave_log p master_fd code tr :
  leave p master_fd code tr = Ret (Return code) (tr ++ [EFree; EClose master_fd]).
Proof.
  unfold leave, parser_deinit, free, close, log, bind, ret.
  now rewrite <- app_assoc.
Qed.

End SessionLog.

Lemma session_event_keeps master_fd pid ext :
  forallb (session_event master_fd pid) ext = true -> existsb releases ext = false.
Proof.
  induction ext as [|e ext IH]; [reflexivity|].
  cbn [forallb existsb]. intros H. apply andb_true_iff in H. destruct H as [He Hall].
  rewrite (IH Hall), orb_false_r. destruct e; try reflexivity; discriminate He.
Qed.

Section SessionRun.

Variable os : OS.
Context {wait_macros : WaitStatus}.

Lemma ends_well_after master_fd pid tr pre i tr' :
  forallb (session_event master_fd pid) pre = true ->
  ends_well master_fd pid (tr ++ pre) i tr' ->
  ends_well master_fd pid tr i tr'.
Proof.
  intros Hpre (ext & Hext & Hend). exists (pre ++ ext).
  split; [rewrite forallb_app; now rewrite Hpre, Hext|].
  destruct i as [s'|code].
  - now rewrite Hend, app_assoc.
  - destruct Hend as (-> & Hrange & Hcode).
    split; [now rewrite <- !app_assoc|]. split; [exact Hrange|].
    destruct Hcode as [->|(ext0 & nohang & r & st & -> & Hc & Hr)]; [now left|].
    right. exists (pre ++ ext0), nohang, r, st.
    split; [now rewrite app_assoc|]. now split.
Qed.

Lemma ends_well_next master_fd pid tr s :
  ends_well master_fd pid tr (Next s) tr.
Proof. exists []. split; [reflexivity|]. now rewrite app_nil_r. Qed.

Lemma ends_well_leave master_fd pid tr :
  ends_well master_fd pid tr (Return 1) (tr ++ [EFree; EClose master_fd]).
Proof.
  exists []. split; [reflexivity|]. split; [reflexivity|]. split; [lia|now left].
Qed.

Lemma stdin_phase_ends fuel master_fd pid s ready tr i tr' :
  stdin_phase os fuel master_fd pid s ready tr = Ret i tr' ->
  ends_well master_fd pid tr i tr'.
Proof.
  unfold stdin_phase.
  destruct (stdin_open s && ready);
    [|unfold ret; intros [= <- <-]; apply ends_well_next].
  unfold bind at 1. unfold read. cbv zeta.
  set (r := os_read os tr STDIN_FILENO IO_BUF_SIZE).
  set (e := ERead STDIN_FILENO IO_BUF_SIZE r).
  assert (He : forallb (session_event master_fd pid) [e] = true).
  { subst e. reflexivity. }
  intros H. apply (ends_well_after master_fd pid tr [e]); [exact He|].
  destruct r as [data|errno].
  - destruct (Z.of_nat (length data) =? 0);
      [unfold ret in H; inversion H; subst; apply ends_well_next|].
    unfold bind at 1 in H.
    destruct (parser_append os (sess_parser s) data (tr ++ [e])) as [a tr2|] eqn:Ha;
      [|discriminate].
    apply (parser_append_calls os master_fd pid) in Ha. destruct Ha as (ext2 & -> & H2).
    apply (ends_well_after master_fd pid _ ext2); [exact H2|].
    destruct (negb (fst a =? 0)).
    { rewrite leave_log in H. inversion H; subst.
      apply ends_well_leave. }
    unfold bind at 1 in H.
    destruct (parse_and_apply_frames os fuel (snd a) master_fd pid _) as [d tr3|] eqn:Hd;
      [|discriminate].
    apply parse_and_apply_frames_calls in Hd. destruct Hd as (ext3 & -> & H3).
    apply (ends_well_after master_fd pid _ ext3);
      [now apply decoder_event_session|].
    destruct (negb (fst d =? 0)).
    { rewrite leave_log in H. inversion H; subst.
      apply ends_well_leave. }
    unfold ret in H. inversion H; subst. apply ends_well_next.
  - destruct (negb (errno =? EINTR)); unfold ret in H; inversion H; subst;
      apply ends_well_next.
Qed.

Lemma master_phase_ends fuel master_fd pid s ready tr i tr' :
  master_phase os fuel master_fd pid s ready tr = Ret i tr' ->
  ends_well master_fd pid tr i tr'.
Proof.
  unfold master_phase.
  destruct ready; [|unfold ret; intros [= <- <-]; apply ends_well_next].
  unfold bind at 1. unfold read. cbv zeta.
  set (r := os_read os tr master_fd IO_BUF_SIZE).
  set (e := ERead master_fd IO_BUF_SIZE r).
  assert (He : forallb (session_event master_fd pid) [e] = true).
  { subst e. cbn [forallb]. unfold session_event, decoder_event.
    rewrite Z.eqb_refl, orb_true_r. reflexivity. }
  intros H. apply (ends_well_after master_fd pid tr [e]); [exact He|].
  destruct r as [data|errno].
  - destruct (Z.of_nat (length data) =? 0).
    + unfold bind at 1 in H. unfold waitpid in H. cbv zeta in H.
      rewrite leave_log in H. inversion H; subst. clear H.
      set (w := os_waitpid os (tr ++ [e]) pid false).
      exists [EWaitpid pid false (fst w) (snd w)].
      split; [cbn [forallb]; unfold session_event, decoder_event;
              rewrite Z.eqb_refl; reflexivity|].
      split; [now rewrite <- !app_assoc|].
      split; [apply child_exit_code_range|].
      right. exists [], false, (fst w), (snd w).
      split; [reflexivity|]. split; [reflexivity|discriminate].
    + unfold bind at 1 in H.
      destruct (write_all os fuel STDOUT_FILENO data _ (tr ++ [e])) as [w tr2|] eqn:Hw;
        [|discriminate].
      apply write_all_from_log in Hw. destruct Hw as (ext2 & -> & H2 & _).
      apply (ends_well_after master_fd pid _ ext2);
        [now apply stdout_writes_session|].
      destruct (negb (w =? 0)).
      * rewrite leave_log in H. inversion H; subst.
        apply ends_well_leave.
      * unfold ret in H. inversion H; subst. apply ends_well_next.
  - destruct (errno =? EINTR).
    + unfold ret in H. inversion H; subst. apply ends_well_next.
    + rewrite leave_log in H. inversion H; subst.
      apply ends_well_leave.
Qed.

Lemma session_iteration_ends fuel master_fd pid s tr i tr' :
  session_iteration os fuel master_fd pid s tr = Ret i tr' ->
  ends_well master_fd pid tr i tr'.
Proof.
  unfold session_iteration.
  unfold bind at 1. unfold waitpid. cbv zeta.
  set (w := os_waitpid os tr pid true).
  set (e0 := EWaitpid pid true (fst w) (snd w)).
  assert (He0 : forallb (session_event master_fd pid) [e0] = true).
  { subst e0. cbn [forallb]. unfold session_event, decoder_event.
    rewrite Z.eqb_refl. reflexivity. }
  destruct (Z.eqb_spec (fst w) pid) as [Hpid|Hne].
  - rewrite leave_log. intros [= <- <-].
    exists [e0]. split; [exact He0|]. split; [now rewrite <- !app_assoc|].
    split; [apply child_exit_code_range|].
    right. exists [], true, (fst w), (snd w).
    split; [reflexivity|]. split; [reflexivity|now intros _].
  - intros H. apply (ends_well_after master_fd pid tr [e0]); [exact He0|].
    unfold bind at 1 in H. unfold select in H. cbv zeta in H.
    set (sel := os_select os (tr ++ [e0]) (stdin_open s)) in H.
    set (e1 := ESelect (stdin_open s) sel) in H.
    apply (ends_well_after master_fd pid _ [e1]); [reflexivity|].
    destruct sel as [[stdin_ready master_ready]|errno].
    + unfold bind at 1 in H.
      destruct (stdin_phase os fuel master_fd pid s stdin_ready _) as [j tr2|] eqn:Hs;
        [|discriminate].
      apply stdin_phase_ends in Hs.
      destruct j as [s'|code].
      * destruct Hs as (ext & Hext & ->).
        apply (ends_well_after master_fd pid _ ext); [exact Hext|].
        now apply master_phase_ends in H.
      * unfold ret in H. inversion H; subst. exact Hs.
    + destruct (errno =? EINTR).
      * unfold ret in H. inversion H; subst. apply ends_well_next.
      * rewrite leave_log in H. inversion H; subst.
        apply ends_well_leave.
Qed.

Lemma session_loop_ends master_fd pid fuel : forall s tr code tr',
  session_loop os fuel master_fd pid s tr = Ret code tr' ->
  ends_well master_fd pid tr (Return code) tr'.
Proof.
  induction fuel as [|fuel IH]; intros s tr code tr' H; [discriminate H|].
  cbn [session_loop] in H. unfold bind in H.
  destruct (session_iteration os fuel master_fd pid s tr) as [i tr1|] eqn:Hi;
    [|discriminate].
  apply session_iteration_ends in Hi.
  destruct i as [s'|c].
  - destruct Hi as (ext & Hext & ->).
    apply (ends_well_after master_fd pid _ ext); [exact Hext|].
    now apply IH in H.
  - unfold ret in H. inversion H; subst. exact Hi.
Qed.

End SessionRun.

(** X11 (release on every exit path).  However the session loop
    returns, its last two calls free the Frame Buffer and close the
    pseudoterminal, and nothing was freed or closed before: each is
    released exactly once.  Every earlier call is a poll or wait for
    the child, a [select], a read of the controller input or of the
    pseudoterminal, a growth of the Frame Buffer, a decoder call or a
    write to the controller output. *)
Theorem session_releases_once (os : OS) (W : WaitStatus) (fuel : nat)
  (master_fd pid : Z) (s : session) (tr : trace) (code : Z) (tr' : trace) :
  session_loop os fuel master_fd pid s tr = Ret code tr' ->
  exists ext,
    tr' = tr ++ ext ++ [EFree; EClose master_fd] /\
    forallb (session_event master_fd pid) ext = true /\
    existsb releases ext = false.
Proof.
  intros H. apply session_loop_ends in H.
  destruct H as (ext & Hext & -> & _).
  exists ext. split; [reflexivity|]. split; [exact Hext|].
  now apply (session_event_keeps master_fd pid).
Qed.

(** X12 (exit code of the session).  The code that the session loop
    returns lies between 0 and 255.  It is [1], or it is the mapped
    status of the child as the last [waitpid] before the release
    reported it, and a non-blocking [waitpid] counts only when it
    returned the child. *)
Theorem session_exit_code (os : OS) (W : WaitStatus) (fuel : nat)
  (master_fd pid : Z) (s : session) (tr : trace) (code : Z) (tr' : trace) :
  session_loop os fuel master_fd pid s tr = Ret code tr' ->
  0 <= code < 256 /\
  (code = 1 \/
   exists ext0 nohang r st,
     tr' = tr ++ ext0 ++ [EWaitpid pid nohang r st; EFree; EClose master_fd] /\
     code = child_exit_code (status_of st) /\
     (nohang = true -> r = pid)).
Proof.
  intros H. apply session_loop_ends in H.
  destruct H as (ext & _ & -> & Hrange & Hcode).
  split; [exact Hrange|].
  destruct Hcode as [->|(ext0 & nohang & r & st & -> & Hc & Hr)]; [now left|].
  right. exists ext0, nohang, r, st.
  split; [now rewrite <- !app_assoc|]. now split.
Qed.

Lemma session_releases_once_witness :
  exists code tr',
    session_loop os_wait_fails 2 3 100 session4 [] = Ret code tr' /\
    exists ext,
      tr' = [] ++ ext ++ [EFree; EClose 3] /\
      forallb (session_event 3 100) ext = true /\
      existsb releases ext = false.
Proof.
  eexists _, _. split; [vm_compute; reflexivity|].
  eapply (session_releases_once os_wait_fails glibc_wait 2 3 100 session4 []).
  vm_compute. reflexivity.
Defined.

(** The final [waitpid] of [os_wait_fails] stores no status: the
    session reports the mapped code of status [0], which is [0]. *)
Lemma session_exit_code_witness :
  session_loop os_wait_fails 2 3 100 session4 []
  = Ret 0 [EWaitpid 100 true (-1) None;
           ESelect true (SysOk (false, true));
           ERead 3 IO_BUF_SIZE (SysOk []);
           EWaitpid 100 false (-1) None;
           EFree; EClose 3] /\
  0 <= 0 < 256 /\
  (0 = 1 \/
   exists ext0 nohang r st,
     [EWaitpid 100 true (-1) None;
      ESelect true (SysOk (false, true));
      ERead 3 IO_BUF_SIZE (SysOk []);
      EWaitpid 100 false (-1) None;
      EFree; EClose 3]
     = [] ++ ext0 ++ [EWaitpid 100 nohang r st; EFree; EClose 3] /\
     0 = child_exit_code (status_of st) /\
     (nohang = true -> r = 100)).
Proof.
  split; [vm_compute; reflexivity|].
  apply (session_exit_code os_wait_fails glibc_wait 2 3 100 session4 []).
  vm_compute. reflexivity.
Defined.

Section Drain.

Variable os : OS.
Context {wait_macros : WaitStatus}.

Lemma master_phase_drain fuel master_fd pid s ready tr i tr' :
  master_phase os fuel master_fd pid s ready tr = Ret i tr' ->
  exists ext,
    tr' = tr ++ ext /\
    forallb (drain_event master_fd pid) ext = true /\
    match i with Next s' => s' = s | Return _ => True end.
Proof.
  unfold master_phase.
  destruct ready;
    [|unfold ret; intros [= <- <-]; exists []; now rewrite app_nil_r].
  unfold bind at 1. unfold read. cbv zeta.
  set (r := os_read os tr master_fd IO_BUF_SIZE).
  set (e := ERead master_fd IO_BUF_SIZE r).
  assert (He : drain_event master_fd pid e = true) by (subst e; apply Z.eqb_refl).
  assert (Hleave : forall p code t,
            leave p master_fd code (tr ++ e :: t) = Ret i tr' ->
            forallb (drain_event master_fd pid) t = true ->
            exists ext,
              tr' = tr ++ ext /\
              forallb (drain_event master_fd pid) ext = true /\
              match i with Next s' => s' = s | Return _ => True end).
  { intros p code t H Ht. rewrite leave_log in H. inversion H; subst.
    exists (e :: t ++ [EFree; EClose master_fd]).
    split; [now rewrite <- !app_assoc|]. split; [|exact I].
    cbn [forallb]. rewrite He, forallb_app, Ht. cbn [forallb drain_event].
    now rewrite Z.eqb_refl. }
  intros H. destruct r as [data|errno].
  - destruct (Z.of_nat (length data) =? 0).
    + unfold bind at 1 in H. unfold waitpid in H. cbv zeta in H.
      set (w := os_waitpid os (tr ++ [e]) pid false) in H.
      rewrite <- app_assoc in H. cbn [app] in H.
      apply (Hleave _ _ [EWaitpid pid false (fst w) (snd w)]) in H; [exact H|].
      cbn [forallb drain_event]. now rewrite Z.eqb_refl.
    + unfold bind at 1 in H.
      destruct (write_all os fuel STDOUT_FILENO data _ (tr ++ [e])) as [w tr2|] eqn:Hw;
        [|discriminate].
      apply write_all_from_log in Hw. destruct Hw as (ext2 & -> & H2 & _).
      apply (stdout_writes_drain master_fd pid) in H2.
      rewrite <- app_assoc in H. cbn [app] in H.
      destruct (negb (w =? 0)).
      * now apply (Hleave _ _ ext2) in H.
      * unfold ret in H. inversion H; subst.
        exists (e :: ext2). split; [reflexivity|]. split; [|reflexivity].
        cbn [forallb]. now rewrite He, H2.
  - destruct (errno =? EINTR).
    + unfold ret in H. inversion H; subst.
      exists [e]. split; [reflexivity|]. split; [|reflexivity].
      cbn [forallb]. now rewrite He.
    + now apply (Hleave _ _ []) in H.
Qed.

Lemma session_iteration_drain fuel master_fd pid s tr i tr' :
  stdin_open s = false ->
  session_iteration os fuel master_fd pid s tr = Ret i tr' ->
  exists ext,
    tr' = tr ++ ext /\
    forallb (drain_event master_fd pid) ext = true /\
    match i with Next s' => s' = s | Return _ => True end.
Proof.
  intros Hclosed. unfold session_iteration.
  unfold bind at 1. unfold waitpid. cbv zeta.
  set (w := os_waitpid os tr pid true).
  set (e0 := EWaitpid pid true (fst w) (snd w)).
  assert (He0 : drain_event master_fd pid e0 = true) by (subst e0; apply Z.eqb_refl).
  destruct (fst w =? pid).
  - rewrite leave_log. intros [= <- <-].
    exists [e0; EFree; EClose master_fd]. split; [now rewrite <- app_assoc|].
    split; [|exact I]. cbn [forallb]. rewrite He0. cbn [drain_event].
    now rewrite Z.eqb_refl.
  - unfold bind at 1. unfold select. cbv zeta. rewrite Hclosed.
    set (sel := os_select os (tr ++ [e0]) false).
    set (e1 := ESelect false sel).
    destruct sel as [[stdin_ready master_ready]|errno].
    + unfold bind at 1. unfold stdin_phase at 1. rewrite Hclosed. cbn [andb].
      unfold ret at 1. intros H. apply master_phase_drain in H.
      destruct H as (ext & -> & Hext & Hs).
      exists (e0 :: e1 :: ext). split; [now rewrite <- !app_assoc|].
      split; [|exact Hs]. cbn [forallb]. now rewrite He0, Hext.
    + destruct (errno =? EINTR).
      * unfold ret. intros [= <- <-]. exists [e0; e1].
        split; [now rewrite <- !app_assoc|]. split; [|reflexivity].
        cbn [forallb]. now rewrite He0.
      * rewrite leave_log. intros [= <- <-].
        exists [e0; e1; EFree; EClose master_fd].
        split; [now rewrite <- !app_assoc|]. split; [|exact I].
        cbn [forallb]. rewrite He0. cbn [drain_event]. now rewrite Z.eqb_refl.
Qed.

Lemma session_loop_drain master_fd pid fuel : forall s tr code tr',
  stdin_open s = false ->
  session_loop os fuel master_fd pid s tr = Ret code tr' ->
  exists ext, tr' = tr ++ ext /\ forallb (drain_event master_fd pid) ext = true.
Proof.
  induction fuel as [|fuel IH]; intros s tr code tr' Hclosed H; [discriminate H|].
  cbn [session_loop] in H. unfold bind in H.
  destruct (session_iteration os fuel master_fd pid s tr) as [i tr1|] eqn:Hi;
    [|discriminate].
  apply session_iteration_drain in Hi; [|exact Hclosed].
  destruct Hi as (ext1 & -> & H1 & Hs).
  destruct i as [s'|c].
  - subst s'. apply IH in H; [|exact Hclosed].
    destruct H as (ext2 & -> & H2).
    exists (ext1 ++ ext2). split; [now rewrite app_assoc|].
    rewrite forallb_app. now rewrite H1, H2.
  - unfold ret in H. inversion H; subst. now exists ext1.
Qed.

End Drain.

(** X13 (a closed controller input stays closed).  Once [stdin_open] is
    clear, all that the session loop does until it returns is poll or
    await the child, [select] on the pseudoterminal alone, read the
    pseudoterminal, write to the controller output, and release on the
    way out.  It never reads the controller input again when the
    pseudoterminal is not descriptor 0, it never writes to the
    pseudoterminal when the pseudoterminal is not descriptor 1, and
    whatever the descriptors it never resizes the pseudoterminal, asks
    for the group of the child, signals it, or allocates. *)
Theorem closed_input_stays_closed (os : OS) (W : WaitStatus) (fuel : nat)
  (master_fd pid : Z) (s : session) (tr : trace) (code : Z) (tr' : trace) :
  stdin_open s = false ->
  session_loop os fuel master_fd pid s tr = Ret code tr' ->
  exists ext,
    tr' = tr ++ ext /\
    forallb (drain_event master_fd pid) ext = true /\
    (master_fd <> STDIN_FILENO ->
     forall count r, ~ In (ERead STDIN_FILENO count r) ext) /\
    (master_fd <> STDOUT_FILENO ->
     forall data count r, ~ In (EWrite master_fd data count r) ext) /\
    (forall e, In e ext ->
       match e with
       | EIoctlWinsz _ _ _ _ | EGetpgid _ _ | EKillpg _ _ _ | EKill _ _ _
       | EMalloc _ _ | ERealloc _ _ => False
       | _ => True
       end).
Proof.
  intros Hclosed H.
  destruct (session_loop_drain os master_fd pid fuel s tr code tr' Hclosed H)
    as (ext & -> & Hdrain).
  exists ext. split; [reflexivity|]. split; [exact Hdrain|].
  rewrite forallb_forall in Hdrain.
  split; [|split].
  - intros Hne count r Hin. apply Hdrain in Hin. cbn [drain_event] in Hin.
    apply Z.eqb_eq in Hin. congruence.
  - intros Hne data count r Hin. apply Hdrain in Hin. cbn [drain_event] in Hin.
    apply Z.eqb_eq in Hin. congruence.
  - intros e Hin. apply Hdrain in Hin. destruct e; try discriminate Hin; exact I.
Qed.

Lemma closed_input_stays_closed_witness :
  exists code tr',
    session_loop os_last_words 4 3 100 session_draining [] = Ret code tr' /\
    relayed tr' = [Byte.x68; Byte.x69] /\
    written 3 tr' = [] /\
    exists ext,
      tr' = [] ++ ext /\
      forallb (drain_event 3 100) ext = true /\
      (3 <> STDIN_FILENO ->
       forall count r, ~ In (ERead STDIN_FILENO count r) ext) /\
      (3 <> STDOUT_FILENO ->
       forall data count r, ~ In (EWrite 3 data count r) ext) /\
      (forall e, In e ext ->
         match e with
         | EIoctlWinsz _ _ _ _ | EGetpgid _ _ | EKillpg _ _ _ | EKill _ _ _
         | EMalloc _ _ | ERealloc _ _ => False
         | _ => True
         end).
Proof.
  eexists _, _. split; [vm_compute; reflexivity|].
  split; [reflexivity|]. split; [reflexivity|].
  eapply (closed_input_stays_closed os_last_words glibc_wait 4 3 100 session_draining []).
  - reflexivity.
  - vm_compute. reflexivity.
Defined.

(** X14 (output is relayed verbatim).  When a read of the
    pseudoterminal returns bytes, the round copies them to the
    controller output unframed: if the round continues, exactly these
    bytes were written there, in order, and the session is unchanged;
    otherwise the round leaves with code [1] after a prefix of them. *)
Theorem pty_output_relayed (os : OS) (W : WaitStatus) (fuel : nat) (master_fd pid : Z)
  (s : session) (tr : trace) (data : list byte) (i : iter session) (tr' : trace) :
  os_write_sane os ->
  os_read os tr master_fd IO_BUF_SIZE = SysOk data ->
  data <> [] ->
  Z.of_nat (length data) <= IO_BUF_SIZE ->
  master_phase os fuel master_fd pid s true tr = Ret i tr' ->
  exists ext,
    forallb (is_write_to STDOUT_FILENO) ext = true /\
    ((i = Next s /\
      tr' = tr ++ [ERead master_fd IO_BUF_SIZE (SysOk data)] ++ ext /\
      relayed ext = data) \/
     (i = Return 1 /\
      tr' = tr ++ [ERead master_fd IO_BUF_SIZE (SysOk data)] ++ ext
               ++ [EFree; EClose master_fd] /\
      exists k, relayed ext = firstn k data)).
Proof.
  intros Hsane Hread Hdata Hsize H. unfold master_phase in H.
  unfold bind at 1 in H. unfold read in H. cbv zeta in H. rewrite Hread in H.
  destruct data as [|b data]; [contradiction|].
  set (l := b :: data) in *.
  destruct (Z.eqb_spec (Z.of_nat (length l)) 0) as [Hz|_];
    [subst l; cbn [length] in Hz; lia|].
  unfold bind at 1 in H.
  destruct (write_all os fuel STDOUT_FILENO l _ _) as [w tr2|] eqn:Hw; [|discriminate].
  assert (H64 : IO_BUF_SIZE < 2 ^ SIZE_BITS) by reflexivity.
  unfold write_all in Hw.
  destruct (write_all_from_log os fuel STDOUT_FILENO l (Z.of_nat (length l)) 0 _ w tr2 Hw)
    as (ext & Hext & Hfd & _).
  assert (Hoff : 0 <= 0 <= Z.of_nat (length l)) by lia.
  assert (Hlen : Z.of_nat (length l) < 2 ^ SIZE_BITS) by lia.
  destruct (write_all_from_spec os Hsane fuel STDOUT_FILENO l (Z.of_nat (length l)) 0 _
              w tr2 Hoff Hlen Hw)
    as (ext' & k & Hext' & Hk & Hwr & Hcode & Hall).
  assert (ext' = ext) as -> by (rewrite Hext in Hext'; now apply app_inv_head in Hext').
  subst tr2. exists ext. split; [exact Hfd|].
  unfold relayed. rewrite Hwr.
  destruct Hcode as [-> | ->]; cbn [Z.eqb negb] in H.
  - unfold ret in H. inversion H; subst i tr'. left. split; [reflexivity|].
    split; [now rewrite <- app_assoc|].
    rewrite (Hall eq_refl), Z.sub_0_r. unfold Mem.read. cbn [Z.to_nat skipn].
    apply firstn_all2. lia.
  - rewrite leave_log in H. inversion H; subst i tr'. right. split; [reflexivity|].
    split; [now rewrite <- !app_assoc|].
    exists (Z.to_nat k). reflexivity.
Qed.

Lemma pty_output_relayed_witness :
  exists ext,
    forallb (is_write_to STDOUT_FILENO) ext = true /\
    ((Next session_draining = Next session_draining /\
      [ERead 3 IO_BUF_SIZE (SysOk [Byte.x68; Byte.x69]);
       EWrite STDOUT_FILENO [Byte.x68; Byte.x69] 2 (SysOk 2)]
      = [] ++ [ERead 3 IO_BUF_SIZE (SysOk [Byte.x68; Byte.x69])] ++ ext /\
      relayed ext = [Byte.x68; Byte.x69]) \/
     (Next session_draining = Return 1 /\
      [ERead 3 IO_BUF_SIZE (SysOk [Byte.x68; Byte.x69]);
       EWrite STDOUT_FILENO [Byte.x68; Byte.x69] 2 (SysOk 2)]
      = [] ++ [ERead 3 IO_BUF_SIZE (SysOk [Byte.x68; Byte.x69])] ++ ext
           ++ [EFree; EClose 3] /\
      exists k, relayed ext = firstn k [Byte.x68; Byte.x69])).
Proof.
  apply (pty_output_relayed os_last_words glibc_wait 2 3 100 session_draining []
           [Byte.x68; Byte.x69]).
  - intros tr fd data count n. cbn [os_write os_last_words]. apply os_chunked_sane.
  - reflexivity.
  - discriminate.
  - vm_compute. discriminate.
  - vm_compute. reflexivity.
Defined.

(** X15 (input bytes reach the decoder in order).  When a read of the
    controller input returns bytes, the round appends them to the
    Frame Buffer and decodes.  If the round continues, the controller
    input is still open and the pending bytes are what was pending
    before followed by the new bytes, minus what the decoder took from
    the front; otherwise the round leaves with code [1]. *)
Theorem stdin_bytes_kept_in_order (os : OS) (W : WaitStatus) (fuel : nat)
  (master_fd pid : Z) (s : session) (tr : trace) (data : list byte)
  (i : iter session) (tr' : trace) :
  parser_ok (sess_parser s) ->
  len (sess_parser s) + Z.of_nat (length data) <= GROW_MAX ->
  stdin_open s = true ->
  os_read os tr STDIN_FILENO IO_BUF_SIZE = SysOk data ->
  data <> [] ->
  stdin_phase os fuel master_fd pid s true tr = Ret i tr' ->
  match i with
  | Next s' =>
      stdin_open s' = true /\ parser_ok (sess_parser s') /\
      exists k : nat,
        contents (sess_parser s') = skipn k (contents (sess_parser s) ++ data)
  | Return code => code = 1
  end.
Proof.
  intros Hok Hmax Hopen Hread Hdata. unfold stdin_phase.
  rewrite Hopen. cbn [andb].
  unfold bind at 1. unfold read. cbv zeta. rewrite Hread.
  destruct data as [|b data]; [contradiction|].
  set (l := b :: data) in *.
  destruct (Z.eqb_spec (Z.of_nat (length l)) 0) as [Hz|_];
    [subst l; cbn [length] in Hz; lia|].
  unfold bind at 1.
  destruct (parser_append_spec os (sess_parser s) l
              (tr ++ [ERead STDIN_FILENO IO_BUF_SIZE (SysOk l)]) Hok Hmax)
    as (r & p1 & tr2 & Happ & Hcase).
  rewrite Happ. cbn [fst snd].
  destruct Hcase as [(-> & _)|(-> & Hok1 & Hc1 & _)]; cbn [Z.eqb negb].
  - rewrite leave_log. now intros [= <- <-].
  - unfold bind at 1.
    destruct (parse_and_apply_frames os fuel p1 master_fd pid tr2) as [[rd pd] tr3|] eqn:Hd;
      [|discriminate].
    destruct (parse_and_apply_frames_log os master_fd pid fuel p1 tr2 rd pd tr3 Hok1 Hd)
      as (ext & k & _ & _ & _ & Hokd & _ & _ & Hcd & Hres).
    cbn [fst snd].
    destruct Hres as [(-> & _)|(-> & _)]; cbn [Z.eqb negb].
    + unfold ret. intros [= <- <-]. cbn [stdin_open sess_parser].
      split; [reflexivity|]. split; [exact Hokd|].
      exists (Z.to_nat k). now rewrite Hcd, Hc1.
    + rewrite leave_log. now intros [= <- <-].
Qed.

Lemma stdin_bytes_kept_in_order_witness :
  exists s' tr',
    stdin_phase os_partial_frame 3 3 100 session4 true [] = Ret (Next s') tr' /\
    contents (sess_parser s') = data_abc_partial /\
    stdin_open s' = true /\ parser_ok (sess_parser s') /\
    exists k : nat,
      contents (sess_parser s') = skipn k (contents (sess_parser session4) ++ data_abc_partial).
Proof.
  eexists _, _. split; [vm_compute; reflexivity|]. split; [reflexivity|].
  eapply (stdin_bytes_kept_in_order os_partial_frame glibc_wait 3 3 100 session4 []
            data_abc_partial (Next _)).
  - concrete.
  - vm_compute. discriminate.
  - reflexivity.
  - reflexivity.
  - discriminate.
  - vm_compute. reflexivity.
Defined.


(* ================================================================== *)
(** ** The child between [fork] and the program *)

Ltac child_cases H :=
  unfold child_branch, setsid, ioctl_TIOCSCTTY, dup2, child_close, _exit in H;
  cbn [fst snd app] in H;
  repeat match type of H with
         | context [if ?c <? 0 then _ else _] =>
             let E := fresh "E" in destruct (c <? 0) eqn:E
         end;
  try match type of H with
      | context [match ?c with None => _ | Some _ => _ end] =>
          let E := fresh "E" in destruct c eqn:E
      end;
  cbn [fst snd app] in H;
  inversion H; subst; clear H.

(** X16.  The descriptors the program starts from: [master_fd] and
    [slave_fd] are closed; each of the descriptors 0, 1 and 2 that is
    neither of them refers to what [slave_fd] referred to; every other
    descriptor is as it was after [fork].  So with both ends of the
    pseudoterminal above 2 the program has the slave as its three
    standard streams and holds no other descriptor of the
    pseudoterminal, and an end that [openpty] returned as one of 0, 1
    and 2 leaves that standard stream closed. *)
Theorem child_descriptors (cos : ChildOS) (master_fd slave_fd : Z) (fds : fdtable)
  (calls : list child_call) (t : fdtable) :
  child_branch cos master_fd slave_fd fds = (calls, Runs t) ->
  forall fd,
    t fd = if (fd =? master_fd) || (fd =? slave_fd) then None
           else if (0 <=? fd) && (fd <=? 2) then fds slave_fd
           else fds fd.
Proof.
  intros H fd. child_cases H.
  unfold fd_update, STDIN_FILENO, STDOUT_FILENO.
  destruct (fd =? slave_fd) eqn:Es; [now rewrite orb_true_r|].
  destruct (fd =? master_fd) eqn:Em; [reflexivity|].
  cbn [orb].
  destruct (fd =? 2) eqn:F2.
  { apply Z.eqb_eq in F2. subst fd. cbn [Z.leb Z.compare andb].
    destruct (2 =? 1) eqn:C1, (2 =? 0) eqn:C0, (slave_fd =? 1) eqn:S1, (slave_fd =? 0) eqn:S0;
      try reflexivity; try discriminate. }
  destruct (fd =? 1) eqn:F1.
  { apply Z.eqb_eq in F1. subst fd. cbn [Z.leb Z.compare andb].
    destruct (1 =? 0) eqn:C0, (slave_fd =? 1) eqn:S1, (slave_fd =? 0) eqn:S0;
      try reflexivity; try discriminate. }
  destruct (fd =? 0) eqn:F0.
  { apply Z.eqb_eq in F0. subst fd. reflexivity. }
  apply Z.eqb_neq in F2, F1, F0.
  destruct ((0 <=? fd) && (fd <=? 2)) eqn:R; [|reflexivity].
  apply andb_true_iff in R. destruct R as [R0 R2].
  apply Z.leb_le in R0, R2. lia.
Qed.

Lemma child_descriptors_witness :
  exists calls t,
    child_branch cos_calm 3 4 fds_3_4 = (calls, Runs t) /\
    forall fd,
      t fd = if (fd =? 3) || (fd =? 4) then None
             else if (0 <=? fd) && (fd <=? 2) then fds_3_4 4
             else fds_3_4 fd.
Proof.
  eexists _, _. split; [reflexivity|].
  exact (child_descriptors cos_calm 3 4 fds_3_4 _ _ eq_refl).
Defined.

(** With the standard input closed at the start, [openpty] returns the
    descriptors 0 and 3; the program then starts with its standard
    input closed, and with the slave as its other two streams. *)
Example child_stdin_lost :
  let fds : fdtable := fun fd => if fd =? 0 then Some PtyMaster
                                 else if fd =? 3 then Some PtySlave
                                 else if (1 <=? fd) && (fd <=? 2) then Some (Inherited fd)
                                 else None in
  exists calls t,
    child_branch cos_calm 0 3 fds = (calls, Runs t) /\
    t 0 = None /\ t 1 = Some PtySlave /\ t 2 = Some PtySlave /\ t 3 = None.
Proof.
  eexists _, _. split; [reflexivity|]. repeat split.
Qed.

(** X17.  The program is run only after a complete setup: whenever
    [execvp] is called, the calls before it are [setsid],
    [ioctl(slave_fd, TIOCSCTTY)], the three [dup2] of [slave_fd] onto
    0, 1 and 2, and the two [close], in this order, the first five
    with an answer that is not negative; and after an [execvp] that
    returned the only call is [_exit(127)]. *)
Theorem child_exec_after_setup (cos : ChildOS) (master_fd slave_fd : Z) (fds : fdtable)
  (calls : list child_call) (e : child_end) :
  child_branch cos master_fd slave_fd fds = (calls, e) ->
  existsb is_exec calls = true ->
  exists r0 r1 d0 d1 d2 r,
    calls = setup_calls master_fd slave_fd r0 r1 d0 d1 d2
              ++ CExecvp r :: match r with None => [] | Some _ => [CExit 127] end /\
    0 <= r0 /\ 0 <= r1 /\ 0 <= d0 /\ 0 <= d1 /\ 0 <= d2 /\
    match r with
    | None => exists t, e = Runs t
    | Some _ => e = Exits 127
    end.
Proof.
  intros H Hex. child_cases H; try discriminate Hex.
  - do 5 eexists. exists (Some z). split; [reflexivity|].
    apply Z.ltb_ge in E, E0, E1, E2, E3. repeat (split; [assumption|]). reflexivity.
  - do 5 eexists. exists None. split; [reflexivity|].
    apply Z.ltb_ge in E, E0, E1, E2, E3. repeat (split; [assumption|]). eexists. reflexivity.
Qed.

Lemma child_exec_after_setup_witness :
  exists calls e,
    child_branch cos_calm 3 4 fds_3_4 = (calls, e) /\
    existsb is_exec calls = true /\
    exists r0 r1 d0 d1 d2 r,
      calls = setup_calls 3 4 r0 r1 d0 d1 d2
                ++ CExecvp r :: match r with None => [] | Some _ => [CExit 127] end /\
      0 <= r0 /\ 0 <= r1 /\ 0 <= d0 /\ 0 <= d1 /\ 0 <= d2 /\
      match r with
      | None => exists t, e = Runs t
      | Some _ => e = Exits 127
      end.
Proof.
  eexists _, _. split; [reflexivity|]. split; [reflexivity|].
  exact (child_exec_after_setup cos_calm 3 4 fds_3_4 _ _ eq_refl eq_refl).
Defined.

(** X18.  A child that does not reach the program exits right after
    its first failed call, and makes no call in between: with 127 when
    that call is [execvp], with 1 when it is one of the setup. *)
Theorem child_exit_codes (cos : ChildOS) (master_fd slave_fd : Z) (fds : fdtable)
  (calls : list child_call) (code : Z) :
  child_branch cos master_fd slave_fd fds = (calls, Exits code) ->
  exists pre c,
    calls = pre ++ [c; CExit code] /\
    failed c = true /\
    existsb failed pre = false /\
    code = if is_exec c then 127 else 1.
Proof.
  intros H. child_cases H.
  - exists [], (CSetsid (cos_setsid cos [])). cbn. now rewrite E.
  - eexists [_], (CIoctlSctty _ _). split; [reflexivity|]. cbn. now rewrite E, E0.
  - eexists [_; _], (CDup2 _ _ _). split; [reflexivity|]. cbn. now rewrite E, E0, E1.
  - eexists [_; _; _], (CDup2 _ _ _). split; [reflexivity|]. cbn. now rewrite E, E0, E1, E2.
  - eexists [_; _; _; _], (CDup2 _ _ _). split; [reflexivity|]. cbn.
    now rewrite E, E0, E1, E2, E3.
  - eexists [_; _; _; _; _; _; _], (CExecvp (Some _)). split; [reflexivity|]. cbn.
    now rewrite E, E0, E1, E2, E3.
Qed.

Lemma child_exit_codes_witness :
  exists calls code,
    child_branch cos_no_stderr 3 4 fds_3_4 = (calls, Exits code) /\
    exists pre c,
      calls = pre ++ [c; CExit code] /\
      failed c = true /\
      existsb failed pre = false /\
      code = if is_exec c then 127 else 1.
Proof.
  eexists _, _. split; [reflexivity|].
  exact (child_exit_codes cos_no_stderr 3 4 fds_3_4 _ _ eq_refl).
Defined.


(* ================================================================== *)
(** ** [main] in the parent *)

Lemma closes_app fd a b : closes fd (a ++ b) = (closes fd a + closes fd b)%nat.
Proof. unfold closes. now rewrite filter_app, length_app. Qed.

Lemma frees_app a b : frees (a ++ b) = (frees a + frees b)%nat.
Proof. unfold frees. now rewrite filter_app, length_app. Qed.

Lemma allocations_app a b : allocations (a ++ b) = (allocations a + allocations b)%nat.
Proof. unfold allocations. now rewrite filter_app, length_app. Qed.

(** The rounds of the session loop neither allocate nor release. *)
Lemma session_event_holds master_fd pid ext :
  forallb (session_event master_fd pid) ext = true ->
  forall fd, closes fd ext = 0%nat /\ frees ext = 0%nat /\ allocations ext = 0%nat.
Proof.
  intros H fd. induction ext as [|e ext IH]; [now repeat split|].
  cbn [forallb] in H. apply andb_true_iff in H. destruct H as [He Hall].
  destruct (IH Hall) as (Hc & Hf & Ha).
  change (e :: ext) with ([e] ++ ext).
  rewrite closes_app, frees_app, allocations_app, Hc, Hf, Ha.
  destruct e; try discriminate He; now repeat split.
Qed.

(** X19.  Whenever the parent returns from [main] after [openpty]
    succeeded, it has closed each end of the pseudoterminal exactly
    once and freed the Frame Buffer exactly when it had allocated it,
    and its exit status is between 0 and 255. *)
Theorem main_releases (os : OS) (W : WaitStatus) (cos : ChildOS) (fuel : nat)
  (argc master_fd slave_fd : Z) (fds : fdtable) (pid : Z)
  (tr : trace) (code : Z) (tr' : trace) :
  2 <= argc ->
  master_fd <> slave_fd ->
  main os cos fuel argc (Some (master_fd, slave_fd)) fds pid tr
  = Ret (ParentReturns code) tr' ->
  exists ext,
    tr' = tr ++ ext /\
    closes master_fd ext = 1%nat /\
    closes slave_fd ext = 1%nat /\
    frees ext = allocations ext /\
    0 <= code < 256.
Proof.
  intros Hargc Hne H. unfold main in H.
  destruct (argc <? 2) eqn:Ea; [apply Z.ltb_lt in Ea; lia|].
  assert (Hms : (master_fd =? slave_fd) = false) by now apply Z.eqb_neq.
  assert (Hsm : (slave_fd =? master_fd) = false) by (apply Z.eqb_neq; congruence).
  destruct (pid <? 0).
  { unfold bind, close, log, ret in H. injection H as <- <-.
    exists [EClose master_fd; EClose slave_fd].
    split; [now rewrite <- app_assoc|].
    unfold closes, frees, allocations. cbn [filter].
    rewrite !Z.eqb_refl, Hms, Hsm. cbn. repeat split; lia. }
  destruct (pid =? 0); [discriminate H|].
  unfold bind at 1 2 in H. unfold close at 1, log in H.
  unfold run_session, parser_init, bind at 1 2, malloc in H.
  destruct (os_malloc os (tr ++ [EClose slave_fd]) 8192) as [fill|].
  - unfold ret at 1 in H.
    destruct (session_loop os fuel master_fd pid _ _) as [c tr1|] eqn:Hloop;
      [|discriminate H].
    unfold ret in H. injection H as <- <-.
    apply session_loop_ends in Hloop.
    destruct Hloop as (ext & Hext & -> & Hrange & _).
    destruct (session_event_holds _ _ _ Hext master_fd) as (Hcm & Hf & Ha).
    destruct (session_event_holds _ _ _ Hext slave_fd) as (Hcs & _ & _).
    exists ([EClose slave_fd; EMalloc 8192 true] ++ ext ++ [EFree; EClose master_fd]).
    split; [now rewrite <- !app_assoc|].
    rewrite !closes_app, !frees_app, !allocations_app, Hcm, Hcs, Hf, Ha.
    unfold closes, frees, allocations. cbn [filter].
    rewrite !Z.eqb_refl, Hms, Hsm. cbn. repeat split; lia.
  - unfold ret at 1, bind, close, log, ret in H. injection H as <- <-.
    exists [EClose slave_fd; EMalloc 8192 false; EClose master_fd].
    split; [now rewrite <- !app_assoc|].
    unfold closes, frees, allocations. cbn [filter].
    rewrite !Z.eqb_refl, Hms, Hsm. cbn. repeat split; lia.
Qed.

Lemma main_releases_witness :
  exists code tr',
    main os_wait_fails cos_calm 2 2 (Some (3, 4)) fds_3_4 100 []
    = Ret (ParentReturns code) tr' /\
    exists ext,
      tr' = [] ++ ext /\
      closes 3 ext = 1%nat /\
      closes 4 ext = 1%nat /\
      frees ext = allocations ext /\
      0 <= code < 256.
Proof.
  eexists _, _. split; [vm_compute; reflexivity|].
  eapply (main_releases os_wait_fails glibc_wait cos_calm 2 2 3 4 fds_3_4 100 []).
  - lia.
  - discriminate.
  - vm_compute. reflexivity.
Defined.
